(** * Sentinel-1 SLC: STAC Item and Collection creation

    A shallow embedding of [stactools.sentinel1.slc.stac] (stac.py) and
    [stactools.sentinel1.slc.constants] (constants.py), together with the
    part of the pystac object model these two modules drive, and the
    properties of [create_item] and [create_collection].

    The first part threads the Python objects that are mutated in place
    (the item, its property dictionary, its assets) explicitly as values;
    module-level objects (the constants) live in a store that every call
    receives and returns; exceptions are the [Err] results of an error
    monad.  The second part ("Objects with identity") runs the same two
    functions on a store of objects with references, where in-place
    updates and sharing are what they are in Python, and relates the two
    parts. *)

From Stdlib Require Import String Ascii List ZArith Bool Arith Lia.
Import ListNotations.
Local Open Scope string_scope.
Local Open Scope list_scope.

Set Implicit Arguments.
Set Warnings "-register-all".

(* ================================================================== *)
(** * Python values and built-ins *)
(* ================================================================== *)

(** A Python [float] is named by a decimal literal: [Dec m e] is the float
    that the literal [m * 10^e] denotes (every finite float has such a
    literal, and [repr] yields one).  Floats are only stored and handed on
    by the code below, never computed with. *)
Record float := Dec { mantissa : Z; exponent10 : Z }.

(** JSON-like Python values, as they are stored in property dictionaries. *)
Inductive Value :=
| VNone
| VBool (b : bool)
| VInt (z : Z)
| VFloat (x : float)
| VStr (s : string)
| VList (l : list Value)
| VDict (d : list (string * Value)).

(** ** Strings *)

Definition is_upper (c : ascii) : bool :=
  let n := nat_of_ascii c in (65 <=? n)%nat && (n <=? 90)%nat.

Definition is_lower (c : ascii) : bool :=
  let n := nat_of_ascii c in (97 <=? n)%nat && (n <=? 122)%nat.

Definition lower_char (c : ascii) : ascii :=
  if is_upper c then ascii_of_nat (nat_of_ascii c + 32) else c.

Definition upper_char (c : ascii) : ascii :=
  if is_lower c then ascii_of_nat (nat_of_ascii c - 32) else c.

Fixpoint map_string (f : ascii -> ascii) (s : string) : string :=
  match s with
  | EmptyString => EmptyString
  | String c r => String (f c) (map_string f r)
  end.

(** [str.lower()] and [str.upper()], on the ASCII letters. *)
Definition lower (s : string) : string := map_string lower_char s.
Definition upper (s : string) : string := map_string upper_char s.

(** [s[:-n]] for a positive [n]: the stop index [len(s) - n] is clamped at
    zero, so a string shorter than [n] yields the empty string. *)
Definition slice_to_neg (n : nat) (s : string) : string :=
  substring 0 (String.length s - n) s.

(** [s[-n:]] for a positive [n]. *)
Definition slice_from_neg (n : nat) (s : string) : string :=
  substring (String.length s - n) (String.length s) s.

Definition starts_with_slash (s : string) : bool :=
  match s with
  | String c _ => Ascii.eqb c "/"%char
  | EmptyString => false
  end.

Fixpoint ends_with_slash (s : string) : bool :=
  match s with
  | EmptyString => false
  | String c EmptyString => Ascii.eqb c "/"%char
  | String _ r => ends_with_slash r
  end.

(** [os.path.join(a, b)] of posixpath, for two components. *)
Definition os_path_join (a b : string) : string :=
  if starts_with_slash b then b
  else if ((String.length a =? 0)%nat || ends_with_slash a)%bool then a ++ b
  else a ++ "/" ++ b.

(** Truthiness of an [Optional[str]]: [None] and [""] are falsy. *)
Definition truthy (o : option string) : bool :=
  match o with
  | Some (String _ _) => true
  | _ => false
  end.

(** [f"{o}"] for an [Optional[str]] *)
Definition format_opt (o : option string) : string :=
  match o with
  | Some s => s
  | None => "None"
  end.


(** ** Dictionaries

    A Python [dict] keeps its keys in insertion order and assigning to an
    existing key keeps that key's position: an association list with
    unique keys. *)

Definition dict (V : Type) := list (string * V).

Fixpoint dict_get {V} (k : string) (d : dict V) : option V :=
  match d with
  | [] => None
  | (k', v) :: r => if String.eqb k k' then Some v else dict_get k r
  end.

(** [k in d] *)
Definition dict_contains {V} (k : string) (d : dict V) : bool :=
  match dict_get k d with Some _ => true | None => false end.

(** [d[k] = v] *)
Fixpoint dict_set {V} (k : string) (v : V) (d : dict V) : dict V :=
  match d with
  | [] => [(k, v)]
  | (k', v') :: r =>
      if String.eqb k k' then (k, v) :: r else (k', v') :: dict_set k v r
  end.

(** [d.pop(k, None)] *)
Fixpoint dict_pop {V} (k : string) (d : dict V) : dict V :=
  match d with
  | [] => []
  | (k', v') :: r =>
      if String.eqb k k' then dict_pop k r else (k', v') :: dict_pop k r
  end.

(** [d.update(src)], and [d.update(pairs)] for a sequence of pairs. *)
Definition dict_update {V} (src : list (string * V)) (d : dict V) : dict V :=
  fold_left (fun acc kv => dict_set (fst kv) (snd kv) acc) src d.

(** [dict(pairs)] *)
Definition dict_of_pairs {V} (pairs : list (string * V)) : dict V :=
  dict_update pairs [].

Definition dict_keys {V} (d : dict V) : list string := map fst d.
Definition dict_values {V} (d : dict V) : list V := map snd d.

(** Setting a property through a pystac extension or the common metadata:
    [None] removes the key, any other value is stored. *)
Definition set_or_pop {V} (k : string) (v : option V) (d : dict V) : dict V :=
  match v with
  | Some x => dict_set k x d
  | None => dict_pop k d
  end.

(** A sequence of property assignments, applied in order. *)
Definition apply_writes {V} (ws : list (string * option V)) (d : dict V)
  : dict V :=
  fold_left (fun acc w => set_or_pop (fst w) (snd w) acc) ws d.

(** The last assignment to [k] in a sequence of assignments. *)
Fixpoint last_write {V} (k : string) (ws : list (string * option V))
  : option (option V) :=
  match ws with
  | [] => None
  | (k', v) :: r =>
      match last_write k r with
      | Some w => Some w
      | None => if String.eqb k k' then Some v else None
      end
  end.

(* ================================================================== *)
(** * Exceptions, results and the store of module-level objects *)
(* ================================================================== *)

(** Exceptions are told apart by where they are raised: the ones of
    stac.py and pystac by name, the ones coming out of a helper of the
    package or of a third-party library as [Raised]. *)
Inductive Exception :=
| AssertionError                 (* [assert key not in item.assets] *)
| KeyError (key : string)        (* subscripting a constant dictionary *)
| ValueError (msg : string)      (* unpacking a sequence of the wrong length *)
| STACError (msg : string)       (* raised by pystac *)
| Raised (exc : string).         (* raised inside a helper *)

Inductive Result (A : Type) :=
| Ok (a : A)
| Err (e : Exception).
Arguments Ok {A} a.
Arguments Err {A} e.

(** What a call of a helper does: return a value or raise. *)
Inductive Outcome (A : Type) :=
| Returns (a : A)
| Raises (exc : string).
Arguments Returns {A} a.
Arguments Raises {A} exc.

(* ================================================================== *)
(** * The pystac object model *)
(* ================================================================== *)

(** [datetime.datetime], in UTC. *)
Record datetime := mk_datetime
  { year : Z; month : Z; day : Z; hour : Z; minute : Z; second : Z }.

Definition digit_of (c : ascii) : option Z :=
  let n := nat_of_ascii c in
  if ((48 <=? n)%nat && (n <=? 57)%nat)%bool
  then Some (Z.of_nat (n - 48)) else None.

Fixpoint number_of (cs : list ascii) (acc : Z) : option Z :=
  match cs with
  | [] => Some acc
  | c :: r =>
      match digit_of c with
      | Some d => number_of r (10 * acc + d)
      | None => None
      end
  end.

Definition in_range (lo hi : Z) (o : option Z) : option Z :=
  match o with
  | Some z => if ((lo <=? z) && (z <=? hi))%Z%bool then Some z else None
  | None => None
  end.

(** [pystac.utils.str_to_datetime], on the layout [YYYY-MM-DDTHH:MM:SSZ];
    [None] stands for the [ValueError] of any other input. *)
Definition str_to_datetime (s : string) : option datetime :=
  match list_ascii_of_string s with
  | [y1; y2; y3; y4; "-"; m1; m2; "-"; d1; d2; "T";
     h1; h2; ":"; n1; n2; ":"; s1; s2; "Z"]%char =>
      match number_of [y1; y2; y3; y4] 0,
            in_range 1 12 (number_of [m1; m2] 0),
            in_range 1 31 (number_of [d1; d2] 0),
            in_range 0 23 (number_of [h1; h2] 0),
            in_range 0 59 (number_of [n1; n2] 0),
            in_range 0 59 (number_of [s1; s2] 0) with
      | Some y, Some m, Some d, Some h, Some n, Some sec =>
          Some (mk_datetime y m d h n sec)
      | _, _, _, _, _, _ => None
      end
  | _ => None
  end.

(** [pystac.MediaType] *)
Module MediaType.
Inductive t := COG | GEOTIFF | PNG | XML | JSON.

Definition value (m : t) : string :=
  match m with
  | COG => "image/tiff; application=geotiff; profile=cloud-optimized"
  | GEOTIFF => "image/tiff; application=geotiff"
  | PNG => "image/png"
  | XML => "application/xml"
  | JSON => "application/json"
  end.
End MediaType.

(** The extensions used by stac.py and their schema URIs (pystac 1.x). *)
Inductive Extension :=
| SarExtension
| AssetSarExtension
| SatExtension
| EOExtension
| ProjectionExtension
| ItemAssetsExtension.

Definition get_schema_uri (x : Extension) : string :=
  match x with
  | SarExtension | AssetSarExtension =>
      "https://stac-extensions.github.io/sar/v1.0.0/schema.json"
  | SatExtension => "https://stac-extensions.github.io/sat/v1.0.0/schema.json"
  | EOExtension => "https://stac-extensions.github.io/eo/v1.1.0/schema.json"
  | ProjectionExtension =>
      "https://stac-extensions.github.io/projection/v1.1.0/schema.json"
  | ItemAssetsExtension =>
      "https://stac-extensions.github.io/item-assets/v1.0.0/schema.json"
  end.

Fixpoint mem_string (x : string) (l : list string) : bool :=
  match l with
  | [] => false
  | y :: r => String.eqb x y || mem_string x r
  end.

(** [ensure_has_extension(obj, add_if_missing=True)] on a list of schema
    URIs: the URI is appended unless it is already listed. *)
Definition add_if_missing (x : Extension) (exts : list string) : list string :=
  if mem_string (get_schema_uri x) exts then exts
  else exts ++ [get_schema_uri x].

(** [pystac.Asset]; [owner] is the id of the item the asset was added to. *)
Module Asset.
Record t := mk
  { href : string;
    title : option string;
    description : option string;
    media_type : option MediaType.t;
    roles : option (list string);
    extra_fields : dict Value;
    owner : option string }.

Definition set_owner (o : string) (a : t) : t :=
  mk (href a) (title a) (description a) (media_type a) (roles a)
     (extra_fields a) (Some o).

Definition set_extra_fields (f : dict Value) (a : t) : t :=
  mk (href a) (title a) (description a) (media_type a) (roles a)
     f (owner a).
End Asset.

(** [pystac.Link]; a link to the object that holds it has no href. *)
Module Link.
Inductive target_t :=
| Href (h : string)
| Owner.

Record t := mk
  { rel : string;
    target : target_t;
    media_type : option MediaType.t;
    title : option string }.

Definition root : t := mk "root" Owner (Some MediaType.JSON) None.
Definition self_href (h : string) : t :=
  mk "self" (Href h) (Some MediaType.JSON) None.
End Link.

(** [pystac.Provider] *)
Module Provider.
Record t := mk
  { name : string;
    description : option string;
    roles : option (list string);
    url : option string }.

Definition opt_entry (k : string) (o : option Value) : dict Value :=
  match o with Some v => [(k, v)] | None => [] end.

Definition to_dict (p : t) : Value :=
  VDict ([("name", VStr (name p))]
         ++ opt_entry "description" (option_map VStr (description p))
         ++ opt_entry "roles"
              (option_map (fun r => VList (map VStr r)) (roles p))
         ++ opt_entry "url" (option_map VStr (url p))).
End Provider.

(** [pystac.Extent]: [SpatialExtent] wraps a single bounding box into a
    list of bounding boxes, [TemporalExtent] takes a list of intervals. *)
Module Extent.
Record t := mk
  { bboxes : list (list float);
    intervals : list (option datetime * option datetime) }.
End Extent.

Definition SpatialExtent (b : list float) : list (list float) := [b].
Definition TemporalExtent (i : list (option datetime * option datetime))
  : list (option datetime * option datetime) := i.

(** [pystac.Item] *)
Module Item.
Record t := mk
  { id : string;
    geometry : Value;
    bbox : list float;
    datetime_ : option datetime;
    properties : dict Value;
    stac_extensions : list string;
    assets : dict Asset.t;
    links : list Link.t }.

Definition with_properties (p : dict Value) (i : t) : t :=
  mk (id i) (geometry i) (bbox i) (datetime_ i) p (stac_extensions i)
     (assets i) (links i).

Definition with_stac_extensions (e : list string) (i : t) : t :=
  mk (id i) (geometry i) (bbox i) (datetime_ i) (properties i) e
     (assets i) (links i).

Definition with_assets (a : dict Asset.t) (i : t) : t :=
  mk (id i) (geometry i) (bbox i) (datetime_ i) (properties i)
     (stac_extensions i) a (links i).

Definition with_links (l : list Link.t) (i : t) : t :=
  mk (id i) (geometry i) (bbox i) (datetime_ i) (properties i)
     (stac_extensions i) (assets i) l.

(** [pystac.Item(id, geometry, bbox, datetime, properties,
    stac_extensions)]: without a datetime the properties must carry a
    start and an end datetime. *)
Definition new (id_ : string) (geometry_ : Value) (bbox_ : list float)
    (dt : option datetime) (properties_ : dict Value)
    (stac_extensions_ : list string) : Result t :=
  match dt with
  | None =>
      if (dict_contains "start_datetime" properties_
          && dict_contains "end_datetime" properties_)%bool
      then Ok (mk id_ geometry_ bbox_ dt properties_ stac_extensions_ [] [])
      else Err (STACError "Invalid Item: If datetime is None, a start_datetime and end_datetime must be supplied in the properties.")
  | Some _ =>
      Ok (mk id_ geometry_ bbox_ dt properties_ stac_extensions_ [] [])
  end.

(** [Ext.ext(item, add_if_missing=True)] *)
Definition ext (x : Extension) (i : t) : t :=
  with_stac_extensions (add_if_missing x (stac_extensions i)) i.

(** an extension or common-metadata setter: [_set_property] *)
Definition set_property (k : string) (v : option Value) (i : t) : t :=
  with_properties (set_or_pop k v (properties i)) i.

(** [item.add_asset(key, asset)]: the asset gets the item as its owner
    and is stored under [key], replacing what was there. *)
Definition add_asset (key : string) (a : Asset.t) (i : t) : t :=
  with_assets (dict_set key (Asset.set_owner (id i) a) (assets i)) i.
End Item.

(** [pystac.Collection]; [summaries] holds the list summaries. *)
Module Collection.
Record t := mk
  { id : string;
    description : string;
    extent : Extent.t;
    title : option string;
    stac_extensions : list string;
    keywords : option (list string);
    providers : option (list Provider.t);
    summaries : dict (list Value);
    links : list Link.t;
    extra_fields : dict Value }.

(** [pystac.Collection(id, description, extent, title, href,
    stac_extensions, keywords, providers, summaries)]: a new collection
    links to itself as root and to [href] as self. *)
Definition new (id_ description_ : string) (extent_ : Extent.t)
    (title_ : option string) (href_ : string)
    (stac_extensions_ : list string) (keywords_ : option (list string))
    (providers_ : option (list Provider.t))
    (summaries_ : dict (list Value)) : t :=
  mk id_ description_ extent_ title_ stac_extensions_ keywords_ providers_
     summaries_ [Link.root; Link.self_href href_] [].

Definition append_link (l : Link.t) (c : t) : t :=
  mk (id c) (description c) (extent c) (title c) (stac_extensions c)
     (keywords c) (providers c) (summaries c) (links c ++ [l])
     (extra_fields c).

(** [Ext.summaries(collection, add_if_missing=True)] and
    [Ext.ext(collection, add_if_missing=True)] *)
Definition ext (x : Extension) (c : t) : t :=
  mk (id c) (description c) (extent c) (title c)
     (add_if_missing x (stac_extensions c))
     (keywords c) (providers c) (summaries c) (links c) (extra_fields c).

(** a summaries setter: [summaries.add(key, values)] *)
Definition set_summary (k : string) (v : list Value) (c : t) : t :=
  mk (id c) (description c) (extent c) (title c) (stac_extensions c)
     (keywords c) (providers c) (dict_set k v (summaries c)) (links c)
     (extra_fields c).

Definition set_extra_field (k : string) (v : Value) (c : t) : t :=
  mk (id c) (description c) (extent c) (title c) (stac_extensions c)
     (keywords c) (providers c) (summaries c) (links c)
     (dict_set k v (extra_fields c)).
End Collection.

(** [Summaries(summary_dict)]: every entry of the dictionary is added. *)
Definition Summaries (summary_dict : dict (list Value)) : dict (list Value) :=
  dict_update summary_dict [].

(* ================================================================== *)
(** * The package around stac.py *)
(* ================================================================== *)

(** An XML element, as [stactools.core.io.xml.XmlElement] wraps it. *)
Inductive XmlElement :=
| Element (tag : string) (attrib : list (string * string))
          (text : option string) (children : list XmlElement).

(** Modelled from the spec: formats.py is not among the sources.  The
    archive format is SAFE or COG ("SAFE directory structure or
    Cloud-Optimized GeoTIFF variants"); [Other] stands for any further
    value a caller passes for [archive_format]. *)
Module Format.
Inductive t := SAFE | COG | Other (name : string).

Definition eqb (a b : t) : bool :=
  match a, b with
  | SAFE, SAFE => true
  | COG, COG => true
  | Other x, Other y => String.eqb x y
  | _, _ => false
  end.
End Format.

Definition ReadHrefModifier := string -> string.

(** The assignments a property filler performs on the object it is
    handed, in order; [None] removes the key. *)
Definition Writes := list (string * option Value).

(** Modelled from the spec: slc/metadata_links.py is not among the sources.
    An [SLCMetadataLinks] object is given by the attributes and the results
    of the methods that stac.py uses. *)
Module SLCMetadataLinks.
Record t := mk
  { product_metadata_href : string;
    grouped_hrefs : Value;
    map_filename : string -> string;
    manifest : XmlElement;
    thumbnail_href : option string;
    create_manifest_asset : Outcome (string * Asset.t);
    create_product_asset : Outcome (list (string * Asset.t));
    create_calibration_asset : Outcome (list (string * Asset.t));
    create_noise_asset : Outcome (list (string * Asset.t)) }.
End SLCMetadataLinks.

(** Modelled from the spec: slc/product_metadata.py is not among the
    sources.  An [SLCProductMetadata] object is given by what reading each
    of its attributes does: the "product metadata parser" either extracts
    the value or fails because a field is missing.  [platform] may be
    extracted as [None]. *)
Module SLCProductMetadata.
Record t := mk
  { scene_id : Outcome string;
    geometry : Outcome Value;
    bbox : Outcome (list float);
    get_datetime : Outcome datetime;
    platform : Outcome (option string);
    metadata_dict : Outcome (dict Value);
    image_paths : Outcome (list string) }.
End SLCProductMetadata.

(** Modelled from the spec: the constants of the parent package
    ([from ..constants import *]) are not among the sources. *)
Module sentinel1_constants.
Record t := mk
  { SENTINEL_CONSTELLATION : string;
    SENTINEL_PLATFORMS : list string;
    SENTINEL_PROVIDER : Provider.t }.
End sentinel1_constants.

(** Modelled from the spec: the helpers that stac.py imports from the rest
    of the package (bands.py, metadata_links.py, product_metadata.py,
    slc/properties.py) and from third-party libraries (stactools.core,
    shapely, the built-in [round]) are not among the sources.  Each is
    taken as it is called: the "field-extraction and mapping layer (product
    metadata parser + property fillers)", where a property filler is given
    by the assignments it performs. *)
Record Externals := mk_externals
  { parent_constants : sentinel1_constants.t;
    new_SLCMetadataLinks :
      string -> option ReadHrefModifier -> Format.t -> dict Value ->
      Outcome SLCMetadataLinks.t;
    new_SLCProductMetadata :
      string -> Value -> (string -> string) -> XmlElement ->
      Outcome SLCProductMetadata.t;
    find_attr : XmlElement -> string -> string -> option string;
    fill_common_sar_properties : XmlElement -> Outcome Writes;
    fill_sat_properties : XmlElement -> Outcome Writes;
    fill_processing_properties : XmlElement -> Outcome Writes;
    fill_swath_sar_properties : string -> string -> Outcome Writes;
    get_shape :
      SLCMetadataLinks.t -> option ReadHrefModifier -> dict Value ->
      Outcome (list Z);
    transform_from_bbox : option (list float) -> list Z -> Outcome (list float);
    centroid : Value -> Outcome (float * float);
    round : float -> Z -> float;
    image_asset_from_href :
      string -> Item.t -> option MediaType.t -> bool ->
      Outcome (string * Asset.t);
    extract_properties : string -> list string -> Outcome (list string) }.

(* ================================================================== *)
(** * The module namespace [c] and the monad of stac.py *)
(* ================================================================== *)

(** The attributes of [constants], as stac.py reads them through [c]. *)
Module c.
Record t := mk
  { SENTINEL_CONSTELLATION : string;
    SENTINEL_PLATFORMS : list string;
    SENTINEL_PROVIDER : Provider.t;
    SENTINEL_SLC_DESCRIPTION : string;
    SENTINEL_SLC_START : datetime;
    SENTINEL_SLC_EXTENT : Extent.t;
    SENTINEL_SLC_TECHNICAL_GUIDE : Link.t;
    SENTINEL_SLC_LICENSE : Link.t;
    SENTINEL_SLC_KEYWORDS : list string;
    SENTINEL_SLC_SAT : dict (list Value);
    SENTINEL_SLC_SAR : dict (list Value);
    SENTINEL_SLC_ASSETS : dict (dict Value) }.
End c.

(** A computation of stac.py: it runs on the current module-level objects
    and ends with a value or an exception, and with the module-level
    objects as it leaves them. *)
Definition M (A : Type) := c.t -> Result A * c.t.

Definition ret {A} (a : A) : M A := fun s => (Ok a, s).

Definition bind {A B} (m : M A) (f : A -> M B) : M B :=
  fun s =>
    match m s with
    | (Ok a, s') => f a s'
    | (Err e, s') => (Err e, s')
    end.

Definition raise {A} (e : Exception) : M A := fun s => (Err e, s).

(** reading a module attribute: [c.NAME] *)
Definition gets {A} (f : c.t -> A) : M A := fun s => (Ok (f s), s).

(** a call of pystac that may raise *)
Definition lift {A} (r : Result A) : M A := fun s => (r, s).

(** a call of a helper: what it raises is not caught *)
Definition call {A} (o : Outcome A) : M A :=
  fun s =>
    match o with
    | Returns a => (Ok a, s)
    | Raises exc => (Err (Raised exc), s)
    end.

Declare Scope py_scope.
Delimit Scope py_scope with py.
Notation "x <- m ;; k" := (bind m (fun x => k))
  (at level 61, m at next level, right associativity) : py_scope.
Notation "' p <- m ;; k" := (bind m (fun x => match x with p => k end))
  (at level 61, p pattern, m at next level, right associativity) : py_scope.
Local Open Scope py_scope.

(** [d[k]] *)
Definition getitem {V} (k : string) (d : dict V) : M V :=
  match dict_get k d with
  | Some v => ret v
  | None => raise (KeyError k)
  end.

(** a list comprehension [[f(x) for x in xs]] *)
Fixpoint comprehension {A B} (f : A -> M B) (xs : list A) : M (list B) :=
  match xs with
  | [] => ret []
  | x :: r =>
      y <- f x ;;
      ys <- comprehension f r ;;
      ret (y :: ys)
  end.

(** a loop [for x in xs: body] over a state that the body updates *)
Fixpoint for_each {A S} (body : A -> S -> M S) (xs : list A) (s : S) : M S :=
  match xs with
  | [] => ret s
  | x :: r =>
      s' <- body x s ;;
      for_each body r s'
  end.

Definition run {A} (m : M A) (s : c.t) : Result A := fst (m s).

(** A computation that leaves the module-level objects as it found them. *)
Definition stateless {A} (m : M A) : Prop := forall s, snd (m s) = s.

(* ================================================================== *)
(** * constants.py *)
(* ================================================================== *)

Module constants.

Definition SENTINEL_SLC_DESCRIPTION : string :=
  "Level-1 Single Look Complex (SLC) products are images in the slant range by azimuth imaging plane, in the image plane of satellite data acquisition. Each image pixel is represented by a complex (I and Q) magnitude value and therefore contains both amplitude and phase information. Each I and Q value "
  ++ "is 16 bits per pixel. The processing for all SLC products results in a single look in each dimension using the full available signal bandwidth. The imagery is geo-referenced using orbit and attitude data from the satellite. SLC images are produced in a zero Doppler geometry. This convention is common "
  ++ "with the standard slant range products available from other SAR sensors.".

Definition epoch : datetime := mk_datetime 1970 1 1 0 0 0.

(** evaluated when the module is imported *)
Definition SENTINEL_SLC_START : datetime :=
  Eval cbv in
    match str_to_datetime "2014-10-10T00:00:00Z" with
    | Some d => d
    | None => epoch
    end.

Definition SENTINEL_SLC_EXTENT : Extent.t :=
  Extent.mk
    (SpatialExtent [Dec (-1800) (-1); Dec (-900) (-1);
                    Dec 1800 (-1); Dec 900 (-1)])
    (TemporalExtent [(Some SENTINEL_SLC_START, None)]).

Definition SENTINEL_SLC_TECHNICAL_GUIDE : Link.t :=
  Link.mk "about"
    (Link.Href "https://sentinels.copernicus.eu/web/sentinel/technical-guides/sentinel-1-sar/products-algorithms/level-1-algorithms/single-look-complex")
    None
    (Some "Sentinel-1 Single Look Complex (SLC) Technical Guide").

Definition SENTINEL_SLC_LICENSE : Link.t :=
  Link.mk "license"
    (Link.Href "https://scihub.copernicus.eu/twiki/do/view/SciHubWebPortal/TermsConditions")
    None
    (Some "Sentinel License").

Definition SENTINEL_SLC_KEYWORDS : list string :=
  ["ground"; "sentinel"; "copernicus"; "esa"; "sar"].

(** the values of [sat.OrbitState], [sar.Polarization],
    [sar.FrequencyBand] and [sar.ObservationDirection] are strings *)
Definition SENTINEL_SLC_SAT : dict (list Value) :=
  [("orbit_state", [VStr "ascending"; VStr "descending"])].

Definition tenths (l : list Z) : list Value :=
  map (fun m => VFloat (Dec m (-1))) l.

Definition SENTINEL_SLC_SAR : dict (list Value) :=
  [("looks_range", [VInt 1]);
   ("product_type", [VStr "SLC"]);
   ("looks_azimuth", [VInt 1]);
   ("polarizations",
     [VStr "HH"; VStr "VV"; VStr "HV"; VStr "VH";
      VList [VStr "HH"; VStr "HV"];
      VList [VStr "VV"; VStr "VH"]]);
   ("frequency_band", [VStr "C"]);
   ("instrument_mode", [VStr "IW"; VStr "EW"; VStr "SM"; VStr "WV"]);
   ("center_frequency", [VFloat (Dec 5405 (-3))]);
   ("resolution_range",
     tenths [17; 20; 25; 27; 31; 33; 36; 35; 79; 99; 116; 133; 144]%Z);
   ("resolution_azimuth",
     tenths [39; 49; 225; 226; 227; 437; 443; 452; 456; 440]%Z);
   ("pixel_spacing_range", tenths [15; 18; 22; 23; 26; 29; 31; 59]%Z);
   ("pixel_spacing_azimuth", tenths [35; 36; 41; 42; 141; 199]%Z);
   ("observation_direction", [VStr "right"]);
   ("looks_equivalent_number", [VInt 1])].

(** [AssetDefinition({...})]: the definition is its dictionary *)
Definition AssetDefinition (title : string) (type : MediaType.t)
    (description : string) (roles : list string) : dict Value :=
  [("title", VStr title);
   ("type", VStr (MediaType.value type));
   ("description", VStr description);
   ("roles", VList (map VStr roles))].

Definition calibration_description : string :=
  "Calibration metadata including calibration information and the beta nought, "
  ++ "sigma nought, gamma and digital number look-up tables that can be used for "
  ++ "absolute product calibration.".

Definition noise_description : string :=
  "Estimated thermal noise look-up tables".

Definition product_description : string :=
  "Describes the main characteristics corresponding to the band: state of the "
  ++ "platform during acquisition, image properties, Doppler information, geographic "
  ++ "location, etc.".

Definition manifest_description : string :=
  "General product metadata in XML format. Contains a high-level textual "
  ++ "description of the product and references to all of product's components, "
  ++ "the product metadata, including the product identification and the resource "
  ++ "references, and references to the physical location of each component file "
  ++ "contained in the product.".

Definition thumbnail_description : string :=
  "An averaged, decimated preview image in PNG format. Single polarization "
  ++ "products are represented with a grey scale image. Dual polarization products "
  ++ "are represented by a single composite colour image in RGB with the red channel "
  ++ "(R) representing the  co-polarization VV or HH), the green channel (G) "
  ++ "represents the cross-polarization (VH or HV) and the blue channel (B) "
  ++ "represents the ratio of the cross an co-polarizations.".

Definition SENTINEL_SLC_ASSETS : dict (dict Value) :=
  [("vh", AssetDefinition "VH Data" MediaType.COG
      "VH polarization backscattering coefficient, 16-bit DN." ["data"]);
   ("hh", AssetDefinition "HH Data" MediaType.COG
      "HH polarization backscattering coefficient, 16-bit DN." ["data"]);
   ("hv", AssetDefinition "HV Data" MediaType.COG
      "HV polarization backscattering coefficient, 16-bit DN." ["data"]);
   ("vv", AssetDefinition "VV Data" MediaType.COG
      "VV polarization backscattering coefficient, 16-bit DN." ["data"]);
   ("schema-calibration-hh", AssetDefinition "HH Calibration Schema"
      MediaType.XML calibration_description ["metadata"]);
   ("schema-calibration-hv", AssetDefinition "HV Calibration Schema"
      MediaType.XML calibration_description ["metadata"]);
   ("schema-calibration-vh", AssetDefinition "VH Calibration Schema"
      MediaType.XML calibration_description ["metadata"]);
   ("schema-calibration-vv", AssetDefinition "VV Calibration Schema"
      MediaType.XML calibration_description ["metadata"]);
   ("schema-noise-hh", AssetDefinition "HH Noise Schema"
      MediaType.XML noise_description ["metadata"]);
   ("schema-noise-hv", AssetDefinition "HV Noise Schema"
      MediaType.XML noise_description ["metadata"]);
   ("schema-noise-vh", AssetDefinition "VH Noise Schema"
      MediaType.XML noise_description ["metadata"]);
   ("schema-noise-vv", AssetDefinition "VV Noise Schema"
      MediaType.XML noise_description ["metadata"]);
   ("schema-product-hh", AssetDefinition "HH Product Schema"
      MediaType.XML product_description ["metadata"]);
   ("schema-product-hv", AssetDefinition "HV Product Schema"
      MediaType.XML product_description ["metadata"]);
   ("schema-product-vh", AssetDefinition "VH Product Schema"
      MediaType.XML product_description ["metadata"]);
   ("schema-product-vv", AssetDefinition "VV Product Schema"
      MediaType.XML product_description ["metadata"]);
   ("safe-manifest", AssetDefinition "Manifest File"
      MediaType.XML manifest_description ["metadata"]);
   ("thumbnail", AssetDefinition "Preview Image"
      MediaType.PNG thumbnail_description ["thumbnail"])].

(** The namespace [c] once constants.py has been imported: the names of
    the parent package's constants and the ones defined above.  (The
    timing constants [SENTINEL_SLC_IW_*] and [SENTINEL_SLC_EW_*] at the
    end of the file are not read by stac.py.) *)
Definition module (p : sentinel1_constants.t) : c.t :=
  c.mk (sentinel1_constants.SENTINEL_CONSTELLATION p)
       (sentinel1_constants.SENTINEL_PLATFORMS p)
       (sentinel1_constants.SENTINEL_PROVIDER p)
       SENTINEL_SLC_DESCRIPTION
       SENTINEL_SLC_START
       SENTINEL_SLC_EXTENT
       SENTINEL_SLC_TECHNICAL_GUIDE
       SENTINEL_SLC_LICENSE
       SENTINEL_SLC_KEYWORDS
       SENTINEL_SLC_SAT
       SENTINEL_SLC_SAR
       SENTINEL_SLC_ASSETS.

End constants.

(* ================================================================== *)
(** * stac.py *)
(* ================================================================== *)

Section Stac.

Variable E : Externals.

(** ** [create_collection] (lines 33-85) *)

(** [ext.<name> = table[<key>]] on a summaries extension: the value is
    looked up in the constant table and stored as the summary of the
    extension's property *)
Definition summarize (table : c.t -> dict (list Value)) (key prop : string)
    (collection : Collection.t) : M Collection.t :=
  t <- gets table ;;
  v <- getitem key t ;;
  ret (Collection.set_summary prop v collection).

Definition create_collection (json_path : string) : M Collection.t :=
  (* Lists of all possible values for items *)
  constellation <- gets c.SENTINEL_CONSTELLATION ;;
  platforms <- gets c.SENTINEL_PLATFORMS ;;
  let summary_dict :=
    [("constellation", [VStr constellation]);
     ("platform", map VStr platforms)] in
  description <- gets c.SENTINEL_SLC_DESCRIPTION ;;
  extent <- gets c.SENTINEL_SLC_EXTENT ;;
  keywords <- gets c.SENTINEL_SLC_KEYWORDS ;;
  provider <- gets c.SENTINEL_PROVIDER ;;
  let collection :=
    Collection.new "sentinel1-slc" description extent
      (Some "Sentinel-1 SLC") json_path
      [get_schema_uri SarExtension;
       get_schema_uri SatExtension;
       get_schema_uri EOExtension]
      (Some keywords) (Some [provider]) (Summaries summary_dict) in
  (* Links *)
  license <- gets c.SENTINEL_SLC_LICENSE ;;
  let collection := Collection.append_link license collection in
  guide <- gets c.SENTINEL_SLC_TECHNICAL_GUIDE ;;
  let collection := Collection.append_link guide collection in
  (* SAR Extension *)
  let collection := Collection.ext SarExtension collection in
  collection <- summarize c.SENTINEL_SLC_SAR "looks_range" "sar:looks_range" collection ;;
  collection <- summarize c.SENTINEL_SLC_SAR "product_type" "sar:product_type" collection ;;
  collection <- summarize c.SENTINEL_SLC_SAR "looks_azimuth" "sar:looks_azimuth" collection ;;
  collection <- summarize c.SENTINEL_SLC_SAR "polarizations" "sar:polarizations" collection ;;
  collection <- summarize c.SENTINEL_SLC_SAR "frequency_band" "sar:frequency_band" collection ;;
  collection <- summarize c.SENTINEL_SLC_SAR "instrument_mode" "sar:instrument_mode" collection ;;
  collection <- summarize c.SENTINEL_SLC_SAR "center_frequency" "sar:center_frequency" collection ;;
  collection <- summarize c.SENTINEL_SLC_SAR "resolution_range" "sar:resolution_range" collection ;;
  collection <- summarize c.SENTINEL_SLC_SAR "resolution_azimuth" "sar:resolution_azimuth" collection ;;
  collection <- summarize c.SENTINEL_SLC_SAR "pixel_spacing_range" "sar:pixel_spacing_range" collection ;;
  collection <- summarize c.SENTINEL_SLC_SAR "observation_direction" "sar:observation_direction" collection ;;
  collection <- summarize c.SENTINEL_SLC_SAR "pixel_spacing_azimuth" "sar:pixel_spacing_azimuth" collection ;;
  collection <- summarize c.SENTINEL_SLC_SAR "looks_equivalent_number" "sar:looks_equivalent_number" collection ;;
  (* Satellite Extension *)
  let collection := Collection.ext SatExtension collection in
  collection <- summarize c.SENTINEL_SLC_SAT "orbit_state" "sat:orbit_state" collection ;;
  (* Item Asset Extension *)
  let collection := Collection.ext ItemAssetsExtension collection in
  item_assets <- gets c.SENTINEL_SLC_ASSETS ;;
  let collection :=
    Collection.set_extra_field "item_assets"
      (VDict (map (fun kd => (fst kd, VDict (snd kd))) item_assets))
      collection in
  ret collection.

(** ** [create_item] (lines 88-254) *)

(** [scene_id[:-5]] and [pystac.Item(...)] (lines 124-137) *)
Definition new_item (product_metadata : SLCProductMetadata.t)
    (scene_id : string) : M Item.t :=
  (* Remove the last segment of the scene id so the same scene
     reprocessed at different times will have the same Item ID *)
  let item_id := slice_to_neg 5 scene_id in
  geometry <- call (SLCProductMetadata.geometry product_metadata) ;;
  bbox <- call (SLCProductMetadata.bbox product_metadata) ;;
  datetime <- call (SLCProductMetadata.get_datetime product_metadata) ;;
  lift (Item.new item_id geometry bbox (Some datetime) [] []).

(** a filler at work on the item's properties *)
Definition fill (ws : Writes) (item : Item.t) : Item.t :=
  Item.with_properties (apply_writes ws (Item.properties item)) item.

Definition floats_of_value (v : Value) : option (list float) :=
  match v with
  | VList l =>
      fold_right
        (fun x acc =>
           match x, acc with
           | VFloat f, Some r => Some (f :: r)
           | _, _ => None
           end)
        (Some []) l
  | _ => None
  end.

(** the getter [projection.bbox] *)
Definition projection_bbox (item : Item.t) : option (list float) :=
  match dict_get "proj:bbox" (Item.properties item) with
  | Some v => floats_of_value v
  | None => None
  end.

(** the extensions (lines 139-165) *)
Definition add_extensions (metalinks : SLCMetadataLinks.t)
    (product_metadata : SLCProductMetadata.t)
    (read_href_modifier : option ReadHrefModifier) (kwargs : dict Value)
    (item : Item.t) : M Item.t :=
  (* SAR Extension *)
  let item := Item.ext SarExtension item in
  ws <- call (fill_common_sar_properties E (SLCMetadataLinks.manifest metalinks)) ;;
  let item := fill ws item in
  (* Satellite Extension *)
  let item := Item.ext SatExtension item in
  ws <- call (fill_sat_properties E (SLCMetadataLinks.manifest metalinks)) ;;
  let item := fill ws item in
  (* eo *)
  let item := Item.ext EOExtension item in
  (* processing *)
  ws <- call (fill_processing_properties E (SLCMetadataLinks.manifest metalinks)) ;;
  let item := fill ws item in
  (* Projection Extension *)
  let item := Item.ext ProjectionExtension item in
  let item := Item.set_property "proj:epsg" (Some (VInt 4326)) item in
  bbox <- call (SLCProductMetadata.bbox product_metadata) ;;
  let item := Item.set_property "proj:bbox" (Some (VList (map VFloat bbox))) item in
  shape <- call (get_shape E metalinks read_href_modifier kwargs) ;;
  let item := Item.set_property "proj:shape" (Some (VList (map VInt shape))) item in
  transform <- call (transform_from_bbox E (projection_bbox item) shape) ;;
  let item := Item.set_property "proj:transform" (Some (VList (map VFloat transform))) item in
  '(x, y) <- call (centroid E (Item.geometry item)) ;;
  let item :=
    Item.set_property "proj:centroid"
      (Some (VDict [("lat", VFloat (round E y 5)); ("lon", VFloat (round E x 5))]))
      item in
  ret item.

(** the common metadata (lines 167-174) *)
Definition add_common_metadata (product_metadata : SLCProductMetadata.t)
    (item : Item.t) : M Item.t :=
  provider <- gets c.SENTINEL_PROVIDER ;;
  let item :=
    Item.set_property "providers"
      (Some (VList (map Provider.to_dict [provider]))) item in
  platform <- call (SLCProductMetadata.platform product_metadata) ;;
  let item :=
    Item.set_property "platform"
      (if truthy platform then option_map (fun p => VStr (lower p)) platform
       else option_map VStr platform)
      item in
  constellation <- gets c.SENTINEL_CONSTELLATION ;;
  let item := Item.set_property "constellation" (Some (VStr constellation)) item in
  ret item.

(** the s1 properties (lines 176-183) *)
Definition add_s1_properties (metalinks : SLCMetadataLinks.t)
    (product_metadata : SLCProductMetadata.t) (scene_id : string)
    (item : Item.t) : M Item.t :=
  metadata_dict <- call (SLCProductMetadata.metadata_dict product_metadata) ;;
  let item :=
    Item.with_properties (dict_update metadata_dict (Item.properties item)) item in
  let item :=
    Item.with_properties
      (dict_set "s1:product_identifier" (VStr scene_id) (Item.properties item))
      item in
  let pdt :=
    find_attr E (SLCMetadataLinks.manifest metalinks)
      "stop" ".//safe:processing[@name='SLC Post Processing']" in
  let item :=
    if truthy pdt
    then Item.with_properties
           (dict_set "s1:processing_datetime" (VStr (format_opt pdt ++ "Z"))
              (Item.properties item))
           item
    else item in
  ret item.

Definition add_assets (assets : list (string * Asset.t)) (item : Item.t)
  : Item.t :=
  fold_left (fun it asset_obj => Item.add_asset (fst asset_obj) (snd asset_obj) it)
    assets item.

Definition thumbnail_asset (href : string) : Asset.t :=
  Asset.mk href (Some "Preview Image")
    (Some constants.thumbnail_description)
    (Some MediaType.PNG) (Some ["thumbnail"]) [] None.

(** the metadata assets and the thumbnail (lines 185-221) *)
Definition add_metadata_assets (metalinks : SLCMetadataLinks.t)
    (item : Item.t) : M Item.t :=
  (* Add assets to item *)
  '(key, asset) <- call (SLCMetadataLinks.create_manifest_asset metalinks) ;;
  let item := Item.add_asset key asset item in
  (* Annotations for bands *)
  assets <- call (SLCMetadataLinks.create_product_asset metalinks) ;;
  let item := add_assets assets item in
  (* Calibrations for bands *)
  assets <- call (SLCMetadataLinks.create_calibration_asset metalinks) ;;
  let item := add_assets assets item in
  (* Noise for bands *)
  assets <- call (SLCMetadataLinks.create_noise_asset metalinks) ;;
  let item := add_assets assets item in
  (* Thumbnail *)
  let item :=
    match SLCMetadataLinks.thumbnail_href metalinks with
    | Some href => Item.add_asset "thumbnail" (thumbnail_asset href) item
    | None => item
    end in
  ret item.

(** lines 124-221: the item before the image assets are added *)
Definition build_item (metalinks : SLCMetadataLinks.t)
    (product_metadata : SLCProductMetadata.t)
    (read_href_modifier : option ReadHrefModifier) (kwargs : dict Value)
  : M Item.t :=
  scene_id <- call (SLCProductMetadata.scene_id product_metadata) ;;
  item <- new_item product_metadata scene_id ;;
  item <- add_extensions metalinks product_metadata read_href_modifier kwargs item ;;
  item <- add_common_metadata product_metadata item ;;
  item <- add_s1_properties metalinks product_metadata scene_id item ;;
  add_metadata_assets metalinks item.

(** lines 223-227 *)
Definition images_media_type (archive_format : Format.t)
  : option MediaType.t :=
  if Format.eqb archive_format Format.SAFE then Some MediaType.GEOTIFF
  else if Format.eqb archive_format Format.COG then Some MediaType.COG
  else None.

(** lines 229-239 *)
Definition image_assets (granule_href : string) (item : Item.t)
    (media_type : option MediaType.t) (image_paths : list string)
  : M (dict Asset.t) :=
  pairs <- comprehension
             (fun image_path =>
                call (image_asset_from_href E
                        (os_path_join granule_href image_path)
                        item media_type true))
             image_paths ;;
  ret (dict_of_pairs pairs).

(** the body of the loop over the image assets (lines 242-248); the
    asset stored in the item and the one the filler writes to are the
    same object *)
Definition add_image_asset (asset : Asset.t) (item : Item.t) : M Item.t :=
  props <- call (extract_properties E (Asset.href asset) ["polarisation"; "swath"]) ;;
  match props with
  | [polarisation; swath] =>
      let key := (swath ++ "-" ++ polarisation)%string in
      if dict_contains key (Item.assets item) then raise AssertionError
      else
        let item := Item.add_asset key asset item in
        let asset := Asset.set_owner (Item.id item) asset in
        let item := Item.ext AssetSarExtension item in
        ws <- call (fill_swath_sar_properties E (upper swath) (upper polarisation)) ;;
        let asset :=
          Asset.set_extra_fields (apply_writes ws (Asset.extra_fields asset))
            asset in
        ret (Item.with_assets (dict_set key asset (Item.assets item)) item)
  | _ => raise (ValueError "cannot unpack the extracted properties into (polarisation, swath)")
  end.

Definition create_item (granule_href : string)
    (read_href_modifier : option ReadHrefModifier)
    (archive_format : Format.t) (kwargs : dict Value) : M Item.t :=
  metalinks <- call (new_SLCMetadataLinks E granule_href read_href_modifier
                       archive_format kwargs) ;;
  product_metadata <-
    call (new_SLCProductMetadata E
            (SLCMetadataLinks.product_metadata_href metalinks)
            (SLCMetadataLinks.grouped_hrefs metalinks)
            (SLCMetadataLinks.map_filename metalinks)
            (SLCMetadataLinks.manifest metalinks)) ;;
  item <- build_item metalinks product_metadata read_href_modifier kwargs ;;
  let media_type := images_media_type archive_format in
  image_paths <- call (SLCProductMetadata.image_paths product_metadata) ;;
  assets <- image_assets granule_href item media_type image_paths ;;
  item <- for_each add_image_asset (dict_values assets) item ;;
  (* --Links-- *)
  license <- gets c.SENTINEL_SLC_LICENSE ;;
  let item := Item.with_links (Item.links item ++ [license]) item in
  guide <- gets c.SENTINEL_SLC_TECHNICAL_GUIDE ;;
  let item := Item.with_links (Item.links item ++ [guide]) item in
  ret item.

End Stac.

(* ================================================================== *)
(** * What a run obtains from the helpers, and what it builds from it *)
(* ================================================================== *)

(** The values that the required calls of [create_item] return up to the
    point where the image assets are added (lines 110-221). *)
Record Extracted := mk_extracted
  { x_scene_id : string;
    x_geometry : Value;
    x_bbox : list float;
    x_datetime : datetime;
    x_sar : Writes;
    x_sat : Writes;
    x_processing : Writes;
    x_shape : list Z;
    x_transform : list float;
    x_centroid : float * float;
    x_platform : option string;
    x_metadata_dict : dict Value;
    x_manifest_asset : string * Asset.t;
    x_product_assets : list (string * Asset.t);
    x_calibration_assets : list (string * Asset.t);
    x_noise_assets : list (string * Asset.t) }.

(** What one turn of the loop over the image assets works with. *)
Record Band := mk_band
  { b_asset : Asset.t;
    b_polarisation : string;
    b_swath : string;
    b_writes : Writes }.

Definition band_key (b : Band) : string :=
  b_swath b ++ "-" ++ b_polarisation b.


Definition post_processing_xpath : string :=
  ".//safe:processing[@name='SLC Post Processing']".




Section Vocabulary.

Variable E : Externals.

(** every required call returns, with the values [x] *)
Definition extracted (metalinks : SLCMetadataLinks.t)
    (product_metadata : SLCProductMetadata.t)
    (read_href_modifier : option ReadHrefModifier) (kwargs : dict Value)
    (x : Extracted) : Prop :=
  SLCProductMetadata.scene_id product_metadata = Returns (x_scene_id x)
  /\ SLCProductMetadata.geometry product_metadata = Returns (x_geometry x)
  /\ SLCProductMetadata.bbox product_metadata = Returns (x_bbox x)
  /\ SLCProductMetadata.get_datetime product_metadata = Returns (x_datetime x)
  /\ fill_common_sar_properties E (SLCMetadataLinks.manifest metalinks)
     = Returns (x_sar x)
  /\ fill_sat_properties E (SLCMetadataLinks.manifest metalinks)
     = Returns (x_sat x)
  /\ fill_processing_properties E (SLCMetadataLinks.manifest metalinks)
     = Returns (x_processing x)
  /\ get_shape E metalinks read_href_modifier kwargs = Returns (x_shape x)
  /\ transform_from_bbox E (Some (x_bbox x)) (x_shape x)
     = Returns (x_transform x)
  /\ centroid E (x_geometry x) = Returns (x_centroid x)
  /\ SLCProductMetadata.platform product_metadata = Returns (x_platform x)
  /\ SLCProductMetadata.metadata_dict product_metadata
     = Returns (x_metadata_dict x)
  /\ SLCMetadataLinks.create_manifest_asset metalinks
     = Returns (x_manifest_asset x)
  /\ SLCMetadataLinks.create_product_asset metalinks
     = Returns (x_product_assets x)
  /\ SLCMetadataLinks.create_calibration_asset metalinks
     = Returns (x_calibration_assets x)
  /\ SLCMetadataLinks.create_noise_asset metalinks
     = Returns (x_noise_assets x).

(** the optional stop time of the post-processing record *)
Definition processing_stop (metalinks : SLCMetadataLinks.t) : option string :=
  find_attr E (SLCMetadataLinks.manifest metalinks) "stop" post_processing_xpath.

(** the assignments to [item.properties] that lines 139-183 perform, in
    order *)
Definition property_log (s : c.t) (metalinks : SLCMetadataLinks.t)
    (x : Extracted) : Writes :=
  x_sar x ++ x_sat x ++ x_processing x
  ++ [("proj:epsg", Some (VInt 4326));
      ("proj:bbox", Some (VList (map VFloat (x_bbox x))));
      ("proj:shape", Some (VList (map VInt (x_shape x))));
      ("proj:transform", Some (VList (map VFloat (x_transform x))));
      ("proj:centroid",
        Some (VDict [("lat", VFloat (round E (snd (x_centroid x)) 5));
                     ("lon", VFloat (round E (fst (x_centroid x)) 5))]));
      ("providers", Some (VList [Provider.to_dict (c.SENTINEL_PROVIDER s)]));
      ("platform", option_map (fun p => VStr (lower p)) (x_platform x));
      ("constellation", Some (VStr (c.SENTINEL_CONSTELLATION s)))]
  ++ map (fun kv => (fst kv, Some (snd kv))) (x_metadata_dict x)
  ++ [("s1:product_identifier", Some (VStr (x_scene_id x)))]
  ++ (if truthy (processing_stop metalinks)
      then [("s1:processing_datetime",
             Some (VStr (format_opt (processing_stop metalinks) ++ "Z")))]
      else []).

(** the item as lines 124-221 leave it when every call returns: the
    assignments of [build_item], with the values [x] in place of the
    calls *)
Definition built_item (s : c.t) (metalinks : SLCMetadataLinks.t)
    (x : Extracted) : Item.t :=
  let item :=
    Item.mk (slice_to_neg 5 (x_scene_id x)) (x_geometry x) (x_bbox x)
      (Some (x_datetime x)) [] [] [] [] in
  let item := fill (x_sar x) (Item.ext SarExtension item) in
  let item := fill (x_sat x) (Item.ext SatExtension item) in
  let item := fill (x_processing x) (Item.ext EOExtension item) in
  let item := Item.ext ProjectionExtension item in
  let item := Item.set_property "proj:epsg" (Some (VInt 4326)) item in
  let item :=
    Item.set_property "proj:bbox" (Some (VList (map VFloat (x_bbox x)))) item in
  let item :=
    Item.set_property "proj:shape" (Some (VList (map VInt (x_shape x)))) item in
  let item :=
    Item.set_property "proj:transform"
      (Some (VList (map VFloat (x_transform x)))) item in
  let item :=
    Item.set_property "proj:centroid"
      (Some (VDict [("lat", VFloat (round E (snd (x_centroid x)) 5));
                    ("lon", VFloat (round E (fst (x_centroid x)) 5))]))
      item in
  let item :=
    Item.set_property "providers"
      (Some (VList (map Provider.to_dict [c.SENTINEL_PROVIDER s]))) item in
  let item :=
    Item.set_property "platform"
      (if truthy (x_platform x)
       then option_map (fun p => VStr (lower p)) (x_platform x)
       else option_map VStr (x_platform x))
      item in
  let item :=
    Item.set_property "constellation"
      (Some (VStr (c.SENTINEL_CONSTELLATION s))) item in
  let item :=
    Item.with_properties
      (dict_update (x_metadata_dict x) (Item.properties item)) item in
  let item :=
    Item.with_properties
      (dict_set "s1:product_identifier" (VStr (x_scene_id x))
         (Item.properties item))
      item in
  let item :=
    if truthy (processing_stop metalinks)
    then Item.with_properties
           (dict_set "s1:processing_datetime"
              (VStr (format_opt (processing_stop metalinks) ++ "Z"))
              (Item.properties item))
           item
    else item in
  let item :=
    Item.add_asset (fst (x_manifest_asset x)) (snd (x_manifest_asset x)) item in
  let item := add_assets (x_product_assets x) item in
  let item := add_assets (x_calibration_assets x) item in
  let item := add_assets (x_noise_assets x) item in
  match SLCMetadataLinks.thumbnail_href metalinks with
  | Some href => Item.add_asset "thumbnail" (thumbnail_asset href) item
  | None => item
  end.

(** the helper's answer for each image path *)
Definition image_assets_named (granule_href : string) (item : Item.t)
    (archive_format : Format.t) (image_paths : list string)
    (named : list (string * Asset.t)) : Prop :=
  Forall2
    (fun image_path ka =>
       image_asset_from_href E (os_path_join granule_href image_path) item
         (images_media_type archive_format) true = Returns ka)
    image_paths named.

(** the swath and polarisation extracted for an image asset *)
Definition band_extracted (b : Band) : Prop :=
  extract_properties E (Asset.href (b_asset b)) ["polarisation"; "swath"]
  = Returns [b_polarisation b; b_swath b].

(** the swath filler's assignments for an image asset *)
Definition band_filled (b : Band) : Prop :=
  fill_swath_sar_properties E (upper (b_swath b)) (upper (b_polarisation b))
  = Returns (b_writes b).

(** the asset as the loop leaves it in the item *)
Definition band_asset (item_id : string) (b : Band) : Asset.t :=
  Asset.set_extra_fields
    (apply_writes (b_writes b) (Asset.extra_fields (b_asset b)))
    (Asset.set_owner item_id (b_asset b)).

(** one turn of the loop, and the loop, when nothing raises *)
Definition with_band (item : Item.t) (b : Band) : Item.t :=
  let item := Item.add_asset (band_key b) (b_asset b) item in
  let item := Item.ext AssetSarExtension item in
  Item.with_assets
    (dict_set (band_key b) (band_asset (Item.id item) b) (Item.assets item))
    item.

Definition with_bands (bands : list Band) (item : Item.t) : Item.t :=
  fold_left with_band bands item.

(** lines 250-252 *)
Definition with_slc_links (s : c.t) (item : Item.t) : Item.t :=
  let item :=
    Item.with_links (Item.links item ++ [c.SENTINEL_SLC_LICENSE s]) item in
  Item.with_links (Item.links item ++ [c.SENTINEL_SLC_TECHNICAL_GUIDE s]) item.

(** Everything [create_item] requires is there: the helpers return, the
    image assets yield a swath and a polarisation each, and the asset
    keys built from them are new to the item. *)
Definition well_formed (granule_href : string)
    (read_href_modifier : option ReadHrefModifier)
    (archive_format : Format.t) (kwargs : dict Value) (s : c.t)
    (metalinks : SLCMetadataLinks.t)
    (product_metadata : SLCProductMetadata.t)
    (x : Extracted) (image_paths : list string)
    (named : list (string * Asset.t)) (bands : list Band) : Prop :=
  new_SLCMetadataLinks E granule_href read_href_modifier archive_format kwargs
  = Returns metalinks
  /\ new_SLCProductMetadata E
       (SLCMetadataLinks.product_metadata_href metalinks)
       (SLCMetadataLinks.grouped_hrefs metalinks)
       (SLCMetadataLinks.map_filename metalinks)
       (SLCMetadataLinks.manifest metalinks)
     = Returns product_metadata
  /\ extracted metalinks product_metadata read_href_modifier kwargs x
  /\ SLCProductMetadata.image_paths product_metadata = Returns image_paths
  /\ image_assets_named granule_href (built_item s metalinks x)
       archive_format image_paths named
  /\ map b_asset bands = dict_values (dict_of_pairs named)
  /\ Forall band_extracted bands
  /\ Forall band_filled bands
  /\ NoDup (map band_key bands)
  /\ (forall b, In b bands ->
        dict_contains (band_key b) (Item.assets (built_item s metalinks x))
        = false).

End Vocabulary.

(* ================================================================== *)
(** * Further vocabulary for the two functions *)
(* ================================================================== *)

(** The description of the thumbnail asset as stac.py spells it
    (lines 204-211). *)
Definition stac_thumbnail_description : string :=
  "An averaged, decimated preview image in PNG format. Single polarization "
  ++ "products are represented with a grey scale image. Dual polarization products "
  ++ "are represented by a single composite colour image in RGB with the red channel "
  ++ "(R) representing the  co-polarization VV or HH), the green channel (G) "
  ++ "represents the cross-polarization (VH or HV) and the blue channel (B) "
  ++ "represents the ratio of the cross an co-polarizations.".

(** The value that a sequence of (key, value) pairs gives a key last. *)
Fixpoint last_binding {V} (k : string) (pairs : list (string * V)) : option V :=
  match pairs with
  | [] => None
  | (k', v) :: r =>
      match last_binding k r with
      | Some w => Some w
      | None => if String.eqb k k' then Some v else None
      end
  end.

(** The keys of [c.SENTINEL_SLC_SAR] that [create_collection] subscripts,
    in the order of lines 63-75. *)
Definition sar_keys_read : list string :=
  ["looks_range"; "product_type"; "looks_azimuth"; "polarizations";
   "frequency_band"; "instrument_mode"; "center_frequency";
   "resolution_range"; "resolution_azimuth"; "pixel_spacing_range";
   "observation_direction"; "pixel_spacing_azimuth";
   "looks_equivalent_number"].

(** The first key of a list that a dictionary lacks. *)
Definition first_missing {V} (keys : list string) (d : dict V) : option string :=
  find (fun k => negb (dict_contains k d)) keys.

(** Two states of the constants module that agree on what [create_item]
    reads: the provider, the constellation and the two links. *)
Definition agree_for_items (s1 s2 : c.t) : Prop :=
  c.SENTINEL_PROVIDER s1 = c.SENTINEL_PROVIDER s2
  /\ c.SENTINEL_CONSTELLATION s1 = c.SENTINEL_CONSTELLATION s2
  /\ c.SENTINEL_SLC_LICENSE s1 = c.SENTINEL_SLC_LICENSE s2
  /\ c.SENTINEL_SLC_TECHNICAL_GUIDE s1 = c.SENTINEL_SLC_TECHNICAL_GUIDE s2.

(** A computation whose result depends on the constants module only
    through what [create_item] reads. *)
Definition reads_item_constants {A} (m : M A) : Prop :=
  forall s1 s2, agree_for_items s1 s2 -> run m s1 = run m s2.

(** Every asset of a dictionary is owned by the item [item_id]. *)
Definition all_owned_by (item_id : string) (assets : dict Asset.t) : Prop :=
  forall k a, dict_get k assets = Some a -> Asset.owner a = Some item_id.

(* ================================================================== *)
(** * A small product family to run the code on *)
(* ================================================================== *)

(** Three granules in the layout of a Sentinel-1 IW SLC product with the
    polarisations VV and VH of one swath: a complete one, the same scene
    processed a second time, and one whose manifest names no platform, has
    no post-processing record and that comes without a preview image.
    The helpers are simple stand-ins that read these granules. *)
Module Fixture.

Fixpoint prefix (p s : string) : bool :=
  match p, s with
  | EmptyString, _ => true
  | String a p', String b s' => Ascii.eqb a b && prefix p' s'
  | String _ _, EmptyString => false
  end.

Fixpoint contains_sub (p s : string) : bool :=
  prefix p s
  || match s with
     | EmptyString => false
     | String _ r => contains_sub p r
     end.

Fixpoint before_dot (s : string) : string :=
  match s with
  | EmptyString => EmptyString
  | String ch r => if Ascii.eqb ch "."%char then EmptyString
                   else String ch (before_dot r)
  end.

Definition granule_A : string :=
  "S1A_IW_SLC__1SDV_20150305T051937_20150305T052005_004892_006196_ABBB.SAFE".
Definition granule_B : string :=
  "S1A_IW_SLC__1SDV_20150305T051937_20150305T052005_004892_006196_72F1.SAFE".
Definition granule_C : string :=
  "S1A_IW_SLC__1SDV_20160101T000000_20160101T000027_009300_00D6F0_0001.SAFE".

(** a granule that lists two measurement files of the same swath and
    polarisation *)
Definition granule_D : string :=
  "S1A_IW_SLC__1SDV_20170101T000000_20170101T000027_014600_017C00_0002.SAFE".

Definition processing (name stop : string) : XmlElement :=
  Element "safe:processing" [("name", name); ("stop", stop)] None [].

Definition platform_element (family number : string) : XmlElement :=
  Element "safe:platform" []  None
    [Element "safe:familyName" [] (Some family) [];
     Element "safe:number" [] (Some number) []].

Definition manifest_full : XmlElement :=
  Element "xfdu:XFDU" [] None
    [processing "SLC Processing" "2015-03-05T08:00:00.000000";
     processing "SLC Post Processing" "2015-03-05T08:41:57.398823";
     platform_element "SENTINEL-1" "A"].

Definition manifest_bare : XmlElement :=
  Element "xfdu:XFDU" [] None
    [processing "SLC Processing" "2016-01-01T03:00:00.000000"].

Definition children_of (x : XmlElement) : list XmlElement :=
  match x with Element _ _ _ ch => ch end.

Definition attrib_of (x : XmlElement) : list (string * string) :=
  match x with Element _ a _ _ => a end.

Definition tag_of (x : XmlElement) : string :=
  match x with Element t _ _ _ => t end.

Definition text_of (x : XmlElement) : option string :=
  match x with Element _ _ t _ => t end.

(** the attribute [attr] of the first [safe:processing] child named
    ['SLC Post Processing'], for the one XPath stac.py uses *)
Definition find_attr (m : XmlElement) (attr xpath : string) : option string :=
  if String.eqb xpath ".//safe:processing[@name='SLC Post Processing']" then
    match
      filter (fun x => String.eqb (tag_of x) "safe:processing"
                       && match dict_get "name" (attrib_of x) with
                          | Some n => String.eqb n "SLC Post Processing"
                          | None => false
                          end)
             (children_of m)
    with
    | x :: _ => dict_get attr (attrib_of x)
    | [] => None
    end
  else None.

Definition platform_of (m : XmlElement) : option string :=
  match filter (fun x => String.eqb (tag_of x) "safe:platform") (children_of m) with
  | Element _ _ _ [f; n] :: _ =>
      match text_of f, text_of n with
      | Some a, Some b => Some (a ++ b)%string
      | _, _ => None
      end
  | _ => None
  end.

Definition xml_asset (href title : string) : Asset.t :=
  Asset.mk href (Some title) None (Some MediaType.XML) (Some ["metadata"]) [] None.

Definition metalinks (granule : string) (m : XmlElement)
    (thumb : option string) : SLCMetadataLinks.t :=
  SLCMetadataLinks.mk
    (os_path_join granule "manifest.safe")
    (VDict [("iw1", VList [VStr "vv"; VStr "vh"])])
    (fun f => f)
    m
    thumb
    (Returns ("safe-manifest",
              xml_asset (os_path_join granule "manifest.safe") "Manifest File"))
    (Returns [("schema-product-iw1-vv",
               xml_asset (os_path_join granule "annotation/iw1-vv.xml") "VV Product Schema");
              ("schema-product-iw1-vh",
               xml_asset (os_path_join granule "annotation/iw1-vh.xml") "VH Product Schema")])
    (Returns [("schema-calibration-iw1-vv",
               xml_asset (os_path_join granule "annotation/calibration/calibration-iw1-vv.xml")
                 "VV Calibration Schema")])
    (Returns [("schema-noise-iw1-vv",
               xml_asset (os_path_join granule "annotation/calibration/noise-iw1-vv.xml")
                 "VV Noise Schema")]).

Definition new_SLCMetadataLinks (granule : string)
    (_ : option ReadHrefModifier) (_ : Format.t) (_ : dict Value)
  : Outcome SLCMetadataLinks.t :=
  if String.eqb granule granule_A then
    Returns (metalinks granule manifest_full
               (Some (os_path_join granule "preview/quick-look.png")))
  else if String.eqb granule granule_B then
    Returns (metalinks granule manifest_full
               (Some (os_path_join granule "preview/quick-look.png")))
  else if String.eqb granule granule_C then
    Returns (metalinks granule manifest_bare None)
  else if String.eqb granule granule_D then
    Returns (metalinks granule manifest_full None)
  else Raises "FileNotFoundError".

Definition footprint : Value :=
  VDict [("type", VStr "Polygon");
         ("coordinates",
           VList [VList [VList [VFloat (Dec 100 (-1)); VFloat (Dec 400 (-1))];
                         VList [VFloat (Dec 120 (-1)); VFloat (Dec 400 (-1))];
                         VList [VFloat (Dec 120 (-1)); VFloat (Dec 420 (-1))];
                         VList [VFloat (Dec 100 (-1)); VFloat (Dec 420 (-1))];
                         VList [VFloat (Dec 100 (-1)); VFloat (Dec 400 (-1))]]])].

Definition footprint_bbox : list float :=
  [Dec 100 (-1); Dec 400 (-1); Dec 120 (-1); Dec 420 (-1)].

Definition image_paths : list string :=
  ["measurement/s1a-iw1-slc-vv-20150305t051939-20150305t052005-004892-006196-001.tiff";
   "measurement/s1a-iw1-slc-vh-20150305t051939-20150305t052005-004892-006196-002.tiff"].

Definition image_paths_twice : list string :=
  ["measurement/s1a-iw1-slc-vv-20170101t000000-20170101t000027-014600-017c00-001.tiff";
   "measurement/s1a-iw1-slc-vv-20170101t000000-20170101t000027-014600-017c00-004.tiff"].

Definition metadata_dict : dict Value :=
  [("start_datetime", VStr "2015-03-05T05:19:37Z");
   ("end_datetime", VStr "2015-03-05T05:20:05Z");
   ("s1:datatake_id", VStr "24982")].

Definition product_metadata (href : string) (m : XmlElement)
  : SLCProductMetadata.t :=
  SLCProductMetadata.mk
    (Returns (before_dot href))
    (Returns footprint)
    (Returns footprint_bbox)
    (Returns (mk_datetime 2015 3 5 5 19 51))
    (Returns (platform_of m))
    (Returns metadata_dict)
    (Returns (if prefix granule_D href then image_paths_twice
              else image_paths)).

Definition new_SLCProductMetadata (href : string) (_ : Value)
    (_ : string -> string) (m : XmlElement) : Outcome SLCProductMetadata.t :=
  Returns (product_metadata href m).

Definition first_of (candidates : list string) (s : string) : option string :=
  match filter (fun x => contains_sub ("-" ++ x ++ "-") s) candidates with
  | x :: _ => Some x
  | [] => None
  end.

Definition extract_property (href name : string) : option string :=
  if String.eqb name "polarisation" then first_of ["vv"; "vh"; "hh"; "hv"] href
  else if String.eqb name "swath" then first_of ["iw1"; "iw2"; "iw3"] href
  else None.

Fixpoint extract_properties (href : string) (names : list string)
  : Outcome (list string) :=
  match names with
  | [] => Returns []
  | n :: r =>
      match extract_property href n, extract_properties href r with
      | Some v, Returns vs => Returns (v :: vs)
      | None, _ => Raises "ValueError"
      | _, Raises e => Raises e
      end
  end.

Definition image_asset_from_href (href : string) (_ : Item.t)
    (media_type : option MediaType.t) (slc_swaths : bool)
  : Outcome (string * Asset.t) :=
  match extract_properties href ["swath"; "polarisation"] with
  | Returns [swath; pol] =>
      Returns ((if slc_swaths then swath ++ "_" ++ pol else pol)%string,
               Asset.mk href (Some (upper pol ++ " Data")%string) None media_type
                 (Some ["data"]) [] None)
  | _ => Raises "ValueError"
  end.

Definition sar_writes (_ : XmlElement) : Outcome Writes :=
  Returns [("sar:frequency_band", Some (VStr "C"));
           ("sar:center_frequency", Some (VFloat (Dec 5405 (-3))));
           ("sar:instrument_mode", Some (VStr "IW"));
           ("sar:product_type", Some (VStr "SLC"))].

Definition sat_writes (_ : XmlElement) : Outcome Writes :=
  Returns [("sat:orbit_state", Some (VStr "ascending"));
           ("sat:absolute_orbit", Some (VInt 4892))].

Definition processing_writes (_ : XmlElement) : Outcome Writes :=
  Returns [("processing:level", Some (VStr "L1"))].

Definition swath_writes (swath pol : string) : Outcome Writes :=
  Returns [("sar:instrument_mode", Some (VStr swath));
           ("sar:polarizations", Some (VList [VStr pol]))].

Definition parent : sentinel1_constants.t :=
  sentinel1_constants.mk "sentinel-1" ["sentinel-1a"; "sentinel-1b"]
    (Provider.mk "ESA" None (Some ["producer"; "processor"; "licensor"])
       (Some "https://earth.esa.int/eogateway")).

Definition externals : Externals :=
  mk_externals parent
    new_SLCMetadataLinks
    new_SLCProductMetadata
    find_attr
    sar_writes sat_writes processing_writes swath_writes
    (fun _ _ _ => Returns [1500; 20000]%Z)
    (fun bbox _ =>
       match bbox with
       | Some _ => Returns [Dec 1 (-4); Dec 0 0; Dec 100 (-1);
                            Dec 0 0; Dec (-1) (-4); Dec 420 (-1)]
       | None => Raises "TypeError"
       end)
    (fun _ => Returns (Dec 1100000 (-5), Dec 4100000 (-5)))
    (fun x _ => x)
    image_asset_from_href
    extract_properties.

(** the same helpers, except that an image asset is named by its href *)
Definition image_asset_by_href (href : string) (item : Item.t)
    (media_type : option MediaType.t) (slc_swaths : bool)
  : Outcome (string * Asset.t) :=
  match image_asset_from_href href item media_type slc_swaths with
  | Returns (_, asset) => Returns (href, asset)
  | Raises e => Raises e
  end.

Definition externals_by_href : Externals :=
  mk_externals parent
    new_SLCMetadataLinks
    new_SLCProductMetadata
    find_attr
    sar_writes sat_writes processing_writes swath_writes
    (get_shape externals)
    (transform_from_bbox externals)
    (centroid externals)
    (round externals)
    image_asset_by_href
    extract_properties.

Definition store : c.t := constants.module parent.

Definition empty_item : Item.t := Item.mk "" VNone [] None [] [] [] [].

Definition item_of (r : Result Item.t) : Item.t :=
  match r with
  | Ok item => item
  | Err _ => empty_item
  end.

(** the items that [create_item] returns for the granules *)
Definition item_A : Item.t :=
  Eval vm_compute in
    item_of (run (create_item externals granule_A None Format.SAFE []) store).

Definition item_B : Item.t :=
  Eval vm_compute in
    item_of (run (create_item externals granule_B None Format.SAFE []) store).

Definition item_C : Item.t :=
  Eval vm_compute in
    item_of (run (create_item externals granule_C None Format.COG []) store).

(** the objects behind these runs *)
Definition metalinks_A : SLCMetadataLinks.t :=
  metalinks granule_A manifest_full
    (Some (os_path_join granule_A "preview/quick-look.png")).

Definition product_metadata_A : SLCProductMetadata.t :=
  product_metadata (os_path_join granule_A "manifest.safe") manifest_full.

Definition metalinks_C : SLCMetadataLinks.t :=
  metalinks granule_C manifest_bare None.

Definition product_metadata_C : SLCProductMetadata.t :=
  product_metadata (os_path_join granule_C "manifest.safe") manifest_bare.



Definition built_A : Item.t :=
  Eval vm_compute in
    item_of (run (build_item externals metalinks_A product_metadata_A None [])
               store).


Definition dict_of (r : Result (dict Asset.t)) : dict Asset.t :=
  match r with
  | Ok d => d
  | Err _ => []
  end.

Definition named_A : list (string * Asset.t) :=
  Eval vm_compute in
    dict_of (run (image_assets externals granule_A built_A
                    (Some MediaType.GEOTIFF) image_paths)
               store).





(** the same helpers, except that only one value is extracted from the
    href of an image asset *)
Definition extract_one_value (href : string) (names : list string)
  : Outcome (list string) :=
  match extract_property href "polarisation" with
  | Some pol => Returns [pol]
  | None => Raises "ValueError"
  end.

Definition externals_one_value : Externals :=
  mk_externals parent
    new_SLCMetadataLinks
    new_SLCProductMetadata
    find_attr
    sar_writes sat_writes processing_writes swath_writes
    (get_shape externals)
    (transform_from_bbox externals)
    (centroid externals)
    (round externals)
    image_asset_from_href
    extract_one_value.

(** the constants module with its three tables emptied *)
Definition store_without_tables : c.t :=
  c.mk (c.SENTINEL_CONSTELLATION store) (c.SENTINEL_PLATFORMS store)
    (c.SENTINEL_PROVIDER store) (c.SENTINEL_SLC_DESCRIPTION store)
    (c.SENTINEL_SLC_START store) (c.SENTINEL_SLC_EXTENT store)
    (c.SENTINEL_SLC_TECHNICAL_GUIDE store) (c.SENTINEL_SLC_LICENSE store)
    (c.SENTINEL_SLC_KEYWORDS store) [] [] [].

Definition empty_collection : Collection.t :=
  Collection.mk "" "" (Extent.mk [] []) None [] None None [] [] [].

Definition collection_of (r : Result Collection.t) : Collection.t :=
  match r with
  | Ok collection => collection
  | Err _ => empty_collection
  end.

(** the collections that [create_collection] returns for two paths *)
Definition collection_1 : Collection.t :=
  Eval vm_compute in
    collection_of (run (create_collection "collection.json") store).

Definition collection_2 : Collection.t :=
  Eval vm_compute in
    collection_of (run (create_collection "catalog/slc/collection.json") store).

End Fixture.

(* ================================================================== *)
(** * Objects with identity *)
(* ================================================================== *)

(** In the embedding above the item is a value that each step hands on.
    In Python the item, its assets, the collection and the [Link],
    [Provider] and [Extent] objects of the constants module are objects
    with identity: a variable holds a reference, an assignment to an
    attribute is seen through every reference, and a module-level object
    appended to [item.links] is shared, not copied.  This part keeps such
    objects in a store and runs stac.py on references.  Lists and
    dictionaries of plain data (property dictionaries, keywords, the
    tables of constants.py) stay values: neither function updates one of
    them in place other than through the object that owns it. *)

Module Obj.

(** a reference to an object of the store *)
Definition ref := nat.

(** [pystac.Asset]; [owner] refers to the item *)
Module Asset.
Record t := mk
  { href : string;
    title : option string;
    description : option string;
    media_type : option MediaType.t;
    roles : option (list string);
    extra_fields : dict Value;
    owner : option ref }.

Definition set_owner (o : ref) (a : t) : t :=
  mk (href a) (title a) (description a) (media_type a) (roles a)
     (extra_fields a) (Some o).

Definition set_extra_fields (f : dict Value) (a : t) : t :=
  mk (href a) (title a) (description a) (media_type a) (roles a)
     f (owner a).
End Asset.

(** [pystac.Item]; [assets] and [links] hold references *)
Module Item.
Record t := mk
  { id : string;
    geometry : Value;
    bbox : list float;
    datetime_ : option datetime;
    properties : dict Value;
    stac_extensions : list string;
    assets : dict ref;
    links : list ref }.

Definition with_properties (p : dict Value) (i : t) : t :=
  mk (id i) (geometry i) (bbox i) (datetime_ i) p (stac_extensions i)
     (assets i) (links i).

Definition with_stac_extensions (e : list string) (i : t) : t :=
  mk (id i) (geometry i) (bbox i) (datetime_ i) (properties i) e
     (assets i) (links i).

Definition with_assets (a : dict ref) (i : t) : t :=
  mk (id i) (geometry i) (bbox i) (datetime_ i) (properties i)
     (stac_extensions i) a (links i).

Definition with_links (l : list ref) (i : t) : t :=
  mk (id i) (geometry i) (bbox i) (datetime_ i) (properties i)
     (stac_extensions i) (assets i) l.
End Item.

(** [pystac.Collection]; [extent], [providers] and [links] hold
    references *)
Module Collection.
Record t := mk
  { id : string;
    description : string;
    extent : ref;
    title : option string;
    stac_extensions : list string;
    keywords : option (list string);
    providers : option (list ref);
    summaries : dict (list Value);
    links : list ref;
    extra_fields : dict Value }.

Definition with_links (l : list ref) (c : t) : t :=
  mk (id c) (description c) (extent c) (title c) (stac_extensions c)
     (keywords c) (providers c) (summaries c) l (extra_fields c).

Definition with_stac_extensions (e : list string) (c : t) : t :=
  mk (id c) (description c) (extent c) (title c) e
     (keywords c) (providers c) (summaries c) (links c) (extra_fields c).

Definition with_summaries (m : dict (list Value)) (c : t) : t :=
  mk (id c) (description c) (extent c) (title c) (stac_extensions c)
     (keywords c) (providers c) m (links c) (extra_fields c).

Definition with_extra_fields (f : dict Value) (c : t) : t :=
  mk (id c) (description c) (extent c) (title c) (stac_extensions c)
     (keywords c) (providers c) (summaries c) (links c) f.
End Collection.

(** the objects of the store *)
Inductive t :=
| OLink (l : Link.t)
| OProvider (p : Provider.t)
| OExtent (e : Extent.t)
| OAsset (a : Asset.t)
| OItem (i : Item.t)
| OCollection (c : Collection.t).

End Obj.

(** The store: what the names of the module [c] are bound to, and the
    objects.  A computation ends with a value or an exception and with the
    store as it leaves it; what was written before an exception stays
    written. *)
Module Heap.

Record Globals := mk_globals
  { SENTINEL_CONSTELLATION : string;
    SENTINEL_PLATFORMS : list string;
    SENTINEL_PROVIDER : Obj.ref;
    SENTINEL_SLC_DESCRIPTION : string;
    SENTINEL_SLC_START : datetime;
    SENTINEL_SLC_EXTENT : Obj.ref;
    SENTINEL_SLC_TECHNICAL_GUIDE : Obj.ref;
    SENTINEL_SLC_LICENSE : Obj.ref;
    SENTINEL_SLC_KEYWORDS : list string;
    SENTINEL_SLC_SAT : dict (list Value);
    SENTINEL_SLC_SAR : dict (list Value);
    SENTINEL_SLC_ASSETS : dict (dict Value) }.

Record t := mk
  { c_ : Globals;
    objects : list Obj.t }.

Definition M (A : Type) := t -> Result A * t.

Definition ret {A} (a : A) : M A := fun s => (Ok a, s).

Definition bind {A B} (m : M A) (f : A -> M B) : M B :=
  fun s =>
    match m s with
    | (Ok a, s') => f a s'
    | (Err e, s') => (Err e, s')
    end.

Definition raise {A} (e : Exception) : M A := fun s => (Err e, s).

(** reading a module attribute: [c.NAME] *)
Definition gets {A} (f : Globals -> A) : M A := fun s => (Ok (f (c_ s)), s).

(** a call of pystac that may raise *)
Definition lift {A} (r : Result A) : M A := fun s => (r, s).

(** a call of a library function without state: what it raises is not
    caught *)
Definition call {A} (o : Outcome A) : M A :=
  fun s =>
    match o with
    | Returns a => (Ok a, s)
    | Raises exc => (Err (Raised exc), s)
    end.

Definition lookup (r : Obj.ref) (s : t) : option Obj.t :=
  nth_error (objects s) r.

Fixpoint replace_nth {A} (n : nat) (x : A) (l : list A) : list A :=
  match l, n with
  | [], _ => []
  | _ :: r, O => x :: r
  | y :: r, S m => y :: replace_nth m x r
  end.

(** the store after an object was updated in place *)
Definition update (r : Obj.ref) (o : Obj.t) (s : t) : t :=
  mk (c_ s) (replace_nth r o (objects s)).

(** the store with further objects *)
Definition grow (new : list Obj.t) (s : t) : t :=
  mk (c_ s) (objects s ++ new).

(** a constructor call: the new object gets a reference of its own *)
Definition alloc (o : Obj.t) : M Obj.ref :=
  fun s => (Ok (length (objects s)), grow [o] s).

(** an object used as an object of another class has not the attribute
    that is asked for *)
Definition AttributeError : Exception := Raised "AttributeError".

Definition the_item (r : Obj.ref) : M Obj.Item.t :=
  fun s =>
    match lookup r s with
    | Some (Obj.OItem i) => (Ok i, s)
    | _ => (Err AttributeError, s)
    end.

Definition the_asset (r : Obj.ref) : M Obj.Asset.t :=
  fun s =>
    match lookup r s with
    | Some (Obj.OAsset a) => (Ok a, s)
    | _ => (Err AttributeError, s)
    end.

Definition the_collection (r : Obj.ref) : M Obj.Collection.t :=
  fun s =>
    match lookup r s with
    | Some (Obj.OCollection c) => (Ok c, s)
    | _ => (Err AttributeError, s)
    end.

Definition the_provider (r : Obj.ref) : M Provider.t :=
  fun s =>
    match lookup r s with
    | Some (Obj.OProvider p) => (Ok p, s)
    | _ => (Err AttributeError, s)
    end.

Definition put (r : Obj.ref) (o : Obj.t) : M unit :=
  fun s => (Ok tt, update r o s).

Definition run {A} (m : M A) (s : t) : Result A := fst (m s).

End Heap.

Declare Scope heap_scope.
Delimit Scope heap_scope with heap.
Notation "x <- m ;; k" := (Heap.bind m (fun x => k))
  (at level 61, m at next level, right associativity) : heap_scope.
Notation "' p <- m ;; k" := (Heap.bind m (fun x => match x with p => k end))
  (at level 61, p pattern, m at next level, right associativity) : heap_scope.
Notation "m ;;; k" := (Heap.bind m (fun _ => k))
  (at level 61, right associativity) : heap_scope.

Module HeapOps.
Local Open Scope heap_scope.

(** [d[k]] *)
Definition getitem {V} (k : string) (d : dict V) : Heap.M V :=
  match dict_get k d with
  | Some v => Heap.ret v
  | None => Heap.raise (KeyError k)
  end.

(** a list comprehension [[f(x) for x in xs]] *)
Fixpoint comprehension {A B} (f : A -> Heap.M B) (xs : list A)
  : Heap.M (list B) :=
  match xs with
  | [] => Heap.ret []
  | x :: r =>
      y <- f x ;;
      ys <- comprehension f r ;;
      Heap.ret (y :: ys)
  end.

(** a loop [for x in xs: body] *)
Fixpoint for_each {A} (body : A -> Heap.M unit) (xs : list A) : Heap.M unit :=
  match xs with
  | [] => Heap.ret tt
  | x :: r => body x ;;; for_each body r
  end.

End HeapOps.

(** ** pystac on references *)

Module Ref.
Local Open Scope heap_scope.

Module Item.

(** [pystac.Item(...)]: the new item has no assets and no links *)
Definition new (id_ : string) (geometry_ : Value) (bbox_ : list float)
    (dt : option datetime) (properties_ : dict Value)
    (stac_extensions_ : list string) : Heap.M Obj.ref :=
  _ <- Heap.lift (Item.new id_ geometry_ bbox_ dt properties_ stac_extensions_) ;;
  Heap.alloc
    (Obj.OItem
       (Obj.Item.mk id_ geometry_ bbox_ dt properties_ stac_extensions_ [] [])).

Definition modify (item : Obj.ref) (f : Obj.Item.t -> Obj.Item.t)
  : Heap.M unit :=
  i <- Heap.the_item item ;;
  Heap.put item (Obj.OItem (f i)).

(** [Ext.ext(item, add_if_missing=True)] *)
Definition ext (x : Extension) (item : Obj.ref) : Heap.M unit :=
  modify item
    (fun i =>
       Obj.Item.with_stac_extensions
         (add_if_missing x (Obj.Item.stac_extensions i)) i).

(** an extension or common-metadata setter *)
Definition set_property (k : string) (v : option Value) (item : Obj.ref)
  : Heap.M unit :=
  modify item
    (fun i =>
       Obj.Item.with_properties (set_or_pop k v (Obj.Item.properties i)) i).

(** [item.properties[k] = v] *)
Definition set_item (k : string) (v : Value) (item : Obj.ref) : Heap.M unit :=
  modify item
    (fun i => Obj.Item.with_properties (dict_set k v (Obj.Item.properties i)) i).

(** [item.properties.update(d)] *)
Definition update_properties (d : dict Value) (item : Obj.ref)
  : Heap.M unit :=
  modify item
    (fun i =>
       Obj.Item.with_properties (dict_update d (Obj.Item.properties i)) i).

(** [item.add_asset(key, asset)]: [asset.set_owner(item)], then
    [item.assets[key] = asset] *)
Definition add_asset (key : string) (asset item : Obj.ref) : Heap.M unit :=
  a <- Heap.the_asset asset ;;
  Heap.put asset (Obj.OAsset (Obj.Asset.set_owner item a)) ;;;
  modify item
    (fun i => Obj.Item.with_assets (dict_set key asset (Obj.Item.assets i)) i).

(** [item.links.append(link)] *)
Definition append_link (link item : Obj.ref) : Heap.M unit :=
  modify item
    (fun i => Obj.Item.with_links (Obj.Item.links i ++ [link]) i).

End Item.

Module Asset.

(** [pystac.Asset(href, title, description, media_type, roles)] *)
Definition new (href_ : string) (title_ description_ : option string)
    (media_type_ : option MediaType.t) (roles_ : option (list string))
  : Heap.M Obj.ref :=
  Heap.alloc
    (Obj.OAsset
       (Obj.Asset.mk href_ title_ description_ media_type_ roles_ [] None)).

(** [Ext.ext(asset, add_if_missing=True)]: the schema is added to the
    owner of the asset, and an asset without an owner is refused *)
Definition ext (x : Extension) (asset : Obj.ref) : Heap.M unit :=
  a <- Heap.the_asset asset ;;
  match Obj.Asset.owner a with
  | None =>
      Heap.raise
        (STACError "Attempted to use add_if_missing=True for an Asset with no owner. Use Asset.set_owner or set add_if_missing=False.")
  | Some item => Item.ext x item
  end.

End Asset.

Module Collection.

(** [pystac.Collection(id, description, extent, title, href,
    stac_extensions, keywords, providers, summaries)]: the new collection
    gets a root link to itself and a self link to [href], two new [Link]
    objects *)
Definition new (id_ description_ : string) (extent_ : Obj.ref)
    (title_ : option string) (href_ : string)
    (stac_extensions_ : list string) (keywords_ : option (list string))
    (providers_ : option (list Obj.ref))
    (summaries_ : dict (list Value)) : Heap.M Obj.ref :=
  root <- Heap.alloc (Obj.OLink Link.root) ;;
  self <- Heap.alloc (Obj.OLink (Link.self_href href_)) ;;
  Heap.alloc
    (Obj.OCollection
       (Obj.Collection.mk id_ description_ extent_ title_ stac_extensions_
          keywords_ providers_ summaries_ [root; self] [])).

Definition modify (collection : Obj.ref)
    (f : Obj.Collection.t -> Obj.Collection.t) : Heap.M unit :=
  c <- Heap.the_collection collection ;;
  Heap.put collection (Obj.OCollection (f c)).

(** [collection.links.append(link)] *)
Definition append_link (link collection : Obj.ref) : Heap.M unit :=
  modify collection
    (fun c => Obj.Collection.with_links (Obj.Collection.links c ++ [link]) c).

(** [Ext.summaries(collection, add_if_missing=True)] and
    [Ext.ext(collection, add_if_missing=True)] *)
Definition ext (x : Extension) (collection : Obj.ref) : Heap.M unit :=
  modify collection
    (fun c =>
       Obj.Collection.with_stac_extensions
         (add_if_missing x (Obj.Collection.stac_extensions c)) c).

(** a summaries setter *)
Definition set_summary (k : string) (v : list Value) (collection : Obj.ref)
  : Heap.M unit :=
  modify collection
    (fun c =>
       Obj.Collection.with_summaries
         (dict_set k v (Obj.Collection.summaries c)) c).

Definition set_extra_field (k : string) (v : Value) (collection : Obj.ref)
  : Heap.M unit :=
  modify collection
    (fun c =>
       Obj.Collection.with_extra_fields
         (dict_set k v (Obj.Collection.extra_fields c)) c).

End Collection.

End Ref.

(** ** The helpers of the package as they act on the store *)

(** Modelled from the spec: the helpers of the package are not among the
    sources.  Here each one is an arbitrary computation on the store: it
    may read and write any object and any name of [c]. *)
Module Stateful.

Module SLCMetadataLinks.
Record t := mk
  { product_metadata_href : string;
    grouped_hrefs : Value;
    map_filename : string -> string;
    manifest : XmlElement;
    thumbnail_href : option string;
    create_manifest_asset : Heap.M (string * Obj.ref);
    create_product_asset : Heap.M (list (string * Obj.ref));
    create_calibration_asset : Heap.M (list (string * Obj.ref));
    create_noise_asset : Heap.M (list (string * Obj.ref)) }.
End SLCMetadataLinks.

Module SLCProductMetadata.
Record t := mk
  { scene_id : Heap.M string;
    geometry : Heap.M Value;
    bbox : Heap.M (list float);
    get_datetime : Heap.M datetime;
    platform : Heap.M (option string);
    metadata_dict : Heap.M (dict Value);
    image_paths : Heap.M (list string) }.
End SLCProductMetadata.

Record Helpers := mk_helpers
  { new_SLCMetadataLinks :
      string -> option ReadHrefModifier -> Format.t -> dict Value ->
      Heap.M SLCMetadataLinks.t;
    new_SLCProductMetadata :
      string -> Value -> (string -> string) -> XmlElement ->
      Heap.M SLCProductMetadata.t;
    fill_common_sar_properties : Obj.ref -> XmlElement -> Heap.M unit;
    fill_sat_properties : Obj.ref -> XmlElement -> Heap.M unit;
    fill_processing_properties : Obj.ref -> XmlElement -> Heap.M unit;
    fill_swath_sar_properties : Obj.ref -> string -> string -> Heap.M unit;
    get_shape :
      SLCMetadataLinks.t -> option ReadHrefModifier -> dict Value ->
      Heap.M (list Z);
    image_asset_from_href :
      string -> Obj.ref -> option MediaType.t -> bool ->
      Heap.M (string * Obj.ref);
    extract_properties : string -> list string -> Heap.M (list string) }.

End Stateful.

(** ** stac.py on references *)

Module ByReference.
Section Stac.

Variable H : Stateful.Helpers.
Variable E : Externals.

Local Open Scope heap_scope.

(** [create_collection] (lines 33-85) *)

Definition summarize (table : Heap.Globals -> dict (list Value))
    (key prop : string) (collection : Obj.ref) : Heap.M unit :=
  t <- Heap.gets table ;;
  v <- HeapOps.getitem key t ;;
  Ref.Collection.set_summary prop v collection.

Definition create_collection (json_path : string) : Heap.M Obj.ref :=
  (* Lists of all possible values for items *)
  constellation <- Heap.gets Heap.SENTINEL_CONSTELLATION ;;
  platforms <- Heap.gets Heap.SENTINEL_PLATFORMS ;;
  let summary_dict :=
    [("constellation", [VStr constellation]);
     ("platform", map VStr platforms)] in
  description <- Heap.gets Heap.SENTINEL_SLC_DESCRIPTION ;;
  extent <- Heap.gets Heap.SENTINEL_SLC_EXTENT ;;
  keywords <- Heap.gets Heap.SENTINEL_SLC_KEYWORDS ;;
  provider <- Heap.gets Heap.SENTINEL_PROVIDER ;;
  collection <-
    Ref.Collection.new "sentinel1-slc" description extent
      (Some "Sentinel-1 SLC") json_path
      [get_schema_uri SarExtension;
       get_schema_uri SatExtension;
       get_schema_uri EOExtension]
      (Some keywords) (Some [provider]) (Summaries summary_dict) ;;
  (* Links *)
  license <- Heap.gets Heap.SENTINEL_SLC_LICENSE ;;
  Ref.Collection.append_link license collection ;;;
  guide <- Heap.gets Heap.SENTINEL_SLC_TECHNICAL_GUIDE ;;
  Ref.Collection.append_link guide collection ;;;
  (* SAR Extension *)
  Ref.Collection.ext SarExtension collection ;;;
  summarize Heap.SENTINEL_SLC_SAR "looks_range" "sar:looks_range" collection ;;;
  summarize Heap.SENTINEL_SLC_SAR "product_type" "sar:product_type" collection ;;;
  summarize Heap.SENTINEL_SLC_SAR "looks_azimuth" "sar:looks_azimuth" collection ;;;
  summarize Heap.SENTINEL_SLC_SAR "polarizations" "sar:polarizations" collection ;;;
  summarize Heap.SENTINEL_SLC_SAR "frequency_band" "sar:frequency_band" collection ;;;
  summarize Heap.SENTINEL_SLC_SAR "instrument_mode" "sar:instrument_mode" collection ;;;
  summarize Heap.SENTINEL_SLC_SAR "center_frequency" "sar:center_frequency" collection ;;;
  summarize Heap.SENTINEL_SLC_SAR "resolution_range" "sar:resolution_range" collection ;;;
  summarize Heap.SENTINEL_SLC_SAR "resolution_azimuth" "sar:resolution_azimuth" collection ;;;
  summarize Heap.SENTINEL_SLC_SAR "pixel_spacing_range" "sar:pixel_spacing_range" collection ;;;
  summarize Heap.SENTINEL_SLC_SAR "observation_direction" "sar:observation_direction" collection ;;;
  summarize Heap.SENTINEL_SLC_SAR "pixel_spacing_azimuth" "sar:pixel_spacing_azimuth" collection ;;;
  summarize Heap.SENTINEL_SLC_SAR "looks_equivalent_number" "sar:looks_equivalent_number" collection ;;;
  (* Satellite Extension *)
  Ref.Collection.ext SatExtension collection ;;;
  summarize Heap.SENTINEL_SLC_SAT "orbit_state" "sat:orbit_state" collection ;;;
  (* Item Asset Extension *)
  Ref.Collection.ext ItemAssetsExtension collection ;;;
  item_assets <- Heap.gets Heap.SENTINEL_SLC_ASSETS ;;
  Ref.Collection.set_extra_field "item_assets"
    (VDict (map (fun kd => (fst kd, VDict (snd kd))) item_assets))
    collection ;;;
  Heap.ret collection.

(** [create_item] (lines 88-254) *)

(** lines 124-137 *)
Definition new_item (product_metadata : Stateful.SLCProductMetadata.t)
    (scene_id : string) : Heap.M Obj.ref :=
  let item_id := slice_to_neg 5 scene_id in
  geometry <- Stateful.SLCProductMetadata.geometry product_metadata ;;
  bbox <- Stateful.SLCProductMetadata.bbox product_metadata ;;
  datetime <- Stateful.SLCProductMetadata.get_datetime product_metadata ;;
  Ref.Item.new item_id geometry bbox (Some datetime) [] [].

(** the getter [projection.bbox] *)
Definition projection_bbox (item : Obj.ref) : Heap.M (option (list float)) :=
  i <- Heap.the_item item ;;
  Heap.ret
    match dict_get "proj:bbox" (Obj.Item.properties i) with
    | Some v => floats_of_value v
    | None => None
    end.

(** the extensions (lines 139-165) *)
Definition add_extensions (metalinks : Stateful.SLCMetadataLinks.t)
    (product_metadata : Stateful.SLCProductMetadata.t)
    (read_href_modifier : option ReadHrefModifier) (kwargs : dict Value)
    (item : Obj.ref) : Heap.M unit :=
  (* SAR Extension *)
  Ref.Item.ext SarExtension item ;;;
  Stateful.fill_common_sar_properties H item
    (Stateful.SLCMetadataLinks.manifest metalinks) ;;;
  (* Satellite Extension *)
  Ref.Item.ext SatExtension item ;;;
  Stateful.fill_sat_properties H item
    (Stateful.SLCMetadataLinks.manifest metalinks) ;;;
  (* eo *)
  Ref.Item.ext EOExtension item ;;;
  (* processing *)
  Stateful.fill_processing_properties H item
    (Stateful.SLCMetadataLinks.manifest metalinks) ;;;
  (* Projection Extension *)
  Ref.Item.ext ProjectionExtension item ;;;
  Ref.Item.set_property "proj:epsg" (Some (VInt 4326)) item ;;;
  bbox <- Stateful.SLCProductMetadata.bbox product_metadata ;;
  Ref.Item.set_property "proj:bbox" (Some (VList (map VFloat bbox))) item ;;;
  shape <- Stateful.get_shape H metalinks read_href_modifier kwargs ;;
  Ref.Item.set_property "proj:shape" (Some (VList (map VInt shape))) item ;;;
  projection_bbox_ <- projection_bbox item ;;
  transform <- Heap.call (transform_from_bbox E projection_bbox_ shape) ;;
  Ref.Item.set_property "proj:transform"
    (Some (VList (map VFloat transform))) item ;;;
  i <- Heap.the_item item ;;
  '(x, y) <- Heap.call (centroid E (Obj.Item.geometry i)) ;;
  Ref.Item.set_property "proj:centroid"
    (Some (VDict [("lat", VFloat (round E y 5)); ("lon", VFloat (round E x 5))]))
    item.

(** the common metadata (lines 167-174) *)
Definition add_common_metadata
    (product_metadata : Stateful.SLCProductMetadata.t) (item : Obj.ref)
  : Heap.M unit :=
  provider <- Heap.gets Heap.SENTINEL_PROVIDER ;;
  p_ <- Heap.the_provider provider ;;
  Ref.Item.set_property "providers"
    (Some (VList (map Provider.to_dict [p_]))) item ;;;
  platform <- Stateful.SLCProductMetadata.platform product_metadata ;;
  Ref.Item.set_property "platform"
    (if truthy platform then option_map (fun p => VStr (lower p)) platform
     else option_map VStr platform)
    item ;;;
  constellation <- Heap.gets Heap.SENTINEL_CONSTELLATION ;;
  Ref.Item.set_property "constellation" (Some (VStr constellation)) item.

(** the s1 properties (lines 176-183) *)
Definition add_s1_properties (metalinks : Stateful.SLCMetadataLinks.t)
    (product_metadata : Stateful.SLCProductMetadata.t) (scene_id : string)
    (item : Obj.ref) : Heap.M unit :=
  metadata_dict <- Stateful.SLCProductMetadata.metadata_dict product_metadata ;;
  Ref.Item.update_properties metadata_dict item ;;;
  Ref.Item.set_item "s1:product_identifier" (VStr scene_id) item ;;;
  let pdt :=
    find_attr E (Stateful.SLCMetadataLinks.manifest metalinks)
      "stop" ".//safe:processing[@name='SLC Post Processing']" in
  if truthy pdt
  then Ref.Item.set_item "s1:processing_datetime"
         (VStr (format_opt pdt ++ "Z")) item
  else Heap.ret tt.

Definition add_assets (assets : list (string * Obj.ref)) (item : Obj.ref)
  : Heap.M unit :=
  HeapOps.for_each
    (fun asset_obj => Ref.Item.add_asset (fst asset_obj) (snd asset_obj) item)
    assets.

(** the metadata assets and the thumbnail (lines 185-221) *)
Definition add_metadata_assets (metalinks : Stateful.SLCMetadataLinks.t)
    (item : Obj.ref) : Heap.M unit :=
  (* Add assets to item *)
  '(key, asset) <- Stateful.SLCMetadataLinks.create_manifest_asset metalinks ;;
  Ref.Item.add_asset key asset item ;;;
  (* Annotations for bands *)
  assets <- Stateful.SLCMetadataLinks.create_product_asset metalinks ;;
  add_assets assets item ;;;
  (* Calibrations for bands *)
  assets <- Stateful.SLCMetadataLinks.create_calibration_asset metalinks ;;
  add_assets assets item ;;;
  (* Noise for bands *)
  assets <- Stateful.SLCMetadataLinks.create_noise_asset metalinks ;;
  add_assets assets item ;;;
  (* Thumbnail *)
  match Stateful.SLCMetadataLinks.thumbnail_href metalinks with
  | Some href =>
      asset <- Ref.Asset.new href (Some "Preview Image")
                 (Some constants.thumbnail_description)
                 (Some MediaType.PNG) (Some ["thumbnail"]) ;;
      Ref.Item.add_asset "thumbnail" asset item
  | None => Heap.ret tt
  end.

(** lines 124-221: the item before the image assets are added *)
Definition build_item (metalinks : Stateful.SLCMetadataLinks.t)
    (product_metadata : Stateful.SLCProductMetadata.t)
    (read_href_modifier : option ReadHrefModifier) (kwargs : dict Value)
  : Heap.M Obj.ref :=
  scene_id <- Stateful.SLCProductMetadata.scene_id product_metadata ;;
  item <- new_item product_metadata scene_id ;;
  add_extensions metalinks product_metadata read_href_modifier kwargs item ;;;
  add_common_metadata product_metadata item ;;;
  add_s1_properties metalinks product_metadata scene_id item ;;;
  add_metadata_assets metalinks item ;;;
  Heap.ret item.

(** lines 229-239 *)
Definition image_assets (granule_href : string) (item : Obj.ref)
    (media_type : option MediaType.t) (image_paths : list string)
  : Heap.M (dict Obj.ref) :=
  pairs <- HeapOps.comprehension
             (fun image_path =>
                Stateful.image_asset_from_href H
                  (os_path_join granule_href image_path)
                  item media_type true)
             image_paths ;;
  Heap.ret (dict_of_pairs pairs).

(** the body of the loop over the image assets (lines 242-248) *)
Definition add_image_asset (item asset : Obj.ref) : Heap.M unit :=
  a <- Heap.the_asset asset ;;
  props <- Stateful.extract_properties H (Obj.Asset.href a)
             ["polarisation"; "swath"] ;;
  match props with
  | [polarisation; swath] =>
      let key := (swath ++ "-" ++ polarisation)%string in
      i <- Heap.the_item item ;;
      if dict_contains key (Obj.Item.assets i) then Heap.raise AssertionError
      else
        Ref.Item.add_asset key asset item ;;;
        Ref.Asset.ext AssetSarExtension asset ;;;
        Stateful.fill_swath_sar_properties H asset
          (upper swath) (upper polarisation)
  | _ => Heap.raise (ValueError "cannot unpack the extracted properties into (polarisation, swath)")
  end.

Definition create_item (granule_href : string)
    (read_href_modifier : option ReadHrefModifier)
    (archive_format : Format.t) (kwargs : dict Value) : Heap.M Obj.ref :=
  metalinks <- Stateful.new_SLCMetadataLinks H granule_href read_href_modifier
                 archive_format kwargs ;;
  product_metadata <-
    Stateful.new_SLCProductMetadata H
      (Stateful.SLCMetadataLinks.product_metadata_href metalinks)
      (Stateful.SLCMetadataLinks.grouped_hrefs metalinks)
      (Stateful.SLCMetadataLinks.map_filename metalinks)
      (Stateful.SLCMetadataLinks.manifest metalinks) ;;
  item <- build_item metalinks product_metadata read_href_modifier kwargs ;;
  let media_type := images_media_type archive_format in
  image_paths <- Stateful.SLCProductMetadata.image_paths product_metadata ;;
  assets <- image_assets granule_href item media_type image_paths ;;
  HeapOps.for_each (add_image_asset item) (dict_values assets) ;;;
  (* --Links-- *)
  license <- Heap.gets Heap.SENTINEL_SLC_LICENSE ;;
  Ref.Item.append_link license item ;;;
  guide <- Heap.gets Heap.SENTINEL_SLC_TECHNICAL_GUIDE ;;
  Ref.Item.append_link guide item ;;;
  Heap.ret item.

End Stac.
End ByReference.

(** ** What the objects of the store stand for *)

(** The values of the first part that the objects behind a reference
    amount to; [None] when a reference leads to no object or to an object
    of another class. *)
Module Reify.

Fixpoint traverse {A B} (f : A -> option B) (l : list A) : option (list B) :=
  match l with
  | [] => Some []
  | x :: r =>
      match f x, traverse f r with
      | Some y, Some ys => Some (y :: ys)
      | _, _ => None
      end
  end.

Definition link (s : Heap.t) (r : Obj.ref) : option Link.t :=
  match Heap.lookup r s with
  | Some (Obj.OLink l) => Some l
  | _ => None
  end.

Definition provider (s : Heap.t) (r : Obj.ref) : option Provider.t :=
  match Heap.lookup r s with
  | Some (Obj.OProvider p) => Some p
  | _ => None
  end.

Definition extent (s : Heap.t) (r : Obj.ref) : option Extent.t :=
  match Heap.lookup r s with
  | Some (Obj.OExtent e) => Some e
  | _ => None
  end.

(** the owner of an asset is named by its id *)
Definition owner_id (s : Heap.t) (o : option Obj.ref)
  : option (option string) :=
  match o with
  | None => Some None
  | Some r =>
      match Heap.lookup r s with
      | Some (Obj.OItem i) => Some (Some (Obj.Item.id i))
      | _ => None
      end
  end.

Definition asset (s : Heap.t) (r : Obj.ref) : option Asset.t :=
  match Heap.lookup r s with
  | Some (Obj.OAsset a) =>
      match owner_id s (Obj.Asset.owner a) with
      | Some o =>
          Some (Asset.mk (Obj.Asset.href a) (Obj.Asset.title a)
                  (Obj.Asset.description a) (Obj.Asset.media_type a)
                  (Obj.Asset.roles a) (Obj.Asset.extra_fields a) o)
      | None => None
      end
  | _ => None
  end.

Definition entry {A} (f : Obj.ref -> option A) (kv : string * Obj.ref)
  : option (string * A) :=
  match f (snd kv) with
  | Some a => Some (fst kv, a)
  | None => None
  end.

Definition item (s : Heap.t) (r : Obj.ref) : option Item.t :=
  match Heap.lookup r s with
  | Some (Obj.OItem i) =>
      match traverse (entry (asset s)) (Obj.Item.assets i),
            traverse (link s) (Obj.Item.links i) with
      | Some assets, Some links =>
          Some (Item.mk (Obj.Item.id i) (Obj.Item.geometry i)
                  (Obj.Item.bbox i) (Obj.Item.datetime_ i)
                  (Obj.Item.properties i) (Obj.Item.stac_extensions i)
                  assets links)
      | _, _ => None
      end
  | _ => None
  end.

Definition providers (s : Heap.t) (o : option (list Obj.ref))
  : option (option (list Provider.t)) :=
  match o with
  | None => Some None
  | Some l =>
      match traverse (provider s) l with
      | Some ps => Some (Some ps)
      | None => None
      end
  end.

Definition collection (s : Heap.t) (r : Obj.ref) : option Collection.t :=
  match Heap.lookup r s with
  | Some (Obj.OCollection c) =>
      match extent s (Obj.Collection.extent c),
            providers s (Obj.Collection.providers c),
            traverse (link s) (Obj.Collection.links c) with
      | Some e, Some ps, Some links =>
          Some (Collection.mk (Obj.Collection.id c)
                  (Obj.Collection.description c) e (Obj.Collection.title c)
                  (Obj.Collection.stac_extensions c)
                  (Obj.Collection.keywords c) ps
                  (Obj.Collection.summaries c) links
                  (Obj.Collection.extra_fields c))
      | _, _, _ => None
      end
  | _ => None
  end.

(** the module [c], as the first part reads it *)
Definition module (s : Heap.t) : option c.t :=
  let g := Heap.c_ s in
  match provider s (Heap.SENTINEL_PROVIDER g),
        extent s (Heap.SENTINEL_SLC_EXTENT g),
        link s (Heap.SENTINEL_SLC_TECHNICAL_GUIDE g),
        link s (Heap.SENTINEL_SLC_LICENSE g) with
  | Some p, Some e, Some guide, Some license =>
      Some (c.mk (Heap.SENTINEL_CONSTELLATION g) (Heap.SENTINEL_PLATFORMS g) p
              (Heap.SENTINEL_SLC_DESCRIPTION g) (Heap.SENTINEL_SLC_START g) e
              guide license (Heap.SENTINEL_SLC_KEYWORDS g)
              (Heap.SENTINEL_SLC_SAT g) (Heap.SENTINEL_SLC_SAR g)
              (Heap.SENTINEL_SLC_ASSETS g))
  | _, _, _, _ => None
  end.

End Reify.

(** ** What is asked of the helpers *)

Definition of_outcome {A} (o : Outcome A) : Result A :=
  match o with
  | Returns a => Ok a
  | Raises exc => Err (Raised exc)
  end.

(** [h] returns or raises as [o] says and leaves the store as it is *)
Definition reads_only {A} (h : Heap.M A) (o : Outcome A) : Prop :=
  forall s, h s = (of_outcome o, s).

(** the asset object [ao] has the fields of [a]; the owner is left open *)
Definition describes (ao : Obj.Asset.t) (a : Asset.t) : Prop :=
  Obj.Asset.href ao = Asset.href a
  /\ Obj.Asset.title ao = Asset.title a
  /\ Obj.Asset.description ao = Asset.description a
  /\ Obj.Asset.media_type ao = Asset.media_type a
  /\ Obj.Asset.roles ao = Asset.roles a
  /\ Obj.Asset.extra_fields ao = Asset.extra_fields a.

(** from the store [s], [h] returns a new asset object under the key that
    [o] gives, or raises as [o] says, and does nothing else *)
Definition creates_asset_from (s : Heap.t) (h : Heap.M (string * Obj.ref))
    (o : Outcome (string * Asset.t)) : Prop :=
  match o with
  | Returns (key, a) =>
      exists ao,
        describes ao a
        /\ h s = (Ok (key, length (Heap.objects s)),
                  Heap.grow [Obj.OAsset ao] s)
  | Raises exc => h s = (Err (Raised exc), s)
  end.

Definition creates_asset (h : Heap.M (string * Obj.ref))
    (o : Outcome (string * Asset.t)) : Prop :=
  forall s, creates_asset_from s h o.

(** [h] returns new asset objects, one after the other, under the keys
    that [o] gives *)
Definition creates_assets (h : Heap.M (list (string * Obj.ref)))
    (o : Outcome (list (string * Asset.t))) : Prop :=
  forall s,
    match o with
    | Returns l =>
        exists aos,
          Forall2 describes aos (map snd l)
          /\ h s = (Ok (combine (map fst l)
                          (seq (length (Heap.objects s)) (length l))),
                    Heap.grow (map Obj.OAsset aos) s)
    | Raises exc => h s = (Err (Raised exc), s)
    end.

(** [h] performs the assignments that [o] gives on the properties of the
    item it is handed; when it raises it may have changed this item, and
    nothing else *)
Definition fills_item (h : Obj.ref -> Heap.M unit) (o : Outcome Writes)
  : Prop :=
  forall s item i,
    Heap.lookup item s = Some (Obj.OItem i) ->
    match o with
    | Returns ws =>
        h item s
        = (Ok tt,
           Heap.update item
             (Obj.OItem
                (Obj.Item.with_properties
                   (apply_writes ws (Obj.Item.properties i)) i)) s)
    | Raises exc =>
        exists p,
          h item s
          = (Err (Raised exc),
             Heap.update item (Obj.OItem (Obj.Item.with_properties p i)) s)
    end.

(** the same on the extra fields of an asset *)
Definition fills_asset (h : Obj.ref -> Heap.M unit) (o : Outcome Writes)
  : Prop :=
  forall s asset a,
    Heap.lookup asset s = Some (Obj.OAsset a) ->
    match o with
    | Returns ws =>
        h asset s
        = (Ok tt,
           Heap.update asset
             (Obj.OAsset
                (Obj.Asset.set_extra_fields
                   (apply_writes ws (Obj.Asset.extra_fields a)) a)) s)
    | Raises exc =>
        exists f,
          h asset s
          = (Err (Raised exc),
             Heap.update asset (Obj.OAsset (Obj.Asset.set_extra_fields f a)) s)
    end.

(** [h] constructs an object that stands for the one [o] gives *)
Definition constructs {X Y} (stands_for : X -> Y -> Prop) (h : Heap.M X)
    (o : Outcome Y) : Prop :=
  forall s,
    match o with
    | Returns y => exists x, stands_for x y /\ h s = (Ok x, s)
    | Raises exc => h s = (Err (Raised exc), s)
    end.

Definition metalinks_stand_for (m : Stateful.SLCMetadataLinks.t)
    (ml : SLCMetadataLinks.t) : Prop :=
  Stateful.SLCMetadataLinks.product_metadata_href m
  = SLCMetadataLinks.product_metadata_href ml
  /\ Stateful.SLCMetadataLinks.grouped_hrefs m
     = SLCMetadataLinks.grouped_hrefs ml
  /\ Stateful.SLCMetadataLinks.map_filename m
     = SLCMetadataLinks.map_filename ml
  /\ Stateful.SLCMetadataLinks.manifest m = SLCMetadataLinks.manifest ml
  /\ Stateful.SLCMetadataLinks.thumbnail_href m
     = SLCMetadataLinks.thumbnail_href ml
  /\ creates_asset (Stateful.SLCMetadataLinks.create_manifest_asset m)
       (SLCMetadataLinks.create_manifest_asset ml)
  /\ creates_assets (Stateful.SLCMetadataLinks.create_product_asset m)
       (SLCMetadataLinks.create_product_asset ml)
  /\ creates_assets (Stateful.SLCMetadataLinks.create_calibration_asset m)
       (SLCMetadataLinks.create_calibration_asset ml)
  /\ creates_assets (Stateful.SLCMetadataLinks.create_noise_asset m)
       (SLCMetadataLinks.create_noise_asset ml).

Definition product_metadata_stands_for (m : Stateful.SLCProductMetadata.t)
    (pm : SLCProductMetadata.t) : Prop :=
  reads_only (Stateful.SLCProductMetadata.scene_id m)
    (SLCProductMetadata.scene_id pm)
  /\ reads_only (Stateful.SLCProductMetadata.geometry m)
       (SLCProductMetadata.geometry pm)
  /\ reads_only (Stateful.SLCProductMetadata.bbox m)
       (SLCProductMetadata.bbox pm)
  /\ reads_only (Stateful.SLCProductMetadata.get_datetime m)
       (SLCProductMetadata.get_datetime pm)
  /\ reads_only (Stateful.SLCProductMetadata.platform m)
       (SLCProductMetadata.platform pm)
  /\ reads_only (Stateful.SLCProductMetadata.metadata_dict m)
       (SLCProductMetadata.metadata_dict pm)
  /\ reads_only (Stateful.SLCProductMetadata.image_paths m)
       (SLCProductMetadata.image_paths pm).

(** The helpers [H] do on the store what the helpers [E] of the first
    part say, and nothing else: the ones that extract data leave the store
    alone, the ones that make assets add new objects, and a filler writes
    to the object it is handed. *)
Record implements (H : Stateful.Helpers) (E : Externals) : Prop :=
  { impl_metalinks :
      forall granule rhm fmt kw,
        constructs metalinks_stand_for
          (Stateful.new_SLCMetadataLinks H granule rhm fmt kw)
          (new_SLCMetadataLinks E granule rhm fmt kw);
    impl_product_metadata :
      forall href grouped map_filename manifest,
        constructs product_metadata_stands_for
          (Stateful.new_SLCProductMetadata H href grouped map_filename manifest)
          (new_SLCProductMetadata E href grouped map_filename manifest);
    impl_common_sar :
      forall manifest,
        fills_item
          (fun item => Stateful.fill_common_sar_properties H item manifest)
          (fill_common_sar_properties E manifest);
    impl_sat :
      forall manifest,
        fills_item (fun item => Stateful.fill_sat_properties H item manifest)
          (fill_sat_properties E manifest);
    impl_processing :
      forall manifest,
        fills_item
          (fun item => Stateful.fill_processing_properties H item manifest)
          (fill_processing_properties E manifest);
    impl_swath_sar :
      forall swath polarisation,
        fills_asset
          (fun asset =>
             Stateful.fill_swath_sar_properties H asset swath polarisation)
          (fill_swath_sar_properties E swath polarisation);
    impl_get_shape :
      forall m ml rhm kw,
        metalinks_stand_for m ml ->
        reads_only (Stateful.get_shape H m rhm kw) (get_shape E ml rhm kw);
    impl_image_asset :
      forall href item_ref media_type slc_swaths s item,
        Reify.item s item_ref = Some item ->
        creates_asset_from s
          (Stateful.image_asset_from_href H href item_ref media_type slc_swaths)
          (image_asset_from_href E href item media_type slc_swaths);
    impl_extract :
      forall href names,
        reads_only (Stateful.extract_properties H href names)
          (extract_properties E href names) }.

(** ** What a call leaves as it found it *)

(** Every object of [s] is in [s'] as it was, and the names of [c] are
    bound as before. *)
Definition extends (s s' : Heap.t) : Prop :=
  Heap.c_ s' = Heap.c_ s
  /\ forall r o, Heap.lookup r s = Some o -> Heap.lookup r s' = Some o.

(** The calls of the two functions. *)
Inductive Call :=
| CreateItem (granule_href : string)
    (read_href_modifier : option ReadHrefModifier)
    (archive_format : Format.t) (kwargs : dict Value)
| CreateCollection (json_path : string).

Inductive Document :=
| AnItem (item : Item.t)
| ACollection (collection : Collection.t).

Definition perform (H : Stateful.Helpers) (E : Externals) (call : Call)
  : Heap.M Obj.ref :=
  match call with
  | CreateItem granule rhm fmt kw =>
      ByReference.create_item H E granule rhm fmt kw
  | CreateCollection json_path => ByReference.create_collection json_path
  end.

(** the calls of a list, one after the other, each on the store that the
    one before it left; exceptions are caught by the caller *)
Fixpoint perform_all (H : Stateful.Helpers) (E : Externals)
    (calls : list Call) (s : Heap.t) : list (Result Obj.ref) * Heap.t :=
  match calls with
  | [] => ([], s)
  | call :: rest =>
      let '(r, s') := perform H E call s in
      let '(rs, s'') := perform_all H E rest s' in
      (r :: rs, s'')
  end.

(** what the first part computes for a call *)
Definition computed (E : Externals) (call : Call) (cs : c.t)
  : Result Document :=
  match call with
  | CreateItem granule rhm fmt kw =>
      match run (create_item E granule rhm fmt kw) cs with
      | Ok item => Ok (AnItem item)
      | Err e => Err e
      end
  | CreateCollection json_path =>
      match run (create_collection json_path) cs with
      | Ok collection => Ok (ACollection collection)
      | Err e => Err e
      end
  end.

(** the document behind the reference that a call returned *)
Definition document (s : Heap.t) (call : Call) (r : Obj.ref)
  : option Document :=
  match call with
  | CreateItem _ _ _ _ => option_map AnItem (Reify.item s r)
  | CreateCollection _ => option_map ACollection (Reify.collection s r)
  end.

(** in the store [s], the result [r] of [call] is what was [expected] *)
Definition yields (s : Heap.t) (call : Call) (r : Result Obj.ref)
    (expected : Result Document) : Prop :=
  match expected with
  | Ok d => exists ref, r = Ok ref /\ document s call ref = Some d
  | Err e => r = Err e
  end.

(** ** Following a call through the store *)

(** the objects below [n] and the names of [c] are as they were *)
Definition keeps_below (n : nat) (s s' : Heap.t) : Prop :=
  Heap.c_ s' = Heap.c_ s
  /\ length (Heap.objects s) <= length (Heap.objects s')
  /\ forall r, r < n -> Heap.lookup r s' = Heap.lookup r s.

(** the plain values of the module [c] in the store and in the first
    part *)
Definition same_values (g : Heap.Globals) (cs : c.t) : Prop :=
  Heap.SENTINEL_CONSTELLATION g = c.SENTINEL_CONSTELLATION cs
  /\ Heap.SENTINEL_PLATFORMS g = c.SENTINEL_PLATFORMS cs
  /\ Heap.SENTINEL_SLC_DESCRIPTION g = c.SENTINEL_SLC_DESCRIPTION cs
  /\ Heap.SENTINEL_SLC_START g = c.SENTINEL_SLC_START cs
  /\ Heap.SENTINEL_SLC_KEYWORDS g = c.SENTINEL_SLC_KEYWORDS cs
  /\ Heap.SENTINEL_SLC_SAT g = c.SENTINEL_SLC_SAT cs
  /\ Heap.SENTINEL_SLC_SAR g = c.SENTINEL_SLC_SAR cs
  /\ Heap.SENTINEL_SLC_ASSETS g = c.SENTINEL_SLC_ASSETS cs.

Section Following.

(** the call started on a store with [n] objects, the names of [c] bound
    as [g] says, where the module read as [cs] *)
Variable n : nat.
Variable g : Heap.Globals.
Variable cs : c.t.

Definition during (s : Heap.t) : Prop :=
  Heap.c_ s = g
  /\ n <= length (Heap.objects s)
  /\ (Heap.SENTINEL_PROVIDER g < n
      /\ Heap.lookup (Heap.SENTINEL_PROVIDER g) s
         = Some (Obj.OProvider (c.SENTINEL_PROVIDER cs)))
  /\ (Heap.SENTINEL_SLC_EXTENT g < n
      /\ Heap.lookup (Heap.SENTINEL_SLC_EXTENT g) s
         = Some (Obj.OExtent (c.SENTINEL_SLC_EXTENT cs)))
  /\ (Heap.SENTINEL_SLC_TECHNICAL_GUIDE g < n
      /\ Heap.lookup (Heap.SENTINEL_SLC_TECHNICAL_GUIDE g) s
         = Some (Obj.OLink (c.SENTINEL_SLC_TECHNICAL_GUIDE cs)))
  /\ (Heap.SENTINEL_SLC_LICENSE g < n
      /\ Heap.lookup (Heap.SENTINEL_SLC_LICENSE g) s
         = Some (Obj.OLink (c.SENTINEL_SLC_LICENSE cs))).

(** [hm] on the store does what [pm] computes in the first part: from a
    store where [P] holds it keeps the objects below [n], raises what [pm]
    raises, and returns a value that [R] relates to the one [pm] returns *)
Definition refines {A B} (P : Heap.t -> Prop) (hm : Heap.M A) (pm : M B)
    (R : A -> B -> Heap.t -> Prop) : Prop :=
  forall s,
    during s -> P s ->
    keeps_below n s (snd (hm s))
    /\ match run pm cs with
       | Ok b => exists a, fst (hm s) = Ok a /\ R a b (snd (hm s))
       | Err e => fst (hm s) = Err e
       end.

(** an asset object created in this call, not yet added to an item *)
Definition new_asset (s : Heap.t) (r : Obj.ref) (a : Asset.t) : Prop :=
  n <= r
  /\ exists ao, Heap.lookup r s = Some (Obj.OAsset ao) /\ describes ao a.

(** an asset of the item [item], whose id is [item_id] *)
Definition asset_of (s : Heap.t) (item : Obj.ref) (item_id : string)
    (r : Obj.ref) (a : Asset.t) : Prop :=
  n <= r
  /\ exists ao,
       Heap.lookup r s = Some (Obj.OAsset ao)
       /\ describes ao a
       /\ Obj.Asset.owner ao = Some item
       /\ Asset.owner a = Some item_id.

(** the item object behind [item], created in this call, stands for the
    item [it] of the first part *)
Definition stands_for (item : Obj.ref) (it : Item.t) (s : Heap.t) : Prop :=
  n <= item
  /\ exists i,
       Heap.lookup item s = Some (Obj.OItem i)
       /\ Obj.Item.id i = Item.id it
       /\ Obj.Item.geometry i = Item.geometry it
       /\ Obj.Item.bbox i = Item.bbox it
       /\ Obj.Item.datetime_ i = Item.datetime_ it
       /\ Obj.Item.properties i = Item.properties it
       /\ Obj.Item.stac_extensions i = Item.stac_extensions it
       /\ Forall2
            (fun kr ka =>
               fst kr = fst ka
               /\ asset_of s item (Item.id it) (snd kr) (snd ka))
            (Obj.Item.assets i) (Item.assets it)
       /\ NoDup (map snd (Obj.Item.assets i))
       /\ Forall2
            (fun r l => r < n /\ Heap.lookup r s = Some (Obj.OLink l))
            (Obj.Item.links i) (Item.links it).

(** the reference [r] is not among the assets of the item *)
Definition unused (s : Heap.t) (item r : Obj.ref) : Prop :=
  forall i,
    Heap.lookup item s = Some (Obj.OItem i) ->
    ~ In r (map snd (Obj.Item.assets i)).

(** asset objects created in this call, different from each other and
    none of them added to the item yet *)
Definition pending (s : Heap.t) (item : Obj.ref) (refs : list Obj.ref)
    (assets : list Asset.t) : Prop :=
  Forall2 (new_asset s) refs assets
  /\ NoDup refs
  /\ forall r, In r refs -> unused s item r.

(** the fields of the collection object [x] are those of the collection
    [co] of the first part; what it refers to is none of the collection
    itself *)
Definition collection_fields (collection : Obj.ref) (x : Obj.Collection.t)
    (co : Collection.t) (s : Heap.t) : Prop :=
  Obj.Collection.id x = Collection.id co
  /\ Obj.Collection.description x = Collection.description co
  /\ (Obj.Collection.extent x <> collection
      /\ Reify.extent s (Obj.Collection.extent x)
         = Some (Collection.extent co))
  /\ Obj.Collection.title x = Collection.title co
  /\ Obj.Collection.stac_extensions x = Collection.stac_extensions co
  /\ Obj.Collection.keywords x = Collection.keywords co
  /\ ((forall l r, Obj.Collection.providers x = Some l -> In r l ->
         r <> collection)
      /\ Reify.providers s (Obj.Collection.providers x)
         = Some (Collection.providers co))
  /\ Obj.Collection.summaries x = Collection.summaries co
  /\ Forall2
       (fun r l => r <> collection /\ Heap.lookup r s = Some (Obj.OLink l))
       (Obj.Collection.links x) (Collection.links co)
  /\ Obj.Collection.extra_fields x = Collection.extra_fields co.

(** the collection object behind [collection], created in this call,
    stands for the collection [co] of the first part *)
Definition collection_stands_for (collection : Obj.ref) (co : Collection.t)
    (s : Heap.t) : Prop :=
  n <= collection
  /\ exists x,
       Heap.lookup collection s = Some (Obj.OCollection x)
       /\ collection_fields collection x co s.

End Following.

(** ** Helpers that do what is asked, and no more *)

(** For helpers [E] of the first part, the helpers on the store that
    extract the same data, make an asset object for every asset and write
    what the fillers assign. *)
Module Plain.
Local Open Scope heap_scope.

Definition asset_object (a : Asset.t) : Obj.Asset.t :=
  Obj.Asset.mk (Asset.href a) (Asset.title a) (Asset.description a)
    (Asset.media_type a) (Asset.roles a) (Asset.extra_fields a) None.

Definition make_asset (o : Outcome (string * Asset.t))
  : Heap.M (string * Obj.ref) :=
  match o with
  | Returns (key, a) =>
      asset <- Heap.alloc (Obj.OAsset (asset_object a)) ;;
      Heap.ret (key, asset)
  | Raises exc => Heap.raise (Raised exc)
  end.

Definition make_assets (o : Outcome (list (string * Asset.t)))
  : Heap.M (list (string * Obj.ref)) :=
  match o with
  | Returns l =>
      HeapOps.comprehension (fun ka => make_asset (Returns ka)) l
  | Raises exc => Heap.raise (Raised exc)
  end.

Definition metalinks (ml : SLCMetadataLinks.t) : Stateful.SLCMetadataLinks.t :=
  Stateful.SLCMetadataLinks.mk
    (SLCMetadataLinks.product_metadata_href ml)
    (SLCMetadataLinks.grouped_hrefs ml)
    (SLCMetadataLinks.map_filename ml)
    (SLCMetadataLinks.manifest ml)
    (SLCMetadataLinks.thumbnail_href ml)
    (make_asset (SLCMetadataLinks.create_manifest_asset ml))
    (make_assets (SLCMetadataLinks.create_product_asset ml))
    (make_assets (SLCMetadataLinks.create_calibration_asset ml))
    (make_assets (SLCMetadataLinks.create_noise_asset ml)).

Definition product_metadata (pm : SLCProductMetadata.t)
  : Stateful.SLCProductMetadata.t :=
  Stateful.SLCProductMetadata.mk
    (Heap.call (SLCProductMetadata.scene_id pm))
    (Heap.call (SLCProductMetadata.geometry pm))
    (Heap.call (SLCProductMetadata.bbox pm))
    (Heap.call (SLCProductMetadata.get_datetime pm))
    (Heap.call (SLCProductMetadata.platform pm))
    (Heap.call (SLCProductMetadata.metadata_dict pm))
    (Heap.call (SLCProductMetadata.image_paths pm)).

Definition fill_item (o : Outcome Writes) (item : Obj.ref) : Heap.M unit :=
  ws <- Heap.call o ;;
  Ref.Item.modify item
    (fun i =>
       Obj.Item.with_properties (apply_writes ws (Obj.Item.properties i)) i).

Definition fill_asset (o : Outcome Writes) (asset : Obj.ref) : Heap.M unit :=
  ws <- Heap.call o ;;
  a <- Heap.the_asset asset ;;
  Heap.put asset
    (Obj.OAsset
       (Obj.Asset.set_extra_fields
          (apply_writes ws (Obj.Asset.extra_fields a)) a)).

Definition of_outcome_with {X Y} (f : Y -> X) (o : Outcome Y) : Outcome X :=
  match o with
  | Returns y => Returns (f y)
  | Raises exc => Raises exc
  end.

(** the metadata links that [m] was made from are kept beside it for
    [get_shape] *)
Definition helpers (E : Externals)
    (get_shape_ :
       Stateful.SLCMetadataLinks.t -> option ReadHrefModifier -> dict Value ->
       Outcome (list Z))
  : Stateful.Helpers :=
  Stateful.mk_helpers
    (fun granule rhm fmt kw =>
       Heap.call
         (of_outcome_with metalinks (new_SLCMetadataLinks E granule rhm fmt kw)))
    (fun href grouped map_filename manifest =>
       Heap.call
         (of_outcome_with product_metadata
            (new_SLCProductMetadata E href grouped map_filename manifest)))
    (fun item manifest => fill_item (fill_common_sar_properties E manifest) item)
    (fun item manifest => fill_item (fill_sat_properties E manifest) item)
    (fun item manifest => fill_item (fill_processing_properties E manifest) item)
    (fun asset swath polarisation =>
       fill_asset (fill_swath_sar_properties E swath polarisation) asset)
    (fun m rhm kw => Heap.call (get_shape_ m rhm kw))
    (fun href item media_type slc_swaths s =>
       match Reify.item s item with
       | Some it =>
           make_asset (image_asset_from_href E href it media_type slc_swaths) s
       | None => (Err Heap.AttributeError, s)
       end)
    (fun href names => Heap.call (extract_properties E href names)).

End Plain.

(** A store for the granules of [Fixture]: the module [c] with its
    provider, extent and two links as the objects 0 to 3. *)
Module StoreFixture.

Definition globals : Heap.Globals :=
  Heap.mk_globals
    (c.SENTINEL_CONSTELLATION Fixture.store)
    (c.SENTINEL_PLATFORMS Fixture.store)
    0
    (c.SENTINEL_SLC_DESCRIPTION Fixture.store)
    (c.SENTINEL_SLC_START Fixture.store)
    1 2 3
    (c.SENTINEL_SLC_KEYWORDS Fixture.store)
    (c.SENTINEL_SLC_SAT Fixture.store)
    (c.SENTINEL_SLC_SAR Fixture.store)
    (c.SENTINEL_SLC_ASSETS Fixture.store).

Definition store : Heap.t :=
  Heap.mk globals
    [Obj.OProvider (c.SENTINEL_PROVIDER Fixture.store);
     Obj.OExtent (c.SENTINEL_SLC_EXTENT Fixture.store);
     Obj.OLink (c.SENTINEL_SLC_TECHNICAL_GUIDE Fixture.store);
     Obj.OLink (c.SENTINEL_SLC_LICENSE Fixture.store)].

Definition helpers : Stateful.Helpers :=
  Plain.helpers Fixture.externals (fun _ _ _ => Returns [1500; 20000]%Z).

(** an item, the collection, the same item again, and a granule that is
    not there *)
Definition calls : list Call :=
  [CreateItem Fixture.granule_A None Format.SAFE [];
   CreateCollection "collection.json";
   CreateItem Fixture.granule_A None Format.SAFE [];
   CreateItem "nowhere.SAFE" None Format.SAFE []].

End StoreFixture.

(* ================================================================== *)
(** * Dictionaries: lookups after assignments *)
(* ================================================================== *)

Unset Implicit Arguments.

Lemma dict_get_set (V : Type) (k k' : string) (v : V) (d : dict V) :
  dict_get k (dict_set k' v d)
  = if String.eqb k k' then Some v else dict_get k d.
Proof.
  induction d as [|[k0 v0] r IH]; simpl.
  - destruct (String.eqb k k'); reflexivity.
  - destruct (String.eqb_spec k' k0) as [->|Hne]; simpl.
    + destruct (String.eqb k k0); reflexivity.
    + rewrite IH.
      destruct (String.eqb_spec k k0) as [->|Hne'].
      * destruct (String.eqb_spec k0 k') as [Heq|_]; [congruence|reflexivity].
      * reflexivity.
Qed.

Lemma dict_get_pop (V : Type) (k k' : string) (d : dict V) :
  dict_get k (dict_pop k' d)
  = if String.eqb k k' then None else dict_get k d.
Proof.
  induction d as [|[k0 v0] r IH]; simpl.
  - destruct (String.eqb k k'); reflexivity.
  - destruct (String.eqb_spec k' k0) as [->|Hne]; simpl.
    + rewrite IH. destruct (String.eqb k k0); reflexivity.
    + rewrite IH.
      destruct (String.eqb_spec k k0) as [->|Hne'].
      * destruct (String.eqb_spec k0 k') as [Heq|_]; [congruence|reflexivity].
      * reflexivity.
Qed.

Lemma dict_get_set_or_pop (V : Type) (k k' : string) (v : option V)
    (d : dict V) :
  dict_get k (set_or_pop k' v d)
  = if String.eqb k k' then v else dict_get k d.
Proof.
  destruct v; simpl; [apply dict_get_set | apply dict_get_pop].
Qed.

Lemma apply_writes_app (V : Type) (a b : list (string * option V))
    (d : dict V) :
  apply_writes (a ++ b) d = apply_writes b (apply_writes a d).
Proof. unfold apply_writes. apply fold_left_app. Qed.

Lemma last_write_app (V : Type) (k : string) (a b : list (string * option V)) :
  last_write k (a ++ b)
  = match last_write k b with
    | Some w => Some w
    | None => last_write k a
    end.
Proof.
  induction a as [|[k0 v0] r IH]; simpl.
  - destruct (last_write k b); reflexivity.
  - rewrite IH. destruct (last_write k b); reflexivity.
Qed.

(** The value of a key after a sequence of assignments is the one of the
    last assignment to it. *)
Lemma dict_get_apply_writes (V : Type) (k : string)
    (ws : list (string * option V)) (d : dict V) :
  dict_get k (apply_writes ws d)
  = match last_write k ws with
    | Some w => w
    | None => dict_get k d
    end.
Proof.
  revert d. induction ws as [|[k0 v0] r IH]; intros d; simpl.
  - reflexivity.
  - unfold apply_writes in *. simpl. rewrite IH.
    destruct (last_write k r); [reflexivity|].
    rewrite dict_get_set_or_pop. simpl.
    destruct (String.eqb k k0); reflexivity.
Qed.

Lemma dict_update_writes (V : Type) (src : list (string * V)) (d : dict V) :
  dict_update src d
  = apply_writes (map (fun kv => (fst kv, Some (snd kv))) src) d.
Proof.
  revert d. induction src as [|[k v] r IH]; intros d; simpl.
  - reflexivity.
  - unfold dict_update, apply_writes in *. simpl. apply IH.
Qed.

Lemma last_write_entries_none (V : Type) (k : string) (d : dict V) :
  dict_get k d = None ->
  last_write k (map (fun kv => (fst kv, Some (snd kv))) d) = None.
Proof.
  induction d as [|[k0 v0] r IH]; simpl; intros H.
  - reflexivity.
  - destruct (String.eqb k k0); [discriminate|].
    rewrite (IH H). reflexivity.
Qed.

Lemma dict_get_not_key (V : Type) (k : string) (d : dict V) :
  ~ In k (dict_keys d) -> dict_get k d = None.
Proof.
  induction d as [|[k0 v0] r IH]; simpl; intros H.
  - reflexivity.
  - destruct (String.eqb_spec k k0) as [->|Hne].
    + exfalso. apply H. left. reflexivity.
    + apply IH. intros Hin. apply H. right. exact Hin.
Qed.

Lemma dict_get_in (V : Type) (k : string) (v : V) (d : dict V) :
  dict_get k d = Some v -> In (k, v) d.
Proof.
  induction d as [|[k0 v0] r IH]; simpl; intros H.
  - discriminate.
  - destruct (String.eqb_spec k k0) as [->|Hne].
    + left. congruence.
    + right. apply IH. exact H.
Qed.


Lemma dict_contains_set (V : Type) (k k' : string) (v : V) (d : dict V) :
  dict_contains k (dict_set k' v d) = (String.eqb k k' || dict_contains k d)%bool.
Proof.
  unfold dict_contains. rewrite dict_get_set.
  destruct (String.eqb k k'); reflexivity.
Qed.

Lemma mem_string_in (x : string) (l : list string) :
  mem_string x l = true <-> In x l.
Proof.
  induction l as [|y r IH]; simpl.
  - split; [discriminate|contradiction].
  - rewrite orb_true_iff, IH, String.eqb_eq. intuition congruence.
Qed.

Lemma mem_string_false (x y : string) (l : list string) :
  mem_string x l = false -> In y l -> String.eqb x y = false.
Proof.
  intros Hm Hin. destruct (String.eqb_spec x y) as [->|]; [|reflexivity].
  apply mem_string_in in Hin. congruence.
Qed.

(* ================================================================== *)
(** * The monad: no computation of stac.py writes to the store *)
(* ================================================================== *)

Lemma stateless_ret (A : Type) (a : A) : stateless (ret a).
Proof. intros s. reflexivity. Qed.

Lemma stateless_raise (A : Type) (e : Exception) : stateless (@raise A e).
Proof. intros s. reflexivity. Qed.

Lemma stateless_gets (A : Type) (f : c.t -> A) : stateless (gets f).
Proof. intros s. reflexivity. Qed.

Lemma stateless_lift (A : Type) (r : Result A) : stateless (lift r).
Proof. intros s. reflexivity. Qed.

Lemma stateless_call (A : Type) (o : Outcome A) : stateless (call o).
Proof. intros s. unfold call. destruct o; reflexivity. Qed.

Lemma stateless_bind (A B : Type) (m : M A) (f : A -> M B) :
  stateless m -> (forall a, stateless (f a)) -> stateless (bind m f).
Proof.
  intros Hm Hf s. unfold bind.
  specialize (Hm s). destruct (m s) as [[a|e] s']; simpl in *; subst.
  - apply Hf.
  - reflexivity.
Qed.

Lemma stateless_getitem (V : Type) (k : string) (d : dict V) :
  stateless (getitem k d).
Proof.
  unfold getitem. destruct (dict_get k d);
    [apply stateless_ret | apply stateless_raise].
Qed.

Lemma stateless_comprehension (A B : Type) (f : A -> M B) (xs : list A) :
  (forall x, stateless (f x)) -> stateless (comprehension f xs).
Proof.
  intros Hf. induction xs as [|x r IH]; simpl.
  - apply stateless_ret.
  - apply stateless_bind; [apply Hf|]. intros y.
    apply stateless_bind; [exact IH|]. intros ys. apply stateless_ret.
Qed.

Lemma stateless_for_each (A S : Type) (body : A -> S -> M S) (xs : list A) :
  (forall x s, stateless (body x s)) -> forall s, stateless (for_each body xs s).
Proof.
  intros Hb. induction xs as [|x r IH]; intros s; simpl.
  - apply stateless_ret.
  - apply stateless_bind; [apply Hb|]. intros s'. apply IH.
Qed.

Create HintDb stateless.
#[export] Hint Resolve stateless_ret stateless_raise stateless_gets
  stateless_lift stateless_call stateless_getitem : stateless.

(** Proves [stateless m] for a computation built from the combinators. *)
Ltac stateless_tac :=
  repeat first
    [ progress auto with stateless
    | apply stateless_bind; [|intros ?]
    | apply stateless_comprehension; intros ?
    | apply stateless_for_each; intros ? ?
    | match goal with
      | |- stateless (match ?x with _ => _ end) => destruct x
      | |- stateless (if ?x then _ else _) => destruct x
      | |- stateless (let _ := _ in _) => cbv zeta
      end ].

Lemma run_ret (A : Type) (a : A) (s : c.t) : run (ret a) s = Ok a.
Proof. reflexivity. Qed.

Lemma run_gets (A : Type) (f : c.t -> A) (s : c.t) : run (gets f) s = Ok (f s).
Proof. reflexivity. Qed.

Lemma run_call_returns (A : Type) (a : A) (s : c.t) :
  run (call (Returns a)) s = Ok a.
Proof. reflexivity. Qed.

(** Under [run], a bind of a stateless computation is a case analysis on
    its result: an exception ends the computation. *)
Lemma run_bind (A B : Type) (m : M A) (f : A -> M B) (s : c.t) :
  stateless m ->
  run (bind m f) s
  = match run m s with
    | Ok a => run (f a) s
    | Err e => Err e
    end.
Proof.
  intros Hm. unfold run, bind. specialize (Hm s).
  destruct (m s) as [[a|e] s']; simpl in *; subst; reflexivity.
Qed.

Lemma run_call (A B : Type) (o : Outcome A) (f : A -> M B) (s : c.t) :
  run (bind (call o) f) s
  = match o with
    | Returns a => run (f a) s
    | Raises exc => Err (Raised exc)
    end.
Proof. unfold run, bind, call. destruct o; reflexivity. Qed.

Lemma run_bind_gets (A B : Type) (g : c.t -> A) (f : A -> M B) (s : c.t) :
  run (bind (gets g) f) s = run (f (g s)) s.
Proof. reflexivity. Qed.

Lemma run_bind_ret (A B : Type) (a : A) (f : A -> M B) (s : c.t) :
  run (bind (ret a) f) s = run (f a) s.
Proof. reflexivity. Qed.

Lemma run_bind_lift (A B : Type) (r : Result A) (f : A -> M B) (s : c.t) :
  run (bind (lift r) f) s
  = match r with
    | Ok a => run (f a) s
    | Err e => Err e
    end.
Proof. unfold run, bind, lift. destruct r; reflexivity. Qed.

Lemma run_call_Ok (A : Type) (o : Outcome A) (a : A) (s : c.t) :
  run (call o) s = Ok a <-> o = Returns a.
Proof.
  unfold run, call. destruct o; simpl; split; intros H;
    try discriminate; congruence.
Qed.

Lemma run_bind_assoc (A B C : Type) (m : M A) (f : A -> M B) (g : B -> M C)
    (s : c.t) :
  run (bind (bind m f) g) s = run (bind m (fun a => bind (f a) g)) s.
Proof.
  unfold run, bind. destruct (m s) as [[a|e] s']; reflexivity.
Qed.

Lemma run_bind_call_returns (A B : Type) (a : A) (f : A -> M B) (s : c.t) :
  run (bind (call (Returns a)) f) s = run (f a) s.
Proof. reflexivity. Qed.

(** One step of a run that ended with a value: the call at its head
    returned. *)
Ltac run_ok H :=
  cbv zeta in H;
  first
    [ rewrite run_bind_assoc in H
    | rewrite run_bind_call_returns in H
    | rewrite run_bind_gets in H
    | rewrite run_bind_ret in H
    | rewrite run_call in H;
      match type of H with
      | match ?o with Returns _ => _ | Raises _ => _ end = Ok _ =>
          let Ho := fresh "Hreturns" in
          destruct o eqn:Ho; [|discriminate H]
      end
    | rewrite run_bind_lift in H;
      match type of H with
      | match ?r with Ok _ => _ | Err _ => _ end = Ok _ =>
          let Hr := fresh "Hok" in
          destruct r eqn:Hr; [|discriminate H]
      end
    | match type of H with
      | context [let (_, _) := ?p in _] => destruct p
      end ].

(** One step of a run whose calls are known to return. *)
Ltac run_with_returns :=
  cbv zeta;
  first
    [ rewrite run_bind_assoc
    | rewrite run_bind_call_returns
    | rewrite run_bind_gets
    | rewrite run_bind_ret
    | rewrite run_call;
      match goal with
      | |- context [match ?o with Returns _ => _ | Raises _ => _ end] =>
          match goal with
          | Hr : o = Returns _ |- _ => rewrite Hr
          end
      end ].

(* ================================================================== *)
(** * The item before the image assets are added *)
(* ================================================================== *)

Lemma floats_of_value_floats (b : list float) :
  floats_of_value (VList (map VFloat b)) = Some b.
Proof.
  simpl. induction b as [|f r IH]; simpl.
  - reflexivity.
  - rewrite IH. reflexivity.
Qed.

(** [projection.bbox], read back after [projection.bbox] and
    [projection.shape] were assigned, is the bounding box assigned. *)
Lemma projection_bbox_read_back (b : list float) (shape : option Value)
    (item : Item.t) :
  projection_bbox
    (Item.set_property "proj:shape" shape
       (Item.set_property "proj:bbox" (Some (VList (map VFloat b))) item))
  = Some b.
Proof.
  unfold projection_bbox, Item.set_property. cbn [Item.properties Item.with_properties].
  rewrite !dict_get_set_or_pop. cbn [String.eqb Ascii.eqb Bool.eqb].
  change (String.eqb "proj:bbox" "proj:shape") with false.
  change (String.eqb "proj:bbox" "proj:bbox") with true.
  cbv iota. apply floats_of_value_floats.
Qed.

(** The platform stored is the lower-cased platform, and none when the
    product metadata has none. *)
Lemma platform_value (platform : option string) :
  (if truthy platform then option_map (fun p => VStr (lower p)) platform
   else option_map VStr platform)
  = option_map (fun p => VStr (lower p)) platform.
Proof.
  destruct platform as [[|ch r]|]; reflexivity.
Qed.


(** Unfolds the projections of a record of extracted values. *)
Ltac extracted_fields :=
  cbn [x_scene_id x_geometry x_bbox x_datetime x_sar x_sat x_processing
       x_shape x_transform x_centroid x_platform x_metadata_dict
       x_manifest_asset x_product_assets x_calibration_assets x_noise_assets
       fst snd].

(** [build_item] returns an item exactly when every required call
    returns, and the item is then [built_item]. *)
Lemma build_item_spec (E : Externals) (ml : SLCMetadataLinks.t)
    (pm : SLCProductMetadata.t) (rhm : option ReadHrefModifier)
    (kw : dict Value) (s : c.t) (item : Item.t) :
  run (build_item E ml pm rhm kw) s = Ok item
  <-> exists x, extracted E ml pm rhm kw x /\ item = built_item E s ml x.
Proof.
  unfold build_item, new_item, add_extensions, add_common_metadata,
    add_s1_properties, add_metadata_assets.
  split.
  - intros H.
    do 18 run_ok H.
    rewrite projection_bbox_read_back in H.
    repeat run_ok H.
    simpl in Hok. injection Hok as <-.
    cbn [Item.geometry Item.set_property Item.with_properties Item.ext
         Item.with_stac_extensions fill] in Hreturns8.
    unfold run, ret in H. simpl fst in H. injection H as <-.
    eexists (mk_extracted _ _ _ _ _ _ _ _ _ _ _ _ _ _ _ _).
    split.
    + unfold extracted. extracted_fields. repeat split; eassumption.
    + unfold built_item, processing_stop, post_processing_xpath. cbv zeta.
      extracted_fields.
      destruct (SLCMetadataLinks.thumbnail_href ml); repeat f_equal.
  - intros (x & Hx & ->).
    destruct Hx as (H1 & H2 & H3 & H4 & H5 & H6 & H7 & H8 & H9 & H10 & H11
                    & H12 & H13 & H14 & H15 & H16).
    do 7 run_with_returns.
    rewrite run_bind_lift. cbn [Item.new].
    do 11 run_with_returns.
    rewrite projection_bbox_read_back.
    do 2 run_with_returns.
    cbn [Item.geometry Item.set_property Item.with_properties Item.ext
         Item.with_stac_extensions fill].
    repeat run_with_returns.
    destruct (x_centroid x) as [cx cy] eqn:Hc.
    destruct (x_manifest_asset x) as [key asset] eqn:Hm.
    repeat run_with_returns.
    unfold run, ret. simpl fst. f_equal.
    unfold built_item, processing_stop, post_processing_xpath. cbv zeta.
    rewrite Hc, Hm. extracted_fields.
    destruct (SLCMetadataLinks.thumbnail_href ml); repeat f_equal.
Qed.

(** Unfolds the accessors and updaters of [Item]. *)
Ltac item_fields :=
  cbn [Item.id Item.geometry Item.bbox Item.datetime_ Item.properties
       Item.stac_extensions Item.assets Item.links
       Item.set_property Item.with_properties Item.with_stac_extensions
       Item.with_assets Item.with_links Item.ext Item.add_asset fill].

(** Adding assets touches nothing but the assets. *)
Lemma add_assets_frame (assets : list (string * Asset.t)) (item : Item.t) :
  Item.id (add_assets assets item) = Item.id item
  /\ Item.geometry (add_assets assets item) = Item.geometry item
  /\ Item.bbox (add_assets assets item) = Item.bbox item
  /\ Item.datetime_ (add_assets assets item) = Item.datetime_ item
  /\ Item.properties (add_assets assets item) = Item.properties item
  /\ Item.stac_extensions (add_assets assets item) = Item.stac_extensions item
  /\ Item.links (add_assets assets item) = Item.links item.
Proof.
  revert item. induction assets as [|[k a] r IH]; intros item.
  - repeat split.
  - unfold add_assets in *. simpl.
    destruct (IH (Item.add_asset k a item)) as (H1 & H2 & H3 & H4 & H5 & H6 & H7).
    rewrite H1, H2, H3, H4, H5, H6, H7. repeat split.
Qed.

(** Rewrites a field other than the assets through the asset additions
    at the end of [built_item]. *)
Ltac through_assets ml :=
  destruct (SLCMetadataLinks.thumbnail_href ml); item_fields;
  repeat match goal with
    | |- context [add_assets ?l ?i] =>
        let H := fresh in
        pose proof (add_assets_frame l i) as H;
        let H1 := fresh in let H2 := fresh in let H3 := fresh in
        let H4 := fresh in let H5 := fresh in let H6 := fresh in
        let H7 := fresh in
        destruct H as (H1 & H2 & H3 & H4 & H5 & H6 & H7);
        first [ rewrite H1 | rewrite H2 | rewrite H3 | rewrite H4
              | rewrite H5 | rewrite H6 | rewrite H7 ];
        clear H1 H2 H3 H4 H5 H6 H7
    end;
  item_fields.

Lemma built_item_id (E : Externals) (s : c.t) (ml : SLCMetadataLinks.t)
    (x : Extracted) :
  Item.id (built_item E s ml x) = slice_to_neg 5 (x_scene_id x).
Proof.
  unfold built_item. cbv zeta.
  through_assets ml; destruct (truthy (processing_stop E ml)); reflexivity.
Qed.

Lemma built_item_geometry (E : Externals) (s : c.t) (ml : SLCMetadataLinks.t)
    (x : Extracted) :
  Item.geometry (built_item E s ml x) = x_geometry x.
Proof.
  unfold built_item. cbv zeta.
  through_assets ml; destruct (truthy (processing_stop E ml)); reflexivity.
Qed.

Lemma built_item_bbox (E : Externals) (s : c.t) (ml : SLCMetadataLinks.t)
    (x : Extracted) :
  Item.bbox (built_item E s ml x) = x_bbox x.
Proof.
  unfold built_item. cbv zeta.
  through_assets ml; destruct (truthy (processing_stop E ml)); reflexivity.
Qed.

Lemma built_item_datetime (E : Externals) (s : c.t) (ml : SLCMetadataLinks.t)
    (x : Extracted) :
  Item.datetime_ (built_item E s ml x) = Some (x_datetime x).
Proof.
  unfold built_item. cbv zeta.
  through_assets ml; destruct (truthy (processing_stop E ml)); reflexivity.
Qed.

Lemma built_item_links (E : Externals) (s : c.t) (ml : SLCMetadataLinks.t)
    (x : Extracted) :
  Item.links (built_item E s ml x) = [].
Proof.
  unfold built_item. cbv zeta.
  through_assets ml; destruct (truthy (processing_stop E ml)); reflexivity.
Qed.

Lemma built_item_stac_extensions (E : Externals) (s : c.t)
    (ml : SLCMetadataLinks.t) (x : Extracted) :
  Item.stac_extensions (built_item E s ml x)
  = [get_schema_uri SarExtension; get_schema_uri SatExtension;
     get_schema_uri EOExtension; get_schema_uri ProjectionExtension].
Proof.
  unfold built_item. cbv zeta.
  through_assets ml;
    destruct (truthy (processing_stop E ml)); item_fields; reflexivity.
Qed.

(** The properties of the item are the assignments of lines 139-183
    applied, in order, to the empty dictionary. *)
Lemma built_item_properties (E : Externals) (s : c.t)
    (ml : SLCMetadataLinks.t) (x : Extracted) :
  Item.properties (built_item E s ml x)
  = apply_writes (property_log E s ml x) [].
Proof.
  unfold built_item, property_log. cbv zeta.
  through_assets ml;
    rewrite platform_value;
    rewrite !apply_writes_app;
    destruct (truthy (processing_stop E ml)); item_fields;
    rewrite dict_update_writes; reflexivity.
Qed.

(* ================================================================== *)
(** * The image assets *)
(* ================================================================== *)

Lemma comprehension_spec (A B : Type) (f : A -> M B) (xs : list A)
    (ys : list B) (s : c.t) :
  (forall x, stateless (f x)) ->
  run (comprehension f xs) s = Ok ys
  <-> Forall2 (fun x y => run (f x) s = Ok y) xs ys.
Proof.
  intros Hf. revert ys. induction xs as [|x r IH]; intros ys; simpl.
  - split.
    + intros H. injection H as <-. constructor.
    + intros H. inversion H. reflexivity.
  - rewrite run_bind by apply Hf.
    split.
    + intros H. destruct (run (f x) s) as [y|e] eqn:Hy; [|discriminate].
      rewrite run_bind in H by (apply stateless_comprehension; exact Hf).
      destruct (run (comprehension f r) s) as [ys'|e] eqn:Hr; [|discriminate].
      injection H as <-. constructor; [exact Hy|]. apply IH. reflexivity.
    + intros H. inversion H as [|x' y r' ys' Hy Hr]; subst.
      rewrite Hy. rewrite run_bind by (apply stateless_comprehension; exact Hf).
      apply IH in Hr. rewrite Hr. reflexivity.
Qed.

(** The image assets are the helper's answers for the image paths, put
    into a dictionary. *)
Lemma image_assets_spec (E : Externals) (granule : string) (item : Item.t)
    (fmt : Format.t) (paths : list string) (assets : dict Asset.t) (s : c.t) :
  run (image_assets E granule item (images_media_type fmt) paths) s = Ok assets
  <-> exists named,
        image_assets_named E granule item fmt paths named
        /\ assets = dict_of_pairs named.
Proof.
  unfold image_assets, image_assets_named.
  rewrite run_bind by (apply stateless_comprehension; intros; apply stateless_call).
  split.
  - intros H.
    destruct (run (comprehension _ paths) s) as [named|e] eqn:Hc; [|discriminate].
    injection H as <-. exists named. split; [|reflexivity].
    apply comprehension_spec in Hc; [|intros; apply stateless_call].
    eapply Forall2_impl; [|exact Hc]. cbv beta.
    intros p ka Hp. apply run_call_Ok in Hp. exact Hp.
  - intros (named & Hn & ->).
    assert (Hc : run (comprehension
                        (fun image_path =>
                           call (image_asset_from_href E
                                   (os_path_join granule image_path) item
                                   (images_media_type fmt) true))
                        paths) s = Ok named).
    { apply comprehension_spec; [intros; apply stateless_call|].
      eapply Forall2_impl; [|exact Hn]. cbv beta.
      intros p ka Hp. apply run_call_Ok. exact Hp. }
    rewrite Hc. reflexivity.
Qed.

Lemma stateless_add_image_asset (E : Externals) (asset : Asset.t)
    (item : Item.t) :
  stateless (add_image_asset E asset item).
Proof. unfold add_image_asset. stateless_tac. Qed.

(** One turn of the loop returns exactly when the swath and polarisation
    are extracted, the key built from them is new to the item, and the
    swath filler returns. *)
Lemma add_image_asset_spec (E : Externals) (asset : Asset.t) (item item' : Item.t)
    (s : c.t) :
  run (add_image_asset E asset item) s = Ok item'
  <-> exists b,
        b_asset b = asset
        /\ band_extracted E b
        /\ band_filled E b
        /\ dict_contains (band_key b) (Item.assets item) = false
        /\ item' = with_band item b.
Proof.
  unfold add_image_asset, band_extracted, band_filled.
  rewrite run_call.
  split.
  - intros H.
    destruct (extract_properties E (Asset.href asset) ["polarisation"; "swath"])
      as [props|exc] eqn:Hx; [|discriminate].
    destruct props as [|pol [|swath [|? ?]]]; try discriminate.
    destruct (dict_contains (swath ++ "-" ++ pol) (Item.assets item)) eqn:Hc;
      [discriminate|].
    cbv zeta in H. rewrite run_call in H.
    destruct (fill_swath_sar_properties E (upper swath) (upper pol))
      as [ws|exc] eqn:Hf; [|discriminate].
    injection H as <-.
    exists (mk_band asset pol swath ws). cbn [b_asset b_polarisation b_swath b_writes].
    repeat split; assumption.
  - intros (b & <- & Hx & Hf & Hc & ->).
    rewrite Hx. unfold band_key in Hc. rewrite Hc.
    cbv zeta. rewrite run_call, Hf. reflexivity.
Qed.

Lemma with_band_frame (item : Item.t) (b : Band) :
  Item.id (with_band item b) = Item.id item
  /\ Item.geometry (with_band item b) = Item.geometry item
  /\ Item.bbox (with_band item b) = Item.bbox item
  /\ Item.datetime_ (with_band item b) = Item.datetime_ item
  /\ Item.properties (with_band item b) = Item.properties item
  /\ Item.links (with_band item b) = Item.links item.
Proof. repeat split. Qed.

Lemma with_bands_frame (bands : list Band) (item : Item.t) :
  Item.id (with_bands bands item) = Item.id item
  /\ Item.geometry (with_bands bands item) = Item.geometry item
  /\ Item.bbox (with_bands bands item) = Item.bbox item
  /\ Item.datetime_ (with_bands bands item) = Item.datetime_ item
  /\ Item.properties (with_bands bands item) = Item.properties item
  /\ Item.links (with_bands bands item) = Item.links item.
Proof.
  revert item. induction bands as [|b r IH]; intros item.
  - repeat split.
  - unfold with_bands in *. simpl.
    destruct (IH (with_band item b)) as (H1 & H2 & H3 & H4 & H5 & H6).
    rewrite H1, H2, H3, H4, H5, H6. repeat split.
Qed.

(** The keys of the assets after a turn of the loop: the new key and the
    ones that were there. *)
Lemma with_band_contains (k : string) (item : Item.t) (b : Band) :
  dict_contains k (Item.assets (with_band item b))
  = (String.eqb k (band_key b) || dict_contains k (Item.assets item))%bool.
Proof.
  unfold with_band. item_fields. rewrite !dict_contains_set.
  destruct (String.eqb k (band_key b)); reflexivity.
Qed.

Lemma with_band_get (k : string) (item : Item.t) (b : Band) :
  dict_get k (Item.assets (with_band item b))
  = if String.eqb k (band_key b) then Some (band_asset (Item.id item) b)
    else dict_get k (Item.assets item).
Proof.
  unfold with_band. item_fields. rewrite !dict_get_set.
  destruct (String.eqb k (band_key b)); reflexivity.
Qed.

(** The loop over the image assets returns exactly when every turn does:
    each asset yields a swath and a polarisation, the keys built from them
    differ from each other and from the keys already in the item, and the
    swath filler returns for each. *)
Lemma add_image_assets_spec (E : Externals) (assets : list Asset.t)
    (item item' : Item.t) (s : c.t) :
  run (for_each (add_image_asset E) assets item) s = Ok item'
  <-> exists bands,
        map b_asset bands = assets
        /\ Forall (band_extracted E) bands
        /\ Forall (band_filled E) bands
        /\ NoDup (map band_key bands)
        /\ (forall b, In b bands ->
              dict_contains (band_key b) (Item.assets item) = false)
        /\ item' = with_bands bands item.
Proof.
  revert item. induction assets as [|a r IH]; intros item; simpl.
  - split.
    + intros H. injection H as <-. exists []. simpl.
      repeat split; try constructor. intros b [].
    + intros (bands & Hm & _ & _ & _ & _ & ->).
      destruct bands; [reflexivity|discriminate].
  - rewrite run_bind by apply stateless_add_image_asset.
    split.
    + intros H.
      destruct (run (add_image_asset E a item) s) as [item1|e] eqn:H1;
        [|discriminate].
      apply add_image_asset_spec in H1.
      destruct H1 as (b & Hb & Hx & Hf & Hc & ->).
      apply IH in H.
      destruct H as (bands & Hm & Hxs & Hfs & Hnd & Hfresh & ->).
      exists (b :: bands). simpl. rewrite Hb, Hm.
      split; [reflexivity|].
      split; [constructor; assumption|].
      split; [constructor; assumption|].
      split.
      * constructor; [|exact Hnd].
        intros Hin. apply in_map_iff in Hin. destruct Hin as (b' & Hk & Hin).
        specialize (Hfresh b' Hin). rewrite with_band_contains in Hfresh.
        rewrite Hk, String.eqb_refl in Hfresh. discriminate.
      * split; [|reflexivity].
        intros b' [<-|Hin]; [exact Hc|].
        specialize (Hfresh b' Hin). rewrite with_band_contains in Hfresh.
        apply orb_false_iff in Hfresh. apply Hfresh.
    + intros (bands & Hm & Hxs & Hfs & Hnd & Hfresh & ->).
      destruct bands as [|b bands]; [discriminate|].
      simpl in Hm. injection Hm as Hb Hm.
      inversion Hxs as [|? ? Hx Hxs']; subst.
      inversion Hfs as [|? ? Hf Hfs']; subst.
      inversion Hnd as [|? ? Hnotin Hnd']; subst.
      assert (H1 : run (add_image_asset E (b_asset b) item) s
                   = Ok (with_band item b)).
      { apply add_image_asset_spec. exists b.
        repeat split; try assumption. apply Hfresh. left. reflexivity. }
      rewrite H1. apply IH. exists bands.
      repeat split; try assumption.
      intros b' Hin. rewrite with_band_contains.
      apply orb_false_iff. split.
      * destruct (String.eqb_spec (band_key b') (band_key b)) as [Heq|];
          [|reflexivity].
        exfalso. apply Hnotin. rewrite <- Heq. apply in_map. exact Hin.
      * apply Hfresh. right. exact Hin.
Qed.

(* ================================================================== *)
(** * [create_item] as a whole *)
(* ================================================================== *)

Lemma stateless_build_item (E : Externals) (ml : SLCMetadataLinks.t)
    (pm : SLCProductMetadata.t) (rhm : option ReadHrefModifier)
    (kw : dict Value) :
  stateless (build_item E ml pm rhm kw).
Proof.
  unfold build_item, new_item, add_extensions, add_common_metadata,
    add_s1_properties, add_metadata_assets.
  stateless_tac.
Qed.

Lemma stateless_image_assets (E : Externals) (granule : string)
    (item : Item.t) (mt : option MediaType.t) (paths : list string) :
  stateless (image_assets E granule item mt paths).
Proof. unfold image_assets. stateless_tac. Qed.

(** [create_item] returns an item exactly for well-formed input: no
    exception is caught on the way, and the item returned is the one that
    the assignments of lines 124-252 build. *)
Lemma create_item_spec (E : Externals) (granule : string)
    (rhm : option ReadHrefModifier) (fmt : Format.t) (kw : dict Value)
    (s : c.t) (item : Item.t) :
  run (create_item E granule rhm fmt kw) s = Ok item
  <-> exists ml pm x paths named bands,
        well_formed E granule rhm fmt kw s ml pm x paths named bands
        /\ item = with_slc_links s (with_bands bands (built_item E s ml x)).
Proof.
  unfold create_item, well_formed.
  rewrite run_call.
  split.
  - intros H.
    destruct (new_SLCMetadataLinks E granule rhm fmt kw) as [ml|?] eqn:Hml;
      [|discriminate].
    rewrite run_call in H.
    destruct (new_SLCProductMetadata E _ _ _ _) as [pm|?] eqn:Hpm;
      [|discriminate].
    rewrite run_bind in H by apply stateless_build_item.
    destruct (run (build_item E ml pm rhm kw) s) as [item0|?] eqn:Hb;
      [|discriminate].
    apply build_item_spec in Hb. destruct Hb as (x & Hx & ->).
    cbv zeta in H. rewrite run_call in H.
    destruct (SLCProductMetadata.image_paths pm) as [paths|?] eqn:Hpaths;
      [|discriminate].
    rewrite run_bind in H by apply stateless_image_assets.
    destruct (run (image_assets E granule _ (images_media_type fmt) paths) s)
      as [assets|?] eqn:Hassets; [|discriminate].
    apply image_assets_spec in Hassets. destruct Hassets as (named & Hnamed & ->).
    rewrite run_bind in H
      by (apply stateless_for_each; intros; apply stateless_add_image_asset).
    destruct (run (for_each (add_image_asset E) _ _) s) as [item1|?] eqn:Hloop;
      [|discriminate].
    apply add_image_assets_spec in Hloop.
    destruct Hloop as (bands & Hm & Hxs & Hfs & Hnd & Hfresh & ->).
    rewrite !run_bind_gets in H. unfold run, ret in H. simpl fst in H.
    injection H as <-.
    exists ml, pm, x, paths, named, bands.
    split; [|reflexivity].
    repeat (split; [first [assumption|reflexivity]|]). assumption.
  - intros (ml & pm & x & paths & named & bands & Hwf & ->).
    destruct Hwf as (Hml & Hpm & Hx & Hpaths & Hnamed & Hm & Hxs & Hfs & Hnd
                     & Hfresh).
    rewrite Hml. rewrite run_call, Hpm.
    rewrite run_bind by apply stateless_build_item.
    assert (Hb : run (build_item E ml pm rhm kw) s = Ok (built_item E s ml x)).
    { apply build_item_spec. exists x. split; [exact Hx|reflexivity]. }
    rewrite Hb. cbv zeta. rewrite run_call, Hpaths.
    rewrite run_bind by apply stateless_image_assets.
    assert (Ha : run (image_assets E granule (built_item E s ml x)
                        (images_media_type fmt) paths) s
                 = Ok (dict_of_pairs named)).
    { apply image_assets_spec. exists named. split; [exact Hnamed|reflexivity]. }
    rewrite Ha.
    rewrite run_bind
      by (apply stateless_for_each; intros; apply stateless_add_image_asset).
    assert (Hl : run (for_each (add_image_asset E)
                        (dict_values (dict_of_pairs named))
                        (built_item E s ml x)) s
                 = Ok (with_bands bands (built_item E s ml x))).
    { apply add_image_assets_spec. exists bands.
      repeat (split; [assumption|]). reflexivity. }
    rewrite Hl. reflexivity.
Qed.

(* ================================================================== *)
(** * Strings: slices *)
(* ================================================================== *)

Lemma substring_prefix (p t : string) :
  substring 0 (String.length p) (p ++ t) = p.
Proof.
  induction p as [|ch r IH]; simpl.
  - destruct t; reflexivity.
  - rewrite IH. reflexivity.
Qed.

Lemma length_append (a b : string) :
  String.length (a ++ b) = String.length a + String.length b.
Proof. induction a as [|ch r IH]; simpl; [reflexivity|]. rewrite IH. reflexivity. Qed.

(** [(p + t)[:-n]] is [p] when [t] has [n] characters. *)
Lemma slice_to_neg_app (n : nat) (p t : string) :
  String.length t = n -> slice_to_neg n (p ++ t) = p.
Proof.
  intros Ht. unfold slice_to_neg. rewrite length_append, Ht.
  replace (String.length p + n - n) with (String.length p) by lia.
  apply substring_prefix.
Qed.

Lemma substring_split (k : nat) (s : string) :
  k <= String.length s ->
  exists suffix : string,
    s = (substring 0 k s ++ suffix)%string
    /\ String.length suffix = String.length s - k.
Proof.
  revert k. induction s as [|ch r IH]; intros k Hk; simpl in *.
  - exists "". destruct k; split; reflexivity.
  - destruct k as [|k].
    + exists (String ch r). split; reflexivity.
    + destruct (IH k) as (suffix & Heq & Hlen); [lia|].
      exists suffix. split; [|exact Hlen].
      simpl. rewrite <- Heq. reflexivity.
Qed.

(** [s[:-n]] is [s] without its last [n] characters, or without all of
    them when there are fewer. *)
Lemma slice_to_neg_split (n : nat) (s : string) :
  exists suffix : string,
    s = (slice_to_neg n s ++ suffix)%string
    /\ String.length suffix = Nat.min n (String.length s).
Proof.
  unfold slice_to_neg.
  destruct (substring_split (String.length s - n) s) as (suffix & Heq & Hlen);
    [lia|].
  exists suffix. split; [exact Heq|]. lia.
Qed.

(* ================================================================== *)
(** * The item returned, field by field *)
(* ================================================================== *)

Lemma created_item_frame (E : Externals) (s : c.t) (ml : SLCMetadataLinks.t)
    (x : Extracted) (bands : list Band) :
  let item := with_slc_links s (with_bands bands (built_item E s ml x)) in
  Item.id item = slice_to_neg 5 (x_scene_id x)
  /\ Item.geometry item = x_geometry x
  /\ Item.bbox item = x_bbox x
  /\ Item.datetime_ item = Some (x_datetime x)
  /\ Item.properties item = apply_writes (property_log E s ml x) []
  /\ Item.links item
     = [c.SENTINEL_SLC_LICENSE s; c.SENTINEL_SLC_TECHNICAL_GUIDE s].
Proof.
  cbv zeta. unfold with_slc_links. item_fields.
  destruct (with_bands_frame bands (built_item E s ml x))
    as (H1 & H2 & H3 & H4 & H5 & H6).
  rewrite H1, H2, H3, H4, H5, H6.
  rewrite built_item_id, built_item_geometry, built_item_bbox,
    built_item_datetime, built_item_properties, built_item_links.
  repeat split.
Qed.

(** The value of a property of the item returned is the one of the last
    assignment to its key. *)
Lemma created_item_property (E : Externals) (s : c.t)
    (ml : SLCMetadataLinks.t) (x : Extracted) (bands : list Band)
    (k : string) :
  dict_get k
    (Item.properties (with_slc_links s (with_bands bands (built_item E s ml x))))
  = match last_write k (property_log E s ml x) with
    | Some w => w
    | None => None
    end.
Proof.
  destruct (created_item_frame E s ml x bands) as (_ & _ & _ & _ & -> & _).
  apply dict_get_apply_writes.
Qed.

(* ================================================================== *)
(** * Properties of [create_item] and [create_collection] *)
(* ================================================================== *)

(** C9.  The media type handed to [image_asset_from_href] depends on the
    archive format alone: GeoTIFF for SAFE, COG for COG, none for any other
    value; every image path of the product is turned into an asset by the
    helper called with that media type. *)
Theorem image_media_type_follows_archive_format (E : Externals)
    (granule : string) (rhm : option ReadHrefModifier) (fmt : Format.t)
    (kw : dict Value) (s : c.t) :
  images_media_type Format.SAFE = Some MediaType.GEOTIFF
  /\ images_media_type Format.COG = Some MediaType.COG
  /\ (forall name, images_media_type (Format.Other name) = None)
  /\ (forall item,
        run (create_item E granule rhm fmt kw) s = Ok item ->
        exists ml pm item0 paths named,
          new_SLCMetadataLinks E granule rhm fmt kw = Returns ml
          /\ new_SLCProductMetadata E
               (SLCMetadataLinks.product_metadata_href ml)
               (SLCMetadataLinks.grouped_hrefs ml)
               (SLCMetadataLinks.map_filename ml)
               (SLCMetadataLinks.manifest ml) = Returns pm
          /\ run (build_item E ml pm rhm kw) s = Ok item0
          /\ SLCProductMetadata.image_paths pm = Returns paths
          /\ Forall2
               (fun image_path ka =>
                  image_asset_from_href E (os_path_join granule image_path)
                    item0
                    (match fmt with
                     | Format.SAFE => Some MediaType.GEOTIFF
                     | Format.COG => Some MediaType.COG
                     | Format.Other _ => None
                     end)
                    true = Returns ka)
               paths named).
Proof.
  split; [reflexivity|]. split; [reflexivity|]. split; [reflexivity|].
  intros item H. apply create_item_spec in H.
  destruct H as (ml & pm & x & paths & named & bands & Hwf & _).
  destruct Hwf as (Hml & Hpm & Hx & Hpaths & Hnamed & _).
  exists ml, pm, (built_item E s ml x), paths, named.
  repeat (split; [assumption|]).
  split; [apply build_item_spec; exists x; split; [exact Hx|reflexivity]|].
  split; [exact Hpaths|].
  unfold image_assets_named in Hnamed.
  replace (match fmt with
           | Format.SAFE => Some MediaType.GEOTIFF
           | Format.COG => Some MediaType.COG
           | Format.Other _ => None
           end) with (images_media_type fmt) by (destruct fmt; reflexivity).
  exact Hnamed.
Qed.

Lemma image_media_type_follows_archive_format_witness :
  run (create_item Fixture.externals Fixture.granule_C None Format.COG [])
    Fixture.store = Ok Fixture.item_C
  /\ exists ml pm item0 paths named,
       new_SLCMetadataLinks Fixture.externals Fixture.granule_C None Format.COG []
       = Returns ml
       /\ new_SLCProductMetadata Fixture.externals
            (SLCMetadataLinks.product_metadata_href ml)
            (SLCMetadataLinks.grouped_hrefs ml)
            (SLCMetadataLinks.map_filename ml)
            (SLCMetadataLinks.manifest ml) = Returns pm
       /\ run (build_item Fixture.externals ml pm None []) Fixture.store = Ok item0
       /\ SLCProductMetadata.image_paths pm = Returns paths
       /\ Forall2
            (fun image_path ka =>
               image_asset_from_href Fixture.externals
                 (os_path_join Fixture.granule_C image_path) item0
                 (Some MediaType.COG) true = Returns ka)
            paths named.
Proof.
  split; [vm_compute; reflexivity|].
  apply (proj2 (proj2 (proj2
           (image_media_type_follows_archive_format Fixture.externals
              Fixture.granule_C None Format.COG [] Fixture.store)))
           Fixture.item_C).
  vm_compute. reflexivity.
Defined.

(** Decides the comparisons of string literals in the goal. *)
Ltac decide_string_eqb :=
  repeat match goal with
    | |- context [String.eqb ?a ?b] =>
        let r := eval vm_compute in (String.eqb a b) in
        lazymatch r with
        | true => change (String.eqb a b) with true
        | false => change (String.eqb a b) with false
        end
    end;
  cbv iota.

(** The full scene id is the last value assigned to
    ['s1:product_identifier']. *)
Lemma property_log_product_identifier (E : Externals) (s : c.t)
    (ml : SLCMetadataLinks.t) (x : Extracted) :
  last_write "s1:product_identifier" (property_log E s ml x)
  = Some (Some (VStr (x_scene_id x))).
Proof.
  unfold property_log. rewrite !last_write_app.
  destruct (truthy (processing_stop E ml)); cbn [last_write];
    decide_string_eqb; reflexivity.
Qed.

(** C8.  The item id is the scene id without its last five characters
    (without all of them when the scene id is shorter), the full scene id
    is kept as ['s1:product_identifier'], and two products whose scene ids
    differ only in their last five characters get the same item id. *)
Theorem item_id_is_scene_id_without_last_segment (E : Externals) (s : c.t) :
  (forall granule rhm fmt kw item,
      run (create_item E granule rhm fmt kw) s = Ok item ->
      exists ml pm scene_id (suffix : string),
        new_SLCMetadataLinks E granule rhm fmt kw = Returns ml
        /\ new_SLCProductMetadata E
             (SLCMetadataLinks.product_metadata_href ml)
             (SLCMetadataLinks.grouped_hrefs ml)
             (SLCMetadataLinks.map_filename ml)
             (SLCMetadataLinks.manifest ml) = Returns pm
        /\ SLCProductMetadata.scene_id pm = Returns scene_id
        /\ scene_id = (Item.id item ++ suffix)%string
        /\ String.length suffix = Nat.min 5 (String.length scene_id)
        /\ dict_get "s1:product_identifier" (Item.properties item)
           = Some (VStr scene_id))
  /\ (forall granule1 rhm1 fmt1 kw1 item1 granule2 rhm2 fmt2 kw2 item2
             (scene segment1 segment2 : string),
        run (create_item E granule1 rhm1 fmt1 kw1) s = Ok item1 ->
        run (create_item E granule2 rhm2 fmt2 kw2) s = Ok item2 ->
        dict_get "s1:product_identifier" (Item.properties item1)
        = Some (VStr (scene ++ segment1)) ->
        dict_get "s1:product_identifier" (Item.properties item2)
        = Some (VStr (scene ++ segment2)) ->
        String.length segment1 = 5 ->
        String.length segment2 = 5 ->
        Item.id item1 = scene /\ Item.id item2 = scene).
Proof.
  assert (Hone : forall granule rhm fmt kw item,
             run (create_item E granule rhm fmt kw) s = Ok item ->
             exists ml pm scene_id,
               new_SLCMetadataLinks E granule rhm fmt kw = Returns ml
               /\ new_SLCProductMetadata E
                    (SLCMetadataLinks.product_metadata_href ml)
                    (SLCMetadataLinks.grouped_hrefs ml)
                    (SLCMetadataLinks.map_filename ml)
                    (SLCMetadataLinks.manifest ml) = Returns pm
               /\ SLCProductMetadata.scene_id pm = Returns scene_id
               /\ Item.id item = slice_to_neg 5 scene_id
               /\ dict_get "s1:product_identifier" (Item.properties item)
                  = Some (VStr scene_id)).
  { intros granule rhm fmt kw item H. apply create_item_spec in H.
    destruct H as (ml & pm & x & paths & named & bands & Hwf & ->).
    destruct Hwf as (Hml & Hpm & Hx & _).
    exists ml, pm, (x_scene_id x).
    split; [exact Hml|]. split; [exact Hpm|].
    split; [apply Hx|].
    split; [apply created_item_frame|].
    rewrite created_item_property, property_log_product_identifier.
    reflexivity. }
  split.
  - intros granule rhm fmt kw item H.
    destruct (Hone _ _ _ _ _ H) as (ml & pm & scene_id & Hml & Hpm & Hs & Hid & Hp).
    destruct (slice_to_neg_split 5 scene_id) as (suffix & Heq & Hlen).
    exists ml, pm, scene_id, suffix. rewrite Hid.
    repeat (split; [assumption|]). exact Hp.
  - intros granule1 rhm1 fmt1 kw1 item1 granule2 rhm2 fmt2 kw2 item2
      scene segment1 segment2 H1 H2 Hp1 Hp2 Hl1 Hl2.
    destruct (Hone _ _ _ _ _ H1) as (_ & _ & sid1 & _ & _ & _ & Hid1 & Hq1).
    destruct (Hone _ _ _ _ _ H2) as (_ & _ & sid2 & _ & _ & _ & Hid2 & Hq2).
    rewrite Hp1 in Hq1. injection Hq1 as <-.
    rewrite Hp2 in Hq2. injection Hq2 as <-.
    rewrite Hid1, Hid2.
    split; apply slice_to_neg_app; assumption.
Qed.

Lemma item_id_is_scene_id_without_last_segment_witness :
  (run (create_item Fixture.externals Fixture.granule_A None Format.SAFE [])
     Fixture.store = Ok Fixture.item_A
   /\ run (create_item Fixture.externals Fixture.granule_B None Format.SAFE [])
        Fixture.store = Ok Fixture.item_B)
  /\ Item.id Fixture.item_A
     = "S1A_IW_SLC__1SDV_20150305T051937_20150305T052005_004892_006196"
  /\ Item.id Fixture.item_B
     = "S1A_IW_SLC__1SDV_20150305T051937_20150305T052005_004892_006196".
Proof.
  split; [split; vm_compute; reflexivity|].
  apply (proj2 (item_id_is_scene_id_without_last_segment
                  Fixture.externals Fixture.store)
           Fixture.granule_A None Format.SAFE [] Fixture.item_A
           Fixture.granule_B None Format.SAFE [] Fixture.item_B
           "S1A_IW_SLC__1SDV_20150305T051937_20150305T052005_004892_006196"
           "_ABBB" "_72F1");
    vm_compute; reflexivity.
Defined.

(* ================================================================== *)
(** * The collection *)
(* ================================================================== *)

(** What [create_collection] returns when run on the constants as
    constants.py defines them. *)
Lemma create_collection_computed (p : sentinel1_constants.t)
    (json_path : string) :
  exists collection,
    run (create_collection json_path) (constants.module p) = Ok collection
    /\ Collection.id collection = "sentinel1-slc"
    /\ Collection.title collection = Some "Sentinel-1 SLC"
    /\ Collection.description collection = constants.SENTINEL_SLC_DESCRIPTION
    /\ Collection.extent collection = constants.SENTINEL_SLC_EXTENT
    /\ Collection.keywords collection = Some constants.SENTINEL_SLC_KEYWORDS
    /\ Collection.providers collection
       = Some [sentinel1_constants.SENTINEL_PROVIDER p]
    /\ Collection.stac_extensions collection
       = [get_schema_uri SarExtension; get_schema_uri SatExtension;
          get_schema_uri EOExtension; get_schema_uri ItemAssetsExtension]
    /\ dict_get "constellation" (Collection.summaries collection)
       = Some [VStr (sentinel1_constants.SENTINEL_CONSTELLATION p)]
    /\ dict_get "platform" (Collection.summaries collection)
       = Some (map VStr (sentinel1_constants.SENTINEL_PLATFORMS p))
    /\ (forall key values,
          In (key, values) constants.SENTINEL_SLC_SAR ->
          dict_get ("sar:" ++ key) (Collection.summaries collection)
          = Some values)
    /\ (forall key values,
          In (key, values) constants.SENTINEL_SLC_SAT ->
          dict_get ("sat:" ++ key) (Collection.summaries collection)
          = Some values)
    /\ dict_get "item_assets" (Collection.extra_fields collection)
       = Some (VDict (map (fun kd => (fst kd, VDict (snd kd)))
                        constants.SENTINEL_SLC_ASSETS))
    /\ Collection.links collection
       = [Link.root; Link.self_href json_path;
          constants.SENTINEL_SLC_LICENSE;
          constants.SENTINEL_SLC_TECHNICAL_GUIDE].
Proof.
  destruct (run (create_collection json_path) (constants.module p))
    as [collection|e] eqn:H; vm_compute in H; [|discriminate H].
  injection H as <-.
  eexists. split; [reflexivity|].
  repeat (split; [reflexivity|]).
  split.
  { intros key values Hin. simpl in Hin.
    repeat (destruct Hin as [Heq|Hin];
            [injection Heq as <- <-; reflexivity|]).
    contradiction. }
  split.
  { intros key values Hin. simpl in Hin.
    repeat (destruct Hin as [Heq|Hin];
            [injection Heq as <- <-; reflexivity|]).
    contradiction. }
  split; reflexivity.
Qed.

(** C6.  For every [json_path], [create_collection] returns the collection
    ['sentinel1-slc'] with the world-wide spatial extent, the temporal
    extent open-ended from 2014-10-10T00:00:00Z, the SAR, Satellite and EO
    schemas among its extensions, the SAR and orbit-state summaries of the
    constants module, the item-asset definitions of the constants module,
    and the license and technical-guide links appended to its links. *)
Theorem create_collection_returns_the_slc_collection
    (p : sentinel1_constants.t) (json_path : string) :
  exists collection,
    run (create_collection json_path) (constants.module p) = Ok collection
    /\ Collection.id collection = "sentinel1-slc"
    /\ Extent.bboxes (Collection.extent collection)
       = [[Dec (-1800) (-1); Dec (-900) (-1); Dec 1800 (-1); Dec 900 (-1)]]
    /\ (exists start,
          str_to_datetime "2014-10-10T00:00:00Z" = Some start
          /\ Extent.intervals (Collection.extent collection)
             = [(Some start, None)])
    /\ In (get_schema_uri SarExtension) (Collection.stac_extensions collection)
    /\ In (get_schema_uri SatExtension) (Collection.stac_extensions collection)
    /\ In (get_schema_uri EOExtension) (Collection.stac_extensions collection)
    /\ (forall key values,
          In (key, values) constants.SENTINEL_SLC_SAR ->
          dict_get ("sar:" ++ key) (Collection.summaries collection)
          = Some values)
    /\ dict_get "sat:orbit_state" (Collection.summaries collection)
       = dict_get "orbit_state" constants.SENTINEL_SLC_SAT
    /\ dict_get "sat:orbit_state" (Collection.summaries collection)
       = Some [VStr "ascending"; VStr "descending"]
    /\ dict_get "item_assets" (Collection.extra_fields collection)
       = Some (VDict (map (fun kd => (fst kd, VDict (snd kd)))
                        constants.SENTINEL_SLC_ASSETS))
    /\ (exists links,
          Collection.links collection
          = links ++ [constants.SENTINEL_SLC_LICENSE;
                      constants.SENTINEL_SLC_TECHNICAL_GUIDE]).
Proof.
  destruct (create_collection_computed p json_path)
    as (collection & Hrun & Hid & _ & _ & Hextent & _ & _ & Hexts & _ & _
        & Hsar & Hsat & Hassets & Hlinks).
  assert (Horbit : dict_get "sat:orbit_state" (Collection.summaries collection)
                   = Some [VStr "ascending"; VStr "descending"])
    by exact (Hsat "orbit_state" _ (or_introl eq_refl)).
  exists collection.
  split; [exact Hrun|]. split; [exact Hid|].
  rewrite Hextent, Hexts, Hlinks, Horbit.
  split; [reflexivity|].
  split; [exists constants.SENTINEL_SLC_START; split; reflexivity|].
  split; [simpl; tauto|]. split; [simpl; tauto|]. split; [simpl; tauto|].
  split; [exact Hsar|].
  split; [reflexivity|]. split; [reflexivity|].
  split; [exact Hassets|].
  exists [Link.root; Link.self_href json_path]. reflexivity.
Qed.

(** C1.  When [create_item] returns, the geometry, the bounding box and
    the datetime of the item are the ones extracted from the product's
    metadata; it does return when the metadata are well-formed; and
    [create_collection] returns the collection of the Sentinel-1 SLC
    product family. *)
Theorem create_item_reports_product_metadata (E : Externals)
    (granule : string) (rhm : option ReadHrefModifier) (fmt : Format.t)
    (kw : dict Value) (s : c.t) :
  (forall item,
      run (create_item E granule rhm fmt kw) s = Ok item ->
      exists ml pm geometry bbox datetime,
        new_SLCMetadataLinks E granule rhm fmt kw = Returns ml
        /\ new_SLCProductMetadata E
             (SLCMetadataLinks.product_metadata_href ml)
             (SLCMetadataLinks.grouped_hrefs ml)
             (SLCMetadataLinks.map_filename ml)
             (SLCMetadataLinks.manifest ml) = Returns pm
        /\ SLCProductMetadata.geometry pm = Returns geometry
        /\ SLCProductMetadata.bbox pm = Returns bbox
        /\ SLCProductMetadata.get_datetime pm = Returns datetime
        /\ Item.geometry item = geometry
        /\ Item.bbox item = bbox
        /\ Item.datetime_ item = Some datetime)
  /\ (forall ml pm x paths named bands,
        well_formed E granule rhm fmt kw s ml pm x paths named bands ->
        exists item,
          run (create_item E granule rhm fmt kw) s = Ok item
          /\ Item.geometry item = x_geometry x
          /\ Item.bbox item = x_bbox x
          /\ Item.datetime_ item = Some (x_datetime x))
  /\ (forall json_path,
        exists collection,
          run (create_collection json_path)
            (constants.module (parent_constants E)) = Ok collection
          /\ Collection.id collection = "sentinel1-slc"
          /\ Collection.title collection = Some "Sentinel-1 SLC"
          /\ Collection.description collection
             = constants.SENTINEL_SLC_DESCRIPTION
          /\ dict_get "sar:product_type" (Collection.summaries collection)
             = Some [VStr "SLC"]).
Proof.
  split; [|split].
  - intros item H. apply create_item_spec in H.
    destruct H as (ml & pm & x & paths & named & bands & Hwf & ->).
    destruct Hwf as (Hml & Hpm & Hx & _).
    destruct Hx as (_ & Hg & Hb & Hd & _).
    destruct (created_item_frame E s ml x bands) as (_ & Hg' & Hb' & Hd' & _).
    exists ml, pm, (x_geometry x), (x_bbox x), (x_datetime x).
    repeat (split; [assumption|]). assumption.
  - intros ml pm x paths named bands Hwf.
    exists (with_slc_links s (with_bands bands (built_item E s ml x))).
    split.
    + apply create_item_spec. exists ml, pm, x, paths, named, bands.
      split; [exact Hwf|reflexivity].
    + destruct (created_item_frame E s ml x bands) as (_ & Hg' & Hb' & Hd' & _).
      repeat split; assumption.
  - intros json_path.
    destruct (create_collection_computed (parent_constants E) json_path)
      as (collection & Hrun & Hid & Htitle & Hdescr & _ & _ & _ & _ & _ & _
          & Hsar & _).
    exists collection.
    repeat (split; [assumption|]).
    apply (Hsar "product_type"). simpl. tauto.
Qed.

Lemma create_item_reports_product_metadata_witness :
  run (create_item Fixture.externals Fixture.granule_A None Format.SAFE [])
    Fixture.store = Ok Fixture.item_A
  /\ exists ml pm geometry bbox datetime,
       new_SLCMetadataLinks Fixture.externals Fixture.granule_A None
         Format.SAFE [] = Returns ml
       /\ new_SLCProductMetadata Fixture.externals
            (SLCMetadataLinks.product_metadata_href ml)
            (SLCMetadataLinks.grouped_hrefs ml)
            (SLCMetadataLinks.map_filename ml)
            (SLCMetadataLinks.manifest ml) = Returns pm
       /\ SLCProductMetadata.geometry pm = Returns geometry
       /\ SLCProductMetadata.bbox pm = Returns bbox
       /\ SLCProductMetadata.get_datetime pm = Returns datetime
       /\ Item.geometry Fixture.item_A = geometry
       /\ Item.bbox Fixture.item_A = bbox
       /\ Item.datetime_ Fixture.item_A = Some datetime.
Proof.
  split; [vm_compute; reflexivity|].
  apply (proj1 (create_item_reports_product_metadata Fixture.externals
                  Fixture.granule_A None Format.SAFE [] Fixture.store)
           Fixture.item_A).
  vm_compute. reflexivity.
Defined.

(* ================================================================== *)
(** * The properties and extensions of the item *)
(* ================================================================== *)

Lemma add_if_missing_keeps (x : Extension) (u : string) (exts : list string) :
  In u exts -> In u (add_if_missing x exts).
Proof.
  intros H. unfold add_if_missing.
  destruct (mem_string (get_schema_uri x) exts); [exact H|].
  apply in_or_app. left. exact H.
Qed.

Lemma with_bands_keeps_extension (u : string) (bands : list Band)
    (item : Item.t) :
  In u (Item.stac_extensions item) ->
  In u (Item.stac_extensions (with_bands bands item)).
Proof.
  revert item. induction bands as [|b r IH]; intros item H.
  - exact H.
  - unfold with_bands in *. simpl. apply IH.
    unfold with_band. item_fields. apply add_if_missing_keeps. exact H.
Qed.

(** The item returned lists the schemas of the SAR, Satellite, EO and
    Projection extensions. *)
Lemma created_item_extensions (E : Externals) (s : c.t)
    (ml : SLCMetadataLinks.t) (x : Extracted) (bands : list Band)
    (ext : Extension) :
  In ext [SarExtension; AssetSarExtension; SatExtension; EOExtension;
          ProjectionExtension] ->
  In (get_schema_uri ext)
    (Item.stac_extensions
       (with_slc_links s (with_bands bands (built_item E s ml x)))).
Proof.
  intros Hext. unfold with_slc_links. item_fields.
  apply with_bands_keeps_extension. rewrite built_item_stac_extensions.
  simpl in Hext. simpl.
  repeat (destruct Hext as [<-|Hext]; [tauto|]). contradiction.
Qed.





(* ================================================================== *)
(** * The image assets of the item *)
(* ================================================================== *)





Lemma with_bands_get_other (k : string) (bands : list Band) (item : Item.t) :
  ~ In k (map band_key bands) ->
  dict_get k (Item.assets (with_bands bands item))
  = dict_get k (Item.assets item).
Proof.
  revert item. induction bands as [|b r IH]; intros item H.
  - reflexivity.
  - unfold with_bands in *. simpl. rewrite IH.
    + rewrite with_band_get.
      destruct (String.eqb_spec k (band_key b)) as [->|]; [|reflexivity].
      exfalso. apply H. left. reflexivity.
    + intros Hin. apply H. right. exact Hin.
Qed.



(* ================================================================== *)
(** * The assertion on the asset keys *)
(* ================================================================== *)







(** [create_item] ends as the loop over the image assets ends. *)
Lemma create_item_ends_as_loop (E : Externals) (granule : string)
    (rhm : option ReadHrefModifier) (fmt : Format.t) (kw : dict Value)
    (s : c.t) (ml : SLCMetadataLinks.t) (pm : SLCProductMetadata.t)
    (item0 : Item.t) (paths : list string) (assets : dict Asset.t) :
  new_SLCMetadataLinks E granule rhm fmt kw = Returns ml ->
  new_SLCProductMetadata E
    (SLCMetadataLinks.product_metadata_href ml)
    (SLCMetadataLinks.grouped_hrefs ml)
    (SLCMetadataLinks.map_filename ml)
    (SLCMetadataLinks.manifest ml) = Returns pm ->
  run (build_item E ml pm rhm kw) s = Ok item0 ->
  SLCProductMetadata.image_paths pm = Returns paths ->
  run (image_assets E granule item0 (images_media_type fmt) paths) s
  = Ok assets ->
  run (create_item E granule rhm fmt kw) s
  = match run (for_each (add_image_asset E) (dict_values assets) item0) s with
    | Ok item => Ok (with_slc_links s item)
    | Err e => Err e
    end.
Proof.
  intros Hml Hpm Hbuild Hpaths Hassets. unfold create_item.
  rewrite run_call, Hml, run_call, Hpm.
  rewrite run_bind, Hbuild by apply stateless_build_item.
  cbv zeta. rewrite run_call, Hpaths.
  rewrite run_bind, Hassets by apply stateless_image_assets.
  rewrite run_bind
    by (apply stateless_for_each; intros; apply stateless_add_image_asset).
  destruct (run (for_each (add_image_asset E) (dict_values assets) item0) s);
    reflexivity.
Qed.


Lemma add_asset_keys (k key : string) (asset : Asset.t) (item : Item.t) :
  In k (dict_keys (Item.assets (Item.add_asset key asset item))) ->
  k = key \/ In k (dict_keys (Item.assets item)).
Proof.
  unfold Item.add_asset. item_fields.
  generalize (Asset.set_owner (Item.id item) asset) as v.
  generalize (Item.assets item) as d.
  induction d as [|[k0 v0] r IH]; intros v; simpl.
  - intros [<-|[]]. left. reflexivity.
  - destruct (String.eqb_spec key k0) as [->|Hne]; simpl.
    + intros [<-|Hin]; [left; reflexivity|right; right; exact Hin].
    + intros [<-|Hin]; [right; left; reflexivity|].
      destruct (IH v Hin) as [->|Hin']; [left; reflexivity|right; right; exact Hin'].
Qed.

Lemma add_assets_keys (k : string) (assets : list (string * Asset.t))
    (item : Item.t) :
  In k (dict_keys (Item.assets (add_assets assets item))) ->
  In k (dict_keys (Item.assets item)) \/ In k (map fst assets).
Proof.
  revert item. induction assets as [|[key a] r IH]; intros item H.
  - left. exact H.
  - unfold add_assets in *. simpl in *.
    destruct (IH _ H) as [Hin|Hin].
    + apply add_asset_keys in Hin.
      destruct Hin as [->|Hin]; [right; left; reflexivity|left; exact Hin].
    + right. right. exact Hin.
Qed.

(** The keys of the assets before the image assets are added: the ones of
    the manifest, annotation, calibration and noise assets, and
    ['thumbnail'] when there is a thumbnail. *)
Lemma built_item_asset_keys (E : Externals) (s : c.t)
    (ml : SLCMetadataLinks.t) (x : Extracted) (k : string) :
  In k (dict_keys (Item.assets (built_item E s ml x))) ->
  In k (fst (x_manifest_asset x)
        :: (map fst (x_product_assets x)
            ++ map fst (x_calibration_assets x)
            ++ map fst (x_noise_assets x))
        ++ match SLCMetadataLinks.thumbnail_href ml with
           | Some _ => ["thumbnail"]
           | None => []
           end).
Proof.
  unfold built_item. cbv zeta. intros H.
  assert (Hbase : forall item,
             Item.assets item = [] ->
             In k (dict_keys
                     (Item.assets
                        (add_assets (x_noise_assets x)
                           (add_assets (x_calibration_assets x)
                              (add_assets (x_product_assets x)
                                 (Item.add_asset (fst (x_manifest_asset x))
                                    (snd (x_manifest_asset x)) item)))))) ->
             In k (fst (x_manifest_asset x)
                   :: map fst (x_product_assets x)
                   ++ map fst (x_calibration_assets x)
                   ++ map fst (x_noise_assets x))).
  { intros item Hempty Hin.
    apply add_assets_keys in Hin. destruct Hin as [Hin|Hin];
      [|right; rewrite !in_app_iff; tauto].
    apply add_assets_keys in Hin. destruct Hin as [Hin|Hin];
      [|right; rewrite !in_app_iff; tauto].
    apply add_assets_keys in Hin. destruct Hin as [Hin|Hin];
      [|right; rewrite !in_app_iff; tauto].
    apply add_asset_keys in Hin. destruct Hin as [->|Hin];
      [left; reflexivity|].
    rewrite Hempty in Hin. contradiction. }
  change (fst (x_manifest_asset x)
          :: (map fst (x_product_assets x)
              ++ map fst (x_calibration_assets x)
              ++ map fst (x_noise_assets x))
          ++ match SLCMetadataLinks.thumbnail_href ml with
             | Some _ => ["thumbnail"]
             | None => []
             end)
    with ((fst (x_manifest_asset x)
           :: map fst (x_product_assets x)
           ++ map fst (x_calibration_assets x)
           ++ map fst (x_noise_assets x))
          ++ match SLCMetadataLinks.thumbnail_href ml with
             | Some _ => ["thumbnail"]
             | None => []
             end).
  apply in_or_app.
  destruct (SLCMetadataLinks.thumbnail_href ml) as [href|].
  - apply add_asset_keys in H. destruct H as [->|H];
      [right; left; reflexivity|left].
    eapply Hbase; [|exact H].
    destruct (truthy (processing_stop E ml)); reflexivity.
  - left. eapply Hbase; [|exact H].
    destruct (truthy (processing_stop E ml)); reflexivity.
Qed.

(* ================================================================== *)
(** * Failure and the optional parts *)
(* ================================================================== *)

(** C2, as stated, makes the platform a required field: a product whose
    metadata name no platform would make [create_item] fail.  The third
    granule has no platform, and [create_item] returns its item. *)
Lemma platform_is_required_counterexample :
  ~ (forall (E : Externals) granule rhm fmt kw s ml pm,
        new_SLCMetadataLinks E granule rhm fmt kw = Returns ml ->
        new_SLCProductMetadata E
          (SLCMetadataLinks.product_metadata_href ml)
          (SLCMetadataLinks.grouped_hrefs ml)
          (SLCMetadataLinks.map_filename ml)
          (SLCMetadataLinks.manifest ml) = Returns pm ->
        SLCProductMetadata.platform pm = Returns None ->
        exists e, run (create_item E granule rhm fmt kw) s = Err e).
Proof.
  intros H.
  destruct (H Fixture.externals Fixture.granule_C None Format.COG []
              Fixture.store Fixture.metalinks_C Fixture.product_metadata_C)
    as (e & He); try (vm_compute; reflexivity).
  vm_compute in He. discriminate He.
Qed.

(** C2, amended.  [create_item] catches no exception: it returns an item
    only when every required call returned and the asset keys are new
    (otherwise the caller gets an exception and no item), and the
    exception of a helper is the exception of [create_item].  The stop
    time of the 'SLC Post Processing' record, the thumbnail href and the
    platform are not required: with all three absent [create_item] still
    returns, and the item then has no platform of its own, no
    ['s1:processing_datetime'] of its own and no thumbnail of its own. *)
Theorem create_item_fails_unless_required_parts_are_present (E : Externals)
    (granule : string) (rhm : option ReadHrefModifier) (fmt : Format.t)
    (kw : dict Value) (s : c.t) :
  (forall item,
      run (create_item E granule rhm fmt kw) s = Ok item ->
      exists ml pm x paths named bands,
        well_formed E granule rhm fmt kw s ml pm x paths named bands)
  /\ (~ (exists ml pm x paths named bands,
           well_formed E granule rhm fmt kw s ml pm x paths named bands) ->
      exists e, run (create_item E granule rhm fmt kw) s = Err e)
  /\ (forall exc,
        new_SLCMetadataLinks E granule rhm fmt kw = Raises exc ->
        run (create_item E granule rhm fmt kw) s = Err (Raised exc))
  /\ (forall ml exc,
        new_SLCMetadataLinks E granule rhm fmt kw = Returns ml ->
        new_SLCProductMetadata E
          (SLCMetadataLinks.product_metadata_href ml)
          (SLCMetadataLinks.grouped_hrefs ml)
          (SLCMetadataLinks.map_filename ml)
          (SLCMetadataLinks.manifest ml) = Raises exc ->
        run (create_item E granule rhm fmt kw) s = Err (Raised exc))
  /\ (forall ml pm e,
        new_SLCMetadataLinks E granule rhm fmt kw = Returns ml ->
        new_SLCProductMetadata E
          (SLCMetadataLinks.product_metadata_href ml)
          (SLCMetadataLinks.grouped_hrefs ml)
          (SLCMetadataLinks.map_filename ml)
          (SLCMetadataLinks.manifest ml) = Returns pm ->
        run (build_item E ml pm rhm kw) s = Err e ->
        run (create_item E granule rhm fmt kw) s = Err e)
  /\ (forall ml pm x paths named bands,
        well_formed E granule rhm fmt kw s ml pm x paths named bands ->
        SLCMetadataLinks.thumbnail_href ml = None ->
        processing_stop E ml = None ->
        x_platform x = None ->
        exists item,
          run (create_item E granule rhm fmt kw) s = Ok item
          /\ (dict_get "platform" (x_metadata_dict x) = None ->
              dict_get "platform" (Item.properties item) = None)
          /\ (dict_get "s1:processing_datetime" (x_metadata_dict x) = None ->
              last_write "s1:processing_datetime"
                (x_sar x ++ x_sat x ++ x_processing x) = None ->
              dict_get "s1:processing_datetime" (Item.properties item) = None)
          /\ (~ In "thumbnail"
                  (fst (x_manifest_asset x)
                   :: map fst (x_product_assets x)
                   ++ map fst (x_calibration_assets x)
                   ++ map fst (x_noise_assets x)
                   ++ map band_key bands) ->
              dict_get "thumbnail" (Item.assets item) = None)).
Proof.
  split; [|split; [|split; [|split; [|split]]]].
  - intros item H. apply create_item_spec in H.
    destruct H as (ml & pm & x & paths & named & bands & Hwf & _).
    exists ml, pm, x, paths, named, bands. exact Hwf.
  - intros Hnot.
    destruct (run (create_item E granule rhm fmt kw) s) as [item|e] eqn:H.
    + exfalso. apply Hnot. apply create_item_spec in H.
      destruct H as (ml & pm & x & paths & named & bands & Hwf & _).
      exists ml, pm, x, paths, named, bands. exact Hwf.
    + exists e. reflexivity.
  - intros exc H. unfold create_item. rewrite run_call, H. reflexivity.
  - intros ml exc Hml H. unfold create_item.
    rewrite run_call, Hml, run_call, H. reflexivity.
  - intros ml pm e Hml Hpm H. unfold create_item.
    rewrite run_call, Hml, run_call, Hpm.
    rewrite run_bind, H by apply stateless_build_item. reflexivity.
  - intros ml pm x paths named bands Hwf Hthumb Hstop Hplat.
    exists (with_slc_links s (with_bands bands (built_item E s ml x))).
    split.
    { apply create_item_spec. exists ml, pm, x, paths, named, bands.
      split; [exact Hwf|reflexivity]. }
    split.
    { intros Hmd. rewrite created_item_property. unfold property_log.
      rewrite !last_write_app, Hstop, Hplat.
      rewrite (last_write_entries_none _ _ _ Hmd).
      cbn [truthy last_write option_map]. decide_string_eqb. reflexivity. }
    split.
    { intros Hmd Hfill. rewrite created_item_property. unfold property_log.
      rewrite !last_write_app, Hstop.
      rewrite (last_write_entries_none _ _ _ Hmd).
      rewrite !last_write_app in Hfill.
      cbn [truthy last_write]. decide_string_eqb.
      destruct (last_write "s1:processing_datetime" (x_processing x));
        [discriminate Hfill|].
      destruct (last_write "s1:processing_datetime" (x_sat x));
        [discriminate Hfill|].
      rewrite Hfill. reflexivity. }
    intros Hnot. unfold with_slc_links. item_fields.
    rewrite with_bands_get_other
      by (intros Hin; apply Hnot; right; rewrite !in_app_iff; tauto).
    apply dict_get_not_key. intros Hin. apply Hnot.
    apply (built_item_asset_keys E s ml x) in Hin.
    rewrite Hthumb in Hin. rewrite app_nil_r in Hin.
    destruct Hin as [Hin|Hin]; [left; exact Hin|right].
    rewrite !in_app_iff in *. tauto.
Qed.

(* ================================================================== *)
(** * The theorems at work on the sample granules *)
(* ================================================================== *)



Lemma create_item_fails_unless_required_parts_are_present_witness :
  run (create_item Fixture.externals Fixture.granule_C None Format.COG [])
    Fixture.store = Ok Fixture.item_C
  /\ exists ml pm x paths named bands,
       well_formed Fixture.externals Fixture.granule_C None Format.COG []
         Fixture.store ml pm x paths named bands.
Proof.
  split; [vm_compute; reflexivity|].
  apply (proj1 (create_item_fails_unless_required_parts_are_present
                  Fixture.externals Fixture.granule_C None Format.COG []
                  Fixture.store)
           Fixture.item_C).
  vm_compute. reflexivity.
Defined.





(** Two measurement files of one swath and polarisation: when the helper
    names their assets differently the assertion stops [create_item]; when
    it names them alike, [dict] keeps the last of them and [create_item]
    returns an item with this one image asset. *)
Example repeated_pair_raises :
  run (create_item Fixture.externals_by_href Fixture.granule_D None
         Format.SAFE [])
    Fixture.store = Err AssertionError.
Proof. vm_compute. reflexivity. Qed.

Example same_name_keeps_last :
  exists item,
    run (create_item Fixture.externals Fixture.granule_D None Format.SAFE [])
      Fixture.store = Ok item
    /\ dict_keys (Item.assets item)
       = ["safe-manifest"; "schema-product-iw1-vv"; "schema-product-iw1-vh";
          "schema-calibration-iw1-vv"; "schema-noise-iw1-vv"; "iw1-vv"]
    /\ option_map Asset.href (dict_get "iw1-vv" (Item.assets item))
       = Some (os_path_join Fixture.granule_D
                 "measurement/s1a-iw1-slc-vv-20170101t000000-20170101t000027-014600-017c00-004.tiff").
Proof.
  eexists. split; [vm_compute; reflexivity|].
  split; vm_compute; reflexivity.
Qed.

(** A missing granule: the helper's exception is the result. *)
Example missing_granule_raises :
  run (create_item Fixture.externals "nowhere.SAFE" None Format.SAFE [])
    Fixture.store = Err (Raised "FileNotFoundError").
Proof. vm_compute. reflexivity. Qed.

(** The platform and the stop time are absent from the third granule. *)
Example item_without_platform :
  dict_get "platform" (Item.properties Fixture.item_C) = None
  /\ dict_get "s1:processing_datetime" (Item.properties Fixture.item_C) = None
  /\ dict_get "thumbnail" (Item.assets Fixture.item_C) = None
  /\ dict_get "platform" (Item.properties Fixture.item_A)
     = Some (VStr "sentinel-1a").
Proof. repeat split; vm_compute; reflexivity. Qed.

Example slices :
  slice_to_neg 5 "S1A_0001_ABBB" = "S1A_0001"
  /\ slice_to_neg 5 "ABBB" = ""
  /\ lower "SENTINEL-1A" = "sentinel-1a"
  /\ upper "iw1" = "IW1"
  /\ os_path_join "a.SAFE" "measurement/x.tiff" = "a.SAFE/measurement/x.tiff"
  /\ os_path_join "a.SAFE/" "x.tiff" = "a.SAFE/x.tiff"
  /\ os_path_join "a.SAFE" "/x.tiff" = "/x.tiff".
Proof. repeat split; reflexivity. Qed.

(* ================================================================== *)
(** * Further lemmas on the monad and on dictionaries *)
(* ================================================================== *)

Lemma run_bind_getitem (V B : Type) (k : string) (d : dict V)
    (f : V -> M B) (s : c.t) :
  run (bind (getitem k d) f) s
  = match dict_get k d with
    | Some v => run (f v) s
    | None => Err (KeyError k)
    end.
Proof. unfold getitem. destruct (dict_get k d); reflexivity. Qed.

Lemma last_binding_map (V W : Type) (f : V -> W) (k : string)
    (l : list (string * V)) :
  last_binding k (map (fun kv => (fst kv, f (snd kv))) l)
  = option_map f (last_binding k l).
Proof.
  induction l as [|[k0 v0] r IH]; simpl.
  - reflexivity.
  - rewrite IH. destruct (last_binding k r); simpl; [reflexivity|].
    destruct (String.eqb k k0); reflexivity.
Qed.

Lemma last_binding_in (V : Type) (k : string) (v : V) (l : list (string * V)) :
  last_binding k l = Some v -> In (k, v) l.
Proof.
  induction l as [|[k0 v0] r IH]; simpl; intros H.
  - discriminate.
  - destruct (last_binding k r) as [w|].
    + right. apply IH. exact H.
    + destruct (String.eqb_spec k k0) as [->|]; [|discriminate].
      left. congruence.
Qed.

Lemma last_binding_none (V : Type) (k : string) (l : list (string * V)) :
  last_binding k l = None <-> ~ In k (map fst l).
Proof.
  induction l as [|[k0 v0] r IH]; simpl.
  - split; [intros _ []|reflexivity].
  - destruct (last_binding k r) as [w|].
    + split; [discriminate|]. intros H. exfalso. apply H. right.
      destruct IH as [_ IH].
      destruct (in_dec string_dec k (map fst r)) as [Hin|Hnot]; [exact Hin|].
      specialize (IH Hnot). discriminate.
    + destruct (String.eqb_spec k k0) as [->|Hne].
      * split; [discriminate|]. intros H. exfalso. apply H. left. reflexivity.
      * split; [|reflexivity]. intros _ [Heq|Hin]; [congruence|].
        apply (proj1 IH eq_refl). exact Hin.
Qed.

(** [d.update(pairs)]: a key has the value the pairs give it last, or
    the value it had. *)
Lemma dict_get_update (V : Type) (k : string) (src : list (string * V))
    (d : dict V) :
  dict_get k (dict_update src d)
  = match last_binding k src with
    | Some v => Some v
    | None => dict_get k d
    end.
Proof.
  rewrite dict_update_writes, dict_get_apply_writes.
  replace (last_write k (map (fun kv => (fst kv, Some (snd kv))) src))
    with (option_map (@Some V) (last_binding k src)).
  - destruct (last_binding k src); reflexivity.
  - induction src as [|[k0 v0] r IH]; simpl; [reflexivity|].
    rewrite <- IH. destruct (last_binding k r); simpl; [reflexivity|].
    destruct (String.eqb k k0); reflexivity.
Qed.

Lemma dict_update_app (V : Type) (a b : list (string * V)) (d : dict V) :
  dict_update (a ++ b) d = dict_update b (dict_update a d).
Proof. unfold dict_update. apply fold_left_app. Qed.

Lemma dict_set_keys (V : Type) (k k' : string) (v : V) (d : dict V) :
  In k (dict_keys (dict_set k' v d)) <-> k = k' \/ In k (dict_keys d).
Proof.
  induction d as [|[k0 v0] r IH]; simpl.
  - intuition.
  - destruct (String.eqb_spec k' k0) as [->|Hne]; simpl.
    + intuition.
    + rewrite IH. intuition.
Qed.

(** Assigning to a key keeps the keys of a dictionary distinct. *)
Lemma dict_set_nodup (V : Type) (k : string) (v : V) (d : dict V) :
  NoDup (dict_keys d) -> NoDup (dict_keys (dict_set k v d)).
Proof.
  induction d as [|[k0 v0] r IH]; simpl; intros H.
  - constructor; [intros []|constructor].
  - inversion H as [|? ? Hnotin Hnd]; subst.
    destruct (String.eqb_spec k k0) as [->|Hne]; simpl.
    + constructor; assumption.
    + constructor; [|apply IH; exact Hnd].
      intros Hin. apply dict_set_keys in Hin.
      destruct Hin as [Heq|Hin]; [congruence|contradiction].
Qed.

Lemma dict_update_nodup (V : Type) (src : list (string * V)) (d : dict V) :
  NoDup (dict_keys d) -> NoDup (dict_keys (dict_update src d)).
Proof.
  revert d. induction src as [|[k v] r IH]; intros d H.
  - exact H.
  - unfold dict_update in *. simpl. apply IH. apply dict_set_nodup. exact H.
Qed.

Lemma dict_set_length (V : Type) (k : string) (v : V) (d : dict V) :
  length (dict_set k v d) <= S (length d).
Proof.
  induction d as [|[k0 v0] r IH]; simpl.
  - lia.
  - destruct (String.eqb k k0); simpl; lia.
Qed.

Lemma dict_update_length (V : Type) (src : list (string * V)) (d : dict V) :
  length (dict_update src d) <= length src + length d.
Proof.
  revert d. induction src as [|[k v] r IH]; intros d.
  - simpl. lia.
  - unfold dict_update in *. simpl. specialize (IH (dict_set k v d)).
    pose proof (dict_set_length V k v d). lia.
Qed.

Lemma dict_get_key (V : Type) (k : string) (v : V) (d : dict V) :
  dict_get k d = Some v -> In k (dict_keys d).
Proof.
  intros H. apply dict_get_in in H. unfold dict_keys.
  apply (in_map fst d (k, v)). exact H.
Qed.

Lemma last_write_entries (V : Type) (k : string) (d : list (string * V)) :
  last_write k (map (fun kv => (fst kv, Some (snd kv))) d)
  = option_map (@Some V) (last_binding k d).
Proof.
  induction d as [|[k0 v0] r IH]; simpl; [reflexivity|].
  rewrite IH. destruct (last_binding k r); simpl; [reflexivity|].
  destruct (String.eqb k k0); reflexivity.
Qed.

(** A loop over two lists in a row is the loop over the first followed by
    the loop over the second. *)
Lemma for_each_app (A S : Type) (body : A -> S -> M S) (xs ys : list A)
    (st : S) (s : c.t) :
  (forall x st', stateless (body x st')) ->
  run (for_each body (xs ++ ys) st) s
  = match run (for_each body xs st) s with
    | Ok st' => run (for_each body ys st') s
    | Err e => Err e
    end.
Proof.
  intros Hb. revert st. induction xs as [|x r IH]; intros st; simpl.
  - reflexivity.
  - rewrite !run_bind by apply Hb.
    destruct (run (body x st) s); [apply IH|reflexivity].
Qed.

Lemma dict_get_of_key (V : Type) (k : string) (d : dict V) :
  In k (dict_keys d) -> exists v, dict_get k d = Some v.
Proof.
  induction d as [|[k0 v0] r IH]; simpl; intros H.
  - contradiction.
  - destruct (String.eqb_spec k k0) as [->|Hne].
    + exists v0. reflexivity.
    + destruct H as [Heq|Hin]; [congruence|]. apply IH. exact Hin.
Qed.

(* ================================================================== *)
(** * Further properties: links, extensions and assets of the item *)
(* ================================================================== *)

Lemma add_if_missing_present (x : Extension) (exts : list string) :
  In (get_schema_uri x) exts -> add_if_missing x exts = exts.
Proof.
  intros H. unfold add_if_missing.
  apply mem_string_in in H. rewrite H. reflexivity.
Qed.

(** The loop over the image assets adds no schema to an item that lists
    the SAR schema. *)
Lemma with_bands_stac_extensions (bands : list Band) (item : Item.t) :
  In (get_schema_uri AssetSarExtension) (Item.stac_extensions item) ->
  Item.stac_extensions (with_bands bands item) = Item.stac_extensions item.
Proof.
  revert item. induction bands as [|b r IH]; intros item H.
  - reflexivity.
  - unfold with_bands in *. simpl.
    assert (Hstep : Item.stac_extensions (with_band item b)
                    = Item.stac_extensions item).
    { unfold with_band. item_fields. apply add_if_missing_present. exact H. }
    rewrite IH; rewrite Hstep; [reflexivity|exact H].
Qed.

(** X1.  The item returned carries exactly two links, the license link
    and the technical-guide link of the constants module, in this order;
    they are the two links that [create_collection] appends to the links
    of the collection. *)
Theorem created_item_links_are_license_and_guide (E : Externals)
    (granule : string) (rhm : option ReadHrefModifier) (fmt : Format.t)
    (kw : dict Value) (json_path : string) (s : c.t) (item : Item.t)
    (collection : Collection.t) :
  run (create_item E granule rhm fmt kw) s = Ok item ->
  run (create_collection json_path) s = Ok collection ->
  Item.links item
  = [c.SENTINEL_SLC_LICENSE s; c.SENTINEL_SLC_TECHNICAL_GUIDE s]
  /\ Collection.links collection
     = [Link.root; Link.self_href json_path] ++ Item.links item.
Proof.
  intros H Hc. apply create_item_spec in H.
  destruct H as (ml & pm & x & paths & named & bands & _ & ->).
  destruct (created_item_frame E s ml x bands) as (_ & _ & _ & _ & _ & ->).
  split; [reflexivity|].
  unfold create_collection, summarize in Hc.
  repeat first
    [ rewrite run_bind_assoc in Hc
    | rewrite run_bind_gets in Hc
    | rewrite run_bind_ret in Hc
    | rewrite run_bind_getitem in Hc;
      match type of Hc with
      | match dict_get ?k ?d with Some _ => _ | None => _ end = Ok _ =>
          destruct (dict_get k d); [|discriminate Hc]
      end ].
  cbv zeta in Hc. unfold run, ret in Hc. simpl fst in Hc.
  injection Hc as <-. reflexivity.
Qed.

Lemma created_item_links_are_license_and_guide_witness :
  (run (create_item Fixture.externals Fixture.granule_A None Format.SAFE [])
     Fixture.store = Ok Fixture.item_A
   /\ exists collection,
        run (create_collection "collection.json") Fixture.store = Ok collection)
  /\ Item.links Fixture.item_A
     = [constants.SENTINEL_SLC_LICENSE; constants.SENTINEL_SLC_TECHNICAL_GUIDE].
Proof.
  destruct (run (create_collection "collection.json") Fixture.store)
    as [collection|e] eqn:Hc; [|vm_compute in Hc; discriminate Hc].
  split; [split; [vm_compute; reflexivity|exists collection; reflexivity]|].
  apply (created_item_links_are_license_and_guide Fixture.externals
           Fixture.granule_A None Format.SAFE [] "collection.json"
           Fixture.store Fixture.item_A collection);
    [vm_compute; reflexivity|exact Hc].
Defined.

(** X2.  The item returned lists the schemas of the SAR, Satellite, EO
    and Projection extensions, each once and in this order, however many
    image assets were given the SAR extension in the loop. *)
Theorem created_item_lists_four_schemas (E : Externals) (granule : string)
    (rhm : option ReadHrefModifier) (fmt : Format.t) (kw : dict Value)
    (s : c.t) (item : Item.t) :
  run (create_item E granule rhm fmt kw) s = Ok item ->
  Item.stac_extensions item
  = [get_schema_uri SarExtension; get_schema_uri SatExtension;
     get_schema_uri EOExtension; get_schema_uri ProjectionExtension]
  /\ NoDup (Item.stac_extensions item).
Proof.
  intros H. apply create_item_spec in H.
  destruct H as (ml & pm & x & paths & named & bands & _ & ->).
  assert (Hexts : Item.stac_extensions
                    (with_slc_links s (with_bands bands (built_item E s ml x)))
                  = [get_schema_uri SarExtension; get_schema_uri SatExtension;
                     get_schema_uri EOExtension;
                     get_schema_uri ProjectionExtension]).
  { unfold with_slc_links. item_fields.
    rewrite with_bands_stac_extensions;
      rewrite built_item_stac_extensions; [reflexivity|].
    left. reflexivity. }
  rewrite Hexts. split; [reflexivity|].
  repeat (constructor;
          [simpl; intros Hin;
           repeat (destruct Hin as [Hin|Hin]; [discriminate Hin|]);
           exact Hin|]).
  constructor.
Qed.

Lemma created_item_lists_four_schemas_witness :
  run (create_item Fixture.externals Fixture.granule_A None Format.SAFE [])
    Fixture.store = Ok Fixture.item_A
  /\ Item.stac_extensions Fixture.item_A
     = [get_schema_uri SarExtension; get_schema_uri SatExtension;
        get_schema_uri EOExtension; get_schema_uri ProjectionExtension].
Proof.
  split; [vm_compute; reflexivity|].
  apply (created_item_lists_four_schemas Fixture.externals Fixture.granule_A
           None Format.SAFE [] Fixture.store Fixture.item_A).
  vm_compute. reflexivity.
Defined.

(** [add_assets] is an update of the asset dictionary with the assets
    owned by the item. *)
Lemma add_assets_assets (assets : list (string * Asset.t)) (item : Item.t) :
  Item.assets (add_assets assets item)
  = dict_update
      (map (fun ka => (fst ka, Asset.set_owner (Item.id item) (snd ka))) assets)
      (Item.assets item).
Proof.
  revert item. induction assets as [|[k a] r IH]; intros item.
  - reflexivity.
  - unfold add_assets in *. simpl. rewrite IH. reflexivity.
Qed.

(** The assets of the item before the image assets are added: the
    manifest, annotation, calibration and noise assets in this order, a
    later one replacing an earlier one of the same key, then the
    thumbnail. *)
Lemma built_item_assets (E : Externals) (s : c.t) (ml : SLCMetadataLinks.t)
    (x : Extracted) :
  Item.assets (built_item E s ml x)
  = let own := fun ka : string * Asset.t =>
                 (fst ka,
                  Asset.set_owner (slice_to_neg 5 (x_scene_id x)) (snd ka)) in
    let d := dict_update
               (map own (x_manifest_asset x
                         :: x_product_assets x ++ x_calibration_assets x
                         ++ x_noise_assets x))
               [] in
    match SLCMetadataLinks.thumbnail_href ml with
    | Some href =>
        dict_set "thumbnail"
          (Asset.set_owner (slice_to_neg 5 (x_scene_id x)) (thumbnail_asset href))
          d
    | None => d
    end.
Proof.
  cbv zeta.
  assert (Hmeta : forall item,
             Item.assets item = [] ->
             Item.id item = slice_to_neg 5 (x_scene_id x) ->
             Item.assets
               (add_assets (x_noise_assets x)
                  (add_assets (x_calibration_assets x)
                     (add_assets (x_product_assets x)
                        (Item.add_asset (fst (x_manifest_asset x))
                           (snd (x_manifest_asset x)) item))))
             = dict_update
                 (map (fun ka : string * Asset.t =>
                         (fst ka,
                          Asset.set_owner (slice_to_neg 5 (x_scene_id x))
                            (snd ka)))
                    (x_manifest_asset x
                     :: x_product_assets x ++ x_calibration_assets x
                     ++ x_noise_assets x))
                 []
             /\ Item.id
                  (add_assets (x_noise_assets x)
                     (add_assets (x_calibration_assets x)
                        (add_assets (x_product_assets x)
                           (Item.add_asset (fst (x_manifest_asset x))
                              (snd (x_manifest_asset x)) item))))
                = slice_to_neg 5 (x_scene_id x)).
  { intros item Hempty Hid.
    rewrite !add_assets_assets.
    repeat match goal with
      | |- context [Item.id (add_assets ?l ?i)] =>
          rewrite (proj1 (add_assets_frame l i))
      end.
    item_fields. rewrite Hempty, Hid.
    split; [|reflexivity].
    rewrite !map_cons, !map_app.
    change (dict_update (?p :: ?r) []) with (dict_update r (dict_update [p] [])).
    rewrite !dict_update_app. reflexivity. }
  unfold built_item. cbv zeta.
  destruct (SLCMetadataLinks.thumbnail_href ml) as [href|].
  - unfold Item.add_asset at 1. item_fields.
    match goal with
    | |- context [add_assets (x_noise_assets x)
                    (add_assets _ (add_assets _ (Item.add_asset _ _ ?i)))] =>
        destruct (Hmeta i) as (-> & ->);
          [destruct (truthy (processing_stop E ml)); reflexivity..|]
    end.
    reflexivity.
  - match goal with
    | |- context [add_assets (x_noise_assets x)
                    (add_assets _ (add_assets _ (Item.add_asset _ _ ?i)))] =>
        destruct (Hmeta i) as (-> & _);
          [destruct (truthy (processing_stop E ml)); reflexivity..|]
    end.
    reflexivity.
Qed.

Lemma with_bands_get_band (k : string) (bands : list Band) (item : Item.t) :
  dict_get k (Item.assets (with_bands bands item))
  = match last_binding k
            (map (fun b => (band_key b, band_asset (Item.id item) b)) bands) with
    | Some a => Some a
    | None => dict_get k (Item.assets item)
    end.
Proof.
  revert item. induction bands as [|b r IH]; intros item.
  - reflexivity.
  - unfold with_bands in *. simpl. rewrite IH.
    destruct (with_band_frame item b) as (-> & _).
    destruct (last_binding k _); [reflexivity|].
    rewrite with_band_get. simpl.
    destruct (String.eqb k (band_key b)); reflexivity.
Qed.

(** A key of the item before the loop is not the key of an image asset:
    the assertion saw to it. *)
Lemma built_key_is_no_band_key (k : string) (bands : list Band)
    (assets : dict Asset.t) :
  (forall b, In b bands -> dict_contains (band_key b) assets = false) ->
  dict_contains k assets = true ->
  ~ In k (map band_key bands).
Proof.
  intros Hfresh Hk Hin. apply in_map_iff in Hin.
  destruct Hin as (b & <- & Hb). rewrite (Hfresh b Hb) in Hk. discriminate.
Qed.

Lemma built_item_assets_owned (E : Externals) (s : c.t)
    (ml : SLCMetadataLinks.t) (x : Extracted) :
  all_owned_by (slice_to_neg 5 (x_scene_id x))
    (Item.assets (built_item E s ml x)).
Proof.
  intros k a. rewrite built_item_assets. cbv zeta.
  assert (Hmeta : forall l,
             dict_get k
               (dict_update
                  (map (fun ka : string * Asset.t =>
                          (fst ka,
                           Asset.set_owner (slice_to_neg 5 (x_scene_id x))
                             (snd ka))) l) [])
             = Some a ->
             Asset.owner a = Some (slice_to_neg 5 (x_scene_id x))).
  { intros l. rewrite dict_get_update.
    rewrite (last_binding_map _ _
               (Asset.set_owner (slice_to_neg 5 (x_scene_id x)))).
    destruct (last_binding k l); simpl; [|discriminate].
    intros H. injection H as <-. reflexivity. }
  destruct (SLCMetadataLinks.thumbnail_href ml) as [href|]; [|apply Hmeta].
  rewrite dict_get_set. destruct (String.eqb k "thumbnail"); [|apply Hmeta].
  intros H. injection H as <-. reflexivity.
Qed.

Lemma built_item_assets_nodup (E : Externals) (s : c.t)
    (ml : SLCMetadataLinks.t) (x : Extracted) :
  NoDup (dict_keys (Item.assets (built_item E s ml x))).
Proof.
  rewrite built_item_assets. cbv zeta.
  destruct (SLCMetadataLinks.thumbnail_href ml);
    [apply dict_set_nodup|]; apply dict_update_nodup; constructor.
Qed.

Lemma with_bands_nodup (bands : list Band) (item : Item.t) :
  NoDup (dict_keys (Item.assets item)) ->
  NoDup (dict_keys (Item.assets (with_bands bands item))).
Proof.
  revert item. induction bands as [|b r IH]; intros item H.
  - exact H.
  - unfold with_bands in *. simpl. apply IH.
    unfold with_band. item_fields. do 2 apply dict_set_nodup. exact H.
Qed.

(** X3.  In the item returned the keys of the assets are pairwise
    distinct and every asset - manifest, annotation, calibration, noise,
    thumbnail and image asset - has the item as its owner. *)
Theorem created_item_owns_its_assets (E : Externals) (granule : string)
    (rhm : option ReadHrefModifier) (fmt : Format.t) (kw : dict Value)
    (s : c.t) (item : Item.t) :
  run (create_item E granule rhm fmt kw) s = Ok item ->
  NoDup (dict_keys (Item.assets item))
  /\ forall k a,
       dict_get k (Item.assets item) = Some a ->
       Asset.owner a = Some (Item.id item).
Proof.
  intros H. apply create_item_spec in H.
  destruct H as (ml & pm & x & paths & named & bands & _ & ->).
  destruct (created_item_frame E s ml x bands) as (-> & _).
  unfold with_slc_links. item_fields.
  split; [apply with_bands_nodup, built_item_assets_nodup|].
  intros k a. rewrite with_bands_get_band, built_item_id.
  destruct (last_binding k _) as [a'|] eqn:Hband.
  - intros Ha. injection Ha as <-.
    apply last_binding_in in Hband. apply in_map_iff in Hband.
    destruct Hband as (b & Heq & _). injection Heq as _ <-. reflexivity.
  - apply built_item_assets_owned.
Qed.

Lemma created_item_owns_its_assets_witness :
  run (create_item Fixture.externals Fixture.granule_A None Format.SAFE [])
    Fixture.store = Ok Fixture.item_A
  /\ NoDup (dict_keys (Item.assets Fixture.item_A))
  /\ forall k a,
       dict_get k (Item.assets Fixture.item_A) = Some a ->
       Asset.owner a = Some (Item.id Fixture.item_A).
Proof.
  split; [vm_compute; reflexivity|].
  apply (created_item_owns_its_assets Fixture.externals Fixture.granule_A
           None Format.SAFE [] Fixture.store Fixture.item_A).
  vm_compute. reflexivity.
Defined.

(** X4.  When the metadata links have a thumbnail href, the item returned
    has the asset ['thumbnail'] with this href, the PNG media type, the
    role ['thumbnail'], the title ['Preview Image'] and the description
    spelled out in stac.py; title, media type, description and roles are
    the ones of the item-asset definition ['thumbnail'] in constants.py. *)
Theorem created_item_thumbnail (E : Externals) (granule : string)
    (rhm : option ReadHrefModifier) (fmt : Format.t) (kw : dict Value)
    (s : c.t) (item : Item.t) (ml : SLCMetadataLinks.t) (href : string) :
  run (create_item E granule rhm fmt kw) s = Ok item ->
  new_SLCMetadataLinks E granule rhm fmt kw = Returns ml ->
  SLCMetadataLinks.thumbnail_href ml = Some href ->
  dict_get "thumbnail" (Item.assets item)
  = Some (Asset.mk href (Some "Preview Image")
            (Some stac_thumbnail_description) (Some MediaType.PNG)
            (Some ["thumbnail"]) [] (Some (Item.id item)))
  /\ dict_get "thumbnail" constants.SENTINEL_SLC_ASSETS
     = Some (constants.AssetDefinition "Preview Image" MediaType.PNG
               stac_thumbnail_description ["thumbnail"]).
Proof.
  intros H Hml Hthumb. split; [|reflexivity].
  apply create_item_spec in H.
  destruct H as (ml' & pm & x & paths & named & bands & Hwf & ->).
  destruct Hwf as (Hml' & _ & _ & _ & _ & _ & _ & _ & _ & Hfresh).
  rewrite Hml in Hml'. injection Hml' as <-.
  destruct (created_item_frame E s ml x bands) as (-> & _).
  unfold with_slc_links. item_fields.
  assert (Hbuilt : dict_get "thumbnail" (Item.assets (built_item E s ml x))
                   = Some (Asset.mk href (Some "Preview Image")
                             (Some stac_thumbnail_description)
                             (Some MediaType.PNG) (Some ["thumbnail"]) []
                             (Some (slice_to_neg 5 (x_scene_id x))))).
  { rewrite built_item_assets. cbv zeta. rewrite Hthumb.
    rewrite dict_get_set, String.eqb_refl. reflexivity. }
  rewrite with_bands_get_other; [exact Hbuilt|].
  apply (built_key_is_no_band_key _ _ _ Hfresh).
  unfold dict_contains. rewrite Hbuilt. reflexivity.
Qed.

Lemma created_item_thumbnail_witness :
  run (create_item Fixture.externals Fixture.granule_A None Format.SAFE [])
    Fixture.store = Ok Fixture.item_A
  /\ option_map Asset.media_type
       (dict_get "thumbnail" (Item.assets Fixture.item_A))
     = Some (Some MediaType.PNG).
Proof.
  split; [vm_compute; reflexivity|].
  rewrite (proj1 (created_item_thumbnail Fixture.externals Fixture.granule_A
                    None Format.SAFE [] Fixture.store Fixture.item_A
                    Fixture.metalinks_A
                    (os_path_join Fixture.granule_A "preview/quick-look.png")
                    ltac:(vm_compute; reflexivity)
                    ltac:(vm_compute; reflexivity)
                    ltac:(vm_compute; reflexivity))).
  reflexivity.
Defined.

(** X5.  The manifest, annotation, calibration and noise assets are added
    in this order without any check of their keys: when two of them come
    under the same key the later one replaces the earlier one, and the
    item returned holds, for each key, the last asset given under it. *)
Theorem metadata_assets_last_one_wins (E : Externals) (granule : string)
    (rhm : option ReadHrefModifier) (fmt : Format.t) (kw : dict Value)
    (s : c.t) (item : Item.t) (ml : SLCMetadataLinks.t)
    (m : string * Asset.t) (pa ca na : list (string * Asset.t)) :
  run (create_item E granule rhm fmt kw) s = Ok item ->
  new_SLCMetadataLinks E granule rhm fmt kw = Returns ml ->
  SLCMetadataLinks.create_manifest_asset ml = Returns m ->
  SLCMetadataLinks.create_product_asset ml = Returns pa ->
  SLCMetadataLinks.create_calibration_asset ml = Returns ca ->
  SLCMetadataLinks.create_noise_asset ml = Returns na ->
  forall k a,
    last_binding k (m :: pa ++ ca ++ na) = Some a ->
    (k = "thumbnail" -> SLCMetadataLinks.thumbnail_href ml = None) ->
    dict_get k (Item.assets item) = Some (Asset.set_owner (Item.id item) a).
Proof.
  intros H Hml Hm Hpa Hca Hna k a Hlast Hthumb.
  apply create_item_spec in H.
  destruct H as (ml' & pm & x & paths & named & bands & Hwf & ->).
  destruct Hwf as (Hml' & _ & Hx & _ & _ & _ & _ & _ & _ & Hfresh).
  rewrite Hml in Hml'. injection Hml' as <-.
  destruct Hx as (_ & _ & _ & _ & _ & _ & _ & _ & _ & _ & _ & _ & Hm' & Hpa'
                  & Hca' & Hna').
  rewrite Hm in Hm'. injection Hm' as Hm'.
  rewrite Hpa in Hpa'. injection Hpa' as Hpa'.
  rewrite Hca in Hca'. injection Hca' as Hca'.
  rewrite Hna in Hna'. injection Hna' as Hna'.
  destruct (created_item_frame E s ml x bands) as (-> & _).
  unfold with_slc_links. item_fields.
  assert (Hbuilt : dict_get k (Item.assets (built_item E s ml x))
                   = Some (Asset.set_owner (slice_to_neg 5 (x_scene_id x)) a)).
  { rewrite built_item_assets. cbv zeta.
    rewrite <- Hm', <- Hpa', <- Hca', <- Hna'.
    assert (Hmeta : dict_get k
                      (dict_update
                         (map (fun ka : string * Asset.t =>
                                 (fst ka,
                                  Asset.set_owner
                                    (slice_to_neg 5 (x_scene_id x)) (snd ka)))
                            (m :: pa ++ ca ++ na)) [])
                    = Some (Asset.set_owner (slice_to_neg 5 (x_scene_id x)) a)).
    { rewrite dict_get_update.
      rewrite (last_binding_map _ _
                 (Asset.set_owner (slice_to_neg 5 (x_scene_id x)))).
      rewrite Hlast. reflexivity. }
    destruct (SLCMetadataLinks.thumbnail_href ml) as [href|] eqn:Hhref;
      [|exact Hmeta].
    rewrite dict_get_set.
    destruct (String.eqb_spec k "thumbnail") as [Heq|_]; [|exact Hmeta].
    specialize (Hthumb Heq). discriminate Hthumb. }
  rewrite with_bands_get_other; [exact Hbuilt|].
  apply (built_key_is_no_band_key _ _ _ Hfresh).
  unfold dict_contains. rewrite Hbuilt. reflexivity.
Qed.

Lemma metadata_assets_last_one_wins_witness :
  run (create_item Fixture.externals Fixture.granule_A None Format.SAFE [])
    Fixture.store = Ok Fixture.item_A
  /\ option_map Asset.href
       (dict_get "schema-noise-iw1-vv" (Item.assets Fixture.item_A))
     = Some (os_path_join Fixture.granule_A
               "annotation/calibration/noise-iw1-vv.xml").
Proof.
  split; [vm_compute; reflexivity|].
  rewrite (metadata_assets_last_one_wins Fixture.externals Fixture.granule_A
             None Format.SAFE [] Fixture.store Fixture.item_A
             Fixture.metalinks_A _ _ _ _
             ltac:(vm_compute; reflexivity) ltac:(vm_compute; reflexivity)
             eq_refl eq_refl eq_refl eq_refl
             "schema-noise-iw1-vv"
             (Fixture.xml_asset
                (os_path_join Fixture.granule_A
                   "annotation/calibration/noise-iw1-vv.xml")
                "VV Noise Schema")
             ltac:(vm_compute; reflexivity)
             ltac:(intros Heq; discriminate Heq)).
  reflexivity.
Defined.

(* ================================================================== *)
(** * Further properties: the processing time and the image assets *)
(* ================================================================== *)

(** X6.  When the manifest has a non-empty stop time of the
    'SLC Post Processing' record, ['s1:processing_datetime'] is this stop
    time followed by ['Z'], whatever the metadata dictionary and the
    fillers assigned to the key.  An empty stop time counts as none: in
    both cases [create_item] does not assign the key, which keeps the value
    of the metadata dictionary or else the one the fillers gave it. *)
Theorem processing_datetime_of_created_item (E : Externals) (granule : string)
    (rhm : option ReadHrefModifier) (fmt : Format.t) (kw : dict Value)
    (s : c.t) (item : Item.t) (ml : SLCMetadataLinks.t) :
  run (create_item E granule rhm fmt kw) s = Ok item ->
  new_SLCMetadataLinks E granule rhm fmt kw = Returns ml ->
  (forall stop,
      find_attr E (SLCMetadataLinks.manifest ml) "stop"
        ".//safe:processing[@name='SLC Post Processing']" = Some stop ->
      stop <> "" ->
      dict_get "s1:processing_datetime" (Item.properties item)
      = Some (VStr (stop ++ "Z")))
  /\ (forall pm metadata_dict sar sat processing,
        find_attr E (SLCMetadataLinks.manifest ml) "stop"
          ".//safe:processing[@name='SLC Post Processing']" = None
        \/ find_attr E (SLCMetadataLinks.manifest ml) "stop"
             ".//safe:processing[@name='SLC Post Processing']" = Some "" ->
        new_SLCProductMetadata E
          (SLCMetadataLinks.product_metadata_href ml)
          (SLCMetadataLinks.grouped_hrefs ml)
          (SLCMetadataLinks.map_filename ml)
          (SLCMetadataLinks.manifest ml) = Returns pm ->
        SLCProductMetadata.metadata_dict pm = Returns metadata_dict ->
        fill_common_sar_properties E (SLCMetadataLinks.manifest ml)
        = Returns sar ->
        fill_sat_properties E (SLCMetadataLinks.manifest ml) = Returns sat ->
        fill_processing_properties E (SLCMetadataLinks.manifest ml)
        = Returns processing ->
        dict_get "s1:processing_datetime" (Item.properties item)
        = match last_binding "s1:processing_datetime" metadata_dict with
          | Some v => Some v
          | None =>
              match last_write "s1:processing_datetime"
                      (sar ++ sat ++ processing) with
              | Some w => w
              | None => None
              end
          end).
Proof.
  intros H Hml. apply create_item_spec in H.
  destruct H as (ml' & pm' & x & paths & named & bands & Hwf & ->).
  destruct Hwf as (Hml' & Hpm' & Hx & _).
  rewrite Hml in Hml'. injection Hml' as <-.
  split.
  - intros stop Hstop Hne. rewrite created_item_property.
    unfold property_log, processing_stop, post_processing_xpath.
    rewrite !last_write_app, Hstop.
    destruct stop as [|ch r]; [congruence|].
    cbn [truthy last_write format_opt]. decide_string_eqb. reflexivity.
  - intros pm md sar sat processing Habsent Hpm Hmd Hsar Hsat Hproc.
    rewrite Hpm in Hpm'. injection Hpm' as <-.
    destruct Hx as (_ & _ & _ & _ & Hsar' & Hsat' & Hproc' & _ & _ & _ & _
                    & Hmd' & _).
    rewrite Hmd in Hmd'. injection Hmd' as Hmd'.
    rewrite Hsar in Hsar'. injection Hsar' as Hsar'.
    rewrite Hsat in Hsat'. injection Hsat' as Hsat'.
    rewrite Hproc in Hproc'. injection Hproc' as Hproc'.
    rewrite created_item_property.
    unfold property_log, processing_stop, post_processing_xpath.
    rewrite !last_write_app, last_write_entries.
    rewrite <- Hmd', <- Hsar', <- Hsat', <- Hproc'.
    assert (Hfalsy : truthy (find_attr E (SLCMetadataLinks.manifest ml) "stop"
                               ".//safe:processing[@name='SLC Post Processing']")
                     = false)
      by (destruct Habsent as [-> | ->]; reflexivity).
    rewrite Hfalsy. cbn [last_write]. decide_string_eqb.
    destruct (last_binding "s1:processing_datetime" md); simpl;
      [reflexivity|].
    destruct (last_write "s1:processing_datetime" processing);
      [reflexivity|].
    destruct (last_write "s1:processing_datetime" sat); reflexivity.
Qed.

Lemma processing_datetime_of_created_item_witness :
  run (create_item Fixture.externals Fixture.granule_A None Format.SAFE [])
    Fixture.store = Ok Fixture.item_A
  /\ dict_get "s1:processing_datetime" (Item.properties Fixture.item_A)
     = Some (VStr "2015-03-05T08:41:57.398823Z").
Proof.
  split; [vm_compute; reflexivity|].
  apply (proj1 (processing_datetime_of_created_item Fixture.externals
                  Fixture.granule_A None Format.SAFE [] Fixture.store
                  Fixture.item_A Fixture.metalinks_A
                  ltac:(vm_compute; reflexivity)
                  ltac:(vm_compute; reflexivity))
           "2015-03-05T08:41:57.398823");
    [vm_compute; reflexivity|discriminate].
Defined.

(** X7.  The image assets are collected with [dict]: the dictionary has
    one entry per name that the helper gave, a name given to several image
    paths keeps the asset of the last of them, and there are never more
    entries than image paths. *)
Theorem image_assets_keep_last_of_a_name (E : Externals) (granule : string)
    (item : Item.t) (fmt : Format.t) (paths : list string)
    (assets : dict Asset.t) (s : c.t) :
  run (image_assets E granule item (images_media_type fmt) paths) s
  = Ok assets ->
  exists named,
    image_assets_named E granule item fmt paths named
    /\ NoDup (dict_keys assets)
    /\ (forall k, dict_get k assets = last_binding k named)
    /\ (forall k, In k (dict_keys assets) <-> In k (map fst named))
    /\ length assets <= length paths.
Proof.
  intros H. apply image_assets_spec in H. destruct H as (named & Hnamed & ->).
  exists named. split; [exact Hnamed|].
  assert (Hget : forall k, dict_get k (dict_of_pairs named)
                           = last_binding k named).
  { intros k. unfold dict_of_pairs. rewrite dict_get_update.
    destruct (last_binding k named); reflexivity. }
  split; [apply dict_update_nodup; constructor|].
  split; [exact Hget|].
  split.
  - intros k. split.
    + intros Hin. apply dict_get_of_key in Hin. destruct Hin as (a & Ha).
      rewrite Hget in Ha. apply last_binding_in in Ha.
      apply (in_map fst named (k, a)). exact Ha.
    + intros Hin.
      destruct (last_binding k named) as [a|] eqn:Hl.
      * rewrite <- Hget in Hl. apply dict_get_key in Hl. exact Hl.
      * apply last_binding_none in Hl. contradiction.
  - unfold dict_of_pairs.
    pose proof (dict_update_length _ named (@nil (string * Asset.t))) as Hlen.
    unfold image_assets_named in Hnamed. apply Forall2_length in Hnamed.
    simpl in Hlen. lia.
Qed.

Lemma image_assets_keep_last_of_a_name_witness :
  (exists assets,
     run (image_assets Fixture.externals Fixture.granule_D Fixture.empty_item
            (images_media_type Format.SAFE) Fixture.image_paths_twice)
       Fixture.store = Ok assets
     /\ length assets = 1)
  /\ exists assets named,
       run (image_assets Fixture.externals Fixture.granule_D Fixture.empty_item
              (images_media_type Format.SAFE) Fixture.image_paths_twice)
         Fixture.store = Ok assets
       /\ image_assets_named Fixture.externals Fixture.granule_D
            Fixture.empty_item Format.SAFE Fixture.image_paths_twice named
       /\ NoDup (dict_keys assets).
Proof.
  destruct (run (image_assets Fixture.externals Fixture.granule_D
                   Fixture.empty_item (images_media_type Format.SAFE)
                   Fixture.image_paths_twice) Fixture.store)
    as [assets|e] eqn:H; [|vm_compute in H; discriminate H].
  split.
  - exists assets. split; [reflexivity|].
    vm_compute in H. injection H as <-. reflexivity.
  - destruct (image_assets_keep_last_of_a_name Fixture.externals
                Fixture.granule_D Fixture.empty_item Format.SAFE
                Fixture.image_paths_twice assets Fixture.store H)
      as (named & Hnamed & Hnd & _).
    exists assets, named. repeat split; assumption.
Defined.

(** X8.  The swath and the polarisation of an image asset are unpacked
    from what [extract_properties] returns: when the image assets before
    it were added and the helper returns any number of values other than
    two for an asset, [create_item] raises [ValueError] and returns no
    item. *)
Theorem wrong_number_of_extracted_values_raises (E : Externals)
    (granule : string) (rhm : option ReadHrefModifier) (fmt : Format.t)
    (kw : dict Value) (s : c.t) (ml : SLCMetadataLinks.t)
    (pm : SLCProductMetadata.t) (item0 : Item.t) (paths : list string)
    (assets : dict Asset.t) (good : list Band) (bad : Asset.t)
    (rest : list Asset.t) (values : list string) :
  new_SLCMetadataLinks E granule rhm fmt kw = Returns ml ->
  new_SLCProductMetadata E
    (SLCMetadataLinks.product_metadata_href ml)
    (SLCMetadataLinks.grouped_hrefs ml)
    (SLCMetadataLinks.map_filename ml)
    (SLCMetadataLinks.manifest ml) = Returns pm ->
  run (build_item E ml pm rhm kw) s = Ok item0 ->
  SLCProductMetadata.image_paths pm = Returns paths ->
  run (image_assets E granule item0 (images_media_type fmt) paths) s
  = Ok assets ->
  dict_values assets = map b_asset good ++ bad :: rest ->
  Forall (band_extracted E) good ->
  Forall (band_filled E) good ->
  NoDup (map band_key good) ->
  (forall b, In b good ->
     dict_contains (band_key b) (Item.assets item0) = false) ->
  extract_properties E (Asset.href bad) ["polarisation"; "swath"]
  = Returns values ->
  length values <> 2 ->
  exists msg, run (create_item E granule rhm fmt kw) s = Err (ValueError msg).
Proof.
  intros Hml Hpm Hbuild Hpaths Hassets Hvalues Hx Hf Hnd Hfresh Hbad Hlen.
  rewrite (create_item_ends_as_loop E granule rhm fmt kw s ml pm item0 paths
             assets Hml Hpm Hbuild Hpaths Hassets).
  rewrite Hvalues.
  rewrite for_each_app by (intros; apply stateless_add_image_asset).
  assert (Hgood : run (for_each (add_image_asset E) (map b_asset good) item0) s
                  = Ok (with_bands good item0)).
  { apply add_image_assets_spec. exists good.
    repeat (split; [first [assumption|reflexivity]|]). reflexivity. }
  rewrite Hgood. simpl for_each.
  rewrite run_bind by apply stateless_add_image_asset.
  unfold add_image_asset at 1. rewrite run_call, Hbad.
  destruct values as [|v1 [|v2 [|v3 r]]]; simpl in Hlen;
    try (eexists; reflexivity).
  exfalso. apply Hlen. reflexivity.
Qed.

Lemma wrong_number_of_extracted_values_raises_witness :
  extract_properties Fixture.externals_one_value
    (os_path_join Fixture.granule_A
       "measurement/s1a-iw1-slc-vv-20150305t051939-20150305t052005-004892-006196-001.tiff")
    ["polarisation"; "swath"] = Returns ["vv"]
  /\ exists msg,
       run (create_item Fixture.externals_one_value Fixture.granule_A None
              Format.SAFE [])
         Fixture.store = Err (ValueError msg).
Proof.
  split; [vm_compute; reflexivity|].
  eapply (wrong_number_of_extracted_values_raises Fixture.externals_one_value
            Fixture.granule_A None Format.SAFE [] Fixture.store
            Fixture.metalinks_A Fixture.product_metadata_A Fixture.built_A
            Fixture.image_paths Fixture.named_A [] _ _ ["vv"]).
  - vm_compute. reflexivity.
  - vm_compute. reflexivity.
  - vm_compute. reflexivity.
  - vm_compute. reflexivity.
  - vm_compute. reflexivity.
  - unfold Fixture.named_A. simpl. reflexivity.
  - constructor.
  - constructor.
  - constructor.
  - intros b [].
  - vm_compute. reflexivity.
  - simpl. discriminate.
Defined.

(* ================================================================== *)
(** * Further properties: the collection *)
(* ================================================================== *)

(** One step of a run of [create_collection]. *)
Ltac collection_step :=
  first
    [ rewrite run_bind_assoc
    | rewrite run_bind_gets
    | rewrite run_bind_ret
    | rewrite run_bind_getitem ].

(** X9.  [create_collection] subscripts the tables [SENTINEL_SLC_SAR]
    and [SENTINEL_SLC_SAT] of the constants module: it returns a collection
    exactly when the thirteen SAR keys and ['orbit_state'] are there, and
    otherwise raises [KeyError] for the first key it misses, in the order
    of the assignments. *)
Theorem create_collection_needs_the_table_keys (json_path : string)
    (s : c.t) :
  match first_missing sar_keys_read (c.SENTINEL_SLC_SAR s) with
  | Some k => run (create_collection json_path) s = Err (KeyError k)
  | None =>
      if dict_contains "orbit_state" (c.SENTINEL_SLC_SAT s)
      then exists collection,
             run (create_collection json_path) s = Ok collection
      else run (create_collection json_path) s = Err (KeyError "orbit_state")
  end.
Proof.
  unfold create_collection, summarize, first_missing, sar_keys_read,
    dict_contains.
  cbn [find]. cbv zeta.
  repeat (repeat collection_step;
          match goal with
          | |- context [match dict_get ?k ?d with Some _ => run _ _ | None => _ end] =>
              destruct (dict_get k d); cbn [negb]; [|reflexivity]
          end).
  repeat collection_step. eexists. reflexivity.
Qed.

(** A run of [create_collection] that returned: every subscripted key was
    there. *)
Ltac collection_ok H :=
  repeat (repeat first
            [ rewrite run_bind_assoc in H
            | rewrite run_bind_gets in H
            | rewrite run_bind_ret in H
            | rewrite run_bind_getitem in H ];
          match type of H with
          | match dict_get ?k ?d with Some _ => _ | None => _ end = Ok _ =>
              destruct (dict_get k d) eqn:?; [|discriminate H]
          end);
  cbv zeta in H; unfold run, ret in H; simpl fst in H.

(** X10.  The [json_path] given to [create_collection] ends up in the
    self link of the collection and nowhere else: two calls with different
    paths return collections that differ in the href of this link only. *)
Theorem json_path_sets_only_the_self_link (path1 path2 : string) (s : c.t)
    (collection1 collection2 : Collection.t) :
  run (create_collection path1) s = Ok collection1 ->
  run (create_collection path2) s = Ok collection2 ->
  Collection.links collection1
  = [Link.root; Link.self_href path1;
     c.SENTINEL_SLC_LICENSE s; c.SENTINEL_SLC_TECHNICAL_GUIDE s]
  /\ collection2
     = Collection.mk (Collection.id collection1)
         (Collection.description collection1)
         (Collection.extent collection1)
         (Collection.title collection1)
         (Collection.stac_extensions collection1)
         (Collection.keywords collection1)
         (Collection.providers collection1)
         (Collection.summaries collection1)
         [Link.root; Link.self_href path2;
          c.SENTINEL_SLC_LICENSE s; c.SENTINEL_SLC_TECHNICAL_GUIDE s]
         (Collection.extra_fields collection1).
Proof.
  intros H1 H2. unfold create_collection, summarize in H1, H2.
  collection_ok H1.
  repeat (repeat first
            [ rewrite run_bind_assoc in H2
            | rewrite run_bind_gets in H2
            | rewrite run_bind_ret in H2
            | rewrite run_bind_getitem in H2 ];
          match type of H2 with
          | match dict_get ?k ?d with Some _ => _ | None => _ end = Ok _ =>
              match goal with
              | Hget : dict_get k d = Some _ |- _ => rewrite Hget in H2
              end
          end);
  cbv zeta in H2; unfold run, ret in H2; simpl fst in H2.
  injection H1 as <-. injection H2 as <-.
  split; reflexivity.
Qed.

Lemma json_path_sets_only_the_self_link_witness :
  (run (create_collection "collection.json") Fixture.store
   = Ok Fixture.collection_1
   /\ run (create_collection "catalog/slc/collection.json") Fixture.store
      = Ok Fixture.collection_2)
  /\ Collection.summaries Fixture.collection_2
     = Collection.summaries Fixture.collection_1
  /\ Collection.links Fixture.collection_2
     = [Link.root; Link.self_href "catalog/slc/collection.json";
        constants.SENTINEL_SLC_LICENSE; constants.SENTINEL_SLC_TECHNICAL_GUIDE].
Proof.
  split; [split; vm_compute; reflexivity|].
  rewrite (proj2 (json_path_sets_only_the_self_link "collection.json"
                    "catalog/slc/collection.json" Fixture.store
                    Fixture.collection_1 Fixture.collection_2
                    ltac:(vm_compute; reflexivity)
                    ltac:(vm_compute; reflexivity))).
  split; reflexivity.
Defined.

(** X11.  Whatever the tables hold, a collection returned lists the
    schemas of the SAR, Satellite, EO and Item-Assets extensions, each
    once: asking for the SAR and Satellite summaries adds nothing to the
    three schemas given at construction, and the Item-Assets schema is
    appended.  The Projection schema, which every item lists, is not among
    them. *)
Theorem collection_lists_four_schemas (E : Externals) (json_path : string)
    (s : c.t) (collection : Collection.t) :
  run (create_collection json_path) s = Ok collection ->
  Collection.stac_extensions collection
  = [get_schema_uri SarExtension; get_schema_uri SatExtension;
     get_schema_uri EOExtension; get_schema_uri ItemAssetsExtension]
  /\ ~ In (get_schema_uri ProjectionExtension)
          (Collection.stac_extensions collection)
  /\ forall granule rhm fmt kw s' item,
       run (create_item E granule rhm fmt kw) s' = Ok item ->
       In (get_schema_uri ProjectionExtension) (Item.stac_extensions item).
Proof.
  intros H. unfold create_collection, summarize in H.
  collection_ok H. injection H as <-.
  split; [reflexivity|].
  split.
  - simpl. intros Hin.
    repeat (destruct Hin as [Hin|Hin]; [discriminate Hin|]). exact Hin.
  - intros granule rhm fmt kw s' item Hitem.
    apply create_item_spec in Hitem.
    destruct Hitem as (ml & pm & x & paths & named & bands & _ & ->).
    apply created_item_extensions. simpl. tauto.
Qed.

Lemma collection_lists_four_schemas_witness :
  run (create_collection "collection.json") Fixture.store
  = Ok Fixture.collection_1
  /\ Collection.stac_extensions Fixture.collection_1
     = [get_schema_uri SarExtension; get_schema_uri SatExtension;
        get_schema_uri EOExtension; get_schema_uri ItemAssetsExtension].
Proof.
  split; [vm_compute; reflexivity|].
  apply (collection_lists_four_schemas Fixture.externals "collection.json"
           Fixture.store Fixture.collection_1).
  vm_compute. reflexivity.
Defined.

(* ================================================================== *)
(** * Further properties: what [create_item] reads of the constants *)
(* ================================================================== *)

Lemma reads_ret (A : Type) (a : A) : reads_item_constants (ret a).
Proof. intros s1 s2 _. reflexivity. Qed.

Lemma reads_raise (A : Type) (e : Exception) : reads_item_constants (@raise A e).
Proof. intros s1 s2 _. reflexivity. Qed.

Lemma reads_lift (A : Type) (r : Result A) : reads_item_constants (lift r).
Proof. intros s1 s2 _. reflexivity. Qed.

Lemma reads_call (A : Type) (o : Outcome A) : reads_item_constants (call o).
Proof. intros s1 s2 _. unfold run, call. destruct o; reflexivity. Qed.

Lemma reads_gets_provider : reads_item_constants (gets c.SENTINEL_PROVIDER).
Proof. intros s1 s2 (H & _). unfold run, gets. simpl. rewrite H. reflexivity. Qed.

Lemma reads_gets_constellation :
  reads_item_constants (gets c.SENTINEL_CONSTELLATION).
Proof.
  intros s1 s2 (_ & H & _). unfold run, gets. simpl. rewrite H. reflexivity.
Qed.

Lemma reads_gets_license : reads_item_constants (gets c.SENTINEL_SLC_LICENSE).
Proof.
  intros s1 s2 (_ & _ & H & _). unfold run, gets. simpl. rewrite H. reflexivity.
Qed.

Lemma reads_gets_guide :
  reads_item_constants (gets c.SENTINEL_SLC_TECHNICAL_GUIDE).
Proof.
  intros s1 s2 (_ & _ & _ & H). unfold run, gets. simpl. rewrite H. reflexivity.
Qed.

Lemma reads_bind (A B : Type) (m : M A) (f : A -> M B) :
  stateless m ->
  reads_item_constants m ->
  (forall a, reads_item_constants (f a)) ->
  reads_item_constants (bind m f).
Proof.
  intros Hs Hm Hf s1 s2 Hagree.
  rewrite !run_bind by exact Hs. rewrite (Hm s1 s2 Hagree).
  destruct (run m s2); [apply Hf; exact Hagree|reflexivity].
Qed.

Lemma reads_comprehension (A B : Type) (f : A -> M B) (xs : list A) :
  (forall x, stateless (f x)) ->
  (forall x, reads_item_constants (f x)) ->
  reads_item_constants (comprehension f xs).
Proof.
  intros Hs Hf. induction xs as [|x r IH]; simpl.
  - apply reads_ret.
  - apply reads_bind; [apply Hs|apply Hf|]. intros y.
    apply reads_bind;
      [apply stateless_comprehension; exact Hs|exact IH|].
    intros ys. apply reads_ret.
Qed.

Lemma reads_for_each (A S : Type) (body : A -> S -> M S) (xs : list A) :
  (forall x st, stateless (body x st)) ->
  (forall x st, reads_item_constants (body x st)) ->
  forall st, reads_item_constants (for_each body xs st).
Proof.
  intros Hs Hb. induction xs as [|x r IH]; intros st; simpl.
  - apply reads_ret.
  - apply reads_bind; [apply Hs|apply Hb|]. intros st'. apply IH.
Qed.

(** Proves [reads_item_constants m] for a computation built from the
    combinators. *)
Ltac reads_tac :=
  repeat first
    [ apply reads_ret | apply reads_raise | apply reads_lift
    | apply reads_call | apply reads_gets_provider
    | apply reads_gets_constellation | apply reads_gets_license
    | apply reads_gets_guide
    | apply reads_bind; [stateless_tac| |intros ?]
    | match goal with
      | |- reads_item_constants (match ?x with _ => _ end) => destruct x
      | |- reads_item_constants (if ?x then _ else _) => destruct x
      | |- reads_item_constants (let _ := _ in _) => cbv zeta
      end ].

Lemma reads_build_item (E : Externals) (ml : SLCMetadataLinks.t)
    (pm : SLCProductMetadata.t) (rhm : option ReadHrefModifier)
    (kw : dict Value) :
  reads_item_constants (build_item E ml pm rhm kw).
Proof.
  unfold build_item.
  apply reads_bind; [stateless_tac|apply reads_call|intros scene_id].
  apply reads_bind; [unfold new_item; stateless_tac
                    |unfold new_item; reads_tac|intros item].
  apply reads_bind; [unfold add_extensions; stateless_tac
                    |unfold add_extensions; reads_tac|intros item1].
  apply reads_bind; [unfold add_common_metadata; stateless_tac
                    |unfold add_common_metadata; reads_tac|intros item2].
  apply reads_bind; [unfold add_s1_properties; stateless_tac
                    |unfold add_s1_properties; reads_tac|intros item3].
  unfold add_metadata_assets. reads_tac.
Qed.

Lemma reads_add_image_asset (E : Externals) (asset : Asset.t) (item : Item.t) :
  reads_item_constants (add_image_asset E asset item).
Proof. unfold add_image_asset. reads_tac. Qed.

(** X12.  Of the constants module, [create_item] reads the provider, the
    constellation and the two links, and nothing else: on two states of
    the module that agree on these four it gives the same result, item or
    exception - the tables, the description, the extent and the keywords
    never reach an item. *)
Theorem create_item_reads_four_constants (E : Externals) (granule : string)
    (rhm : option ReadHrefModifier) (fmt : Format.t) (kw : dict Value)
    (s1 s2 : c.t) :
  agree_for_items s1 s2 ->
  run (create_item E granule rhm fmt kw) s1
  = run (create_item E granule rhm fmt kw) s2.
Proof.
  revert s1 s2. change (reads_item_constants (create_item E granule rhm fmt kw)).
  unfold create_item.
  apply reads_bind; [apply stateless_call|apply reads_call|intros ml].
  apply reads_bind; [apply stateless_call|apply reads_call|intros pm].
  apply reads_bind; [apply stateless_build_item|apply reads_build_item
                    |intros item].
  cbv zeta.
  apply reads_bind; [apply stateless_call|apply reads_call|intros paths].
  apply reads_bind; [apply stateless_image_assets| |intros assets].
  { unfold image_assets.
    apply reads_bind;
      [apply stateless_comprehension; intros; apply stateless_call
      |apply reads_comprehension; intros;
         [apply stateless_call|apply reads_call]
      |intros pairs; apply reads_ret]. }
  apply reads_bind;
    [apply stateless_for_each; intros; apply stateless_add_image_asset
    |apply reads_for_each; intros;
       [apply stateless_add_image_asset|apply reads_add_image_asset]
    |intros item1].
  reads_tac.
Qed.

Lemma create_item_reads_four_constants_witness :
  agree_for_items Fixture.store Fixture.store_without_tables
  /\ run (create_item Fixture.externals Fixture.granule_A None Format.SAFE [])
       Fixture.store_without_tables = Ok Fixture.item_A.
Proof.
  assert (Hagree : agree_for_items Fixture.store Fixture.store_without_tables)
    by (repeat split).
  split; [exact Hagree|].
  rewrite <- (create_item_reads_four_constants Fixture.externals
                Fixture.granule_A None Format.SAFE [] Fixture.store
                Fixture.store_without_tables Hagree).
  vm_compute. reflexivity.
Defined.

(* ================================================================== *)
(** * Further properties: the order of the assignments to the properties *)
(* ================================================================== *)

(** X13.  [item.properties.update(metadata_dict)] comes after the
    extensions and the common metadata, and before the two ['s1:'] keys
    that [create_item] assigns itself.  So an entry of the metadata
    dictionary replaces whatever the fillers, the projection fields,
    ['providers'], ['platform'] and ['constellation'] put under its key,
    while ['s1:product_identifier'] is the scene id even when the
    dictionary has a value for it. *)
Theorem metadata_dictionary_overrides_earlier_properties (E : Externals)
    (granule : string) (rhm : option ReadHrefModifier) (fmt : Format.t)
    (kw : dict Value) (s : c.t) (item : Item.t) (ml : SLCMetadataLinks.t)
    (pm : SLCProductMetadata.t) (metadata_dict : dict Value)
    (scene_id : string) :
  run (create_item E granule rhm fmt kw) s = Ok item ->
  new_SLCMetadataLinks E granule rhm fmt kw = Returns ml ->
  new_SLCProductMetadata E
    (SLCMetadataLinks.product_metadata_href ml)
    (SLCMetadataLinks.grouped_hrefs ml)
    (SLCMetadataLinks.map_filename ml)
    (SLCMetadataLinks.manifest ml) = Returns pm ->
  SLCProductMetadata.metadata_dict pm = Returns metadata_dict ->
  SLCProductMetadata.scene_id pm = Returns scene_id ->
  (forall k v,
      last_binding k metadata_dict = Some v ->
      k <> "s1:product_identifier" ->
      k <> "s1:processing_datetime" ->
      dict_get k (Item.properties item) = Some v)
  /\ dict_get "s1:product_identifier" (Item.properties item)
     = Some (VStr scene_id).
Proof.
  intros H Hml Hpm Hmd Hid. apply create_item_spec in H.
  destruct H as (ml' & pm' & x & paths & named & bands & Hwf & ->).
  destruct Hwf as (Hml' & Hpm' & Hx & _).
  rewrite Hml in Hml'. injection Hml' as <-.
  rewrite Hpm in Hpm'. injection Hpm' as <-.
  destruct Hx as (Hid' & _ & _ & _ & _ & _ & _ & _ & _ & _ & _ & Hmd' & _).
  rewrite Hmd in Hmd'. injection Hmd' as Hmd'.
  rewrite Hid in Hid'. injection Hid' as Hid'.
  split.
  - intros k v Hk Hne1 Hne2. rewrite created_item_property.
    unfold property_log. rewrite !last_write_app, last_write_entries.
    rewrite <- Hmd', Hk.
    apply String.eqb_neq in Hne1, Hne2.
    destruct (truthy (processing_stop E ml)); cbn [last_write option_map];
      rewrite ?Hne1, ?Hne2; reflexivity.
  - rewrite created_item_property.
    unfold property_log. rewrite !last_write_app.
    destruct (truthy (processing_stop E ml)); cbn [last_write];
      decide_string_eqb; rewrite Hid'; reflexivity.
Qed.

Lemma metadata_dictionary_overrides_earlier_properties_witness :
  run (create_item Fixture.externals Fixture.granule_A None Format.SAFE [])
    Fixture.store = Ok Fixture.item_A
  /\ dict_get "s1:datatake_id" (Item.properties Fixture.item_A)
     = Some (VStr "24982").
Proof.
  split; [vm_compute; reflexivity|].
  apply (proj1 (metadata_dictionary_overrides_earlier_properties
                  Fixture.externals Fixture.granule_A None Format.SAFE []
                  Fixture.store Fixture.item_A Fixture.metalinks_A
                  Fixture.product_metadata_A Fixture.metadata_dict
                  "S1A_IW_SLC__1SDV_20150305T051937_20150305T052005_004892_006196_ABBB"
                  ltac:(vm_compute; reflexivity)
                  ltac:(vm_compute; reflexivity)
                  ltac:(vm_compute; reflexivity)
                  ltac:(vm_compute; reflexivity)
                  ltac:(vm_compute; reflexivity)));
    [vm_compute; reflexivity|discriminate|discriminate].
Defined.

(* ================================================================== *)
(** * Objects with identity: the store *)
(* ================================================================== *)

Lemma length_replace_nth (A : Type) (k : nat) (x : A) (l : list A) :
  length (Heap.replace_nth k x l) = length l.
Proof.
  revert k. induction l as [|y r IH]; intros [|k]; simpl; auto.
Qed.

Lemma nth_error_replace_nth_same (A : Type) (k : nat) (x : A) (l : list A) :
  k < length l -> nth_error (Heap.replace_nth k x l) k = Some x.
Proof.
  revert k. induction l as [|y r IH]; intros [|k] Hk; simpl in *;
    try lia; [reflexivity|]. apply IH. lia.
Qed.

Lemma nth_error_replace_nth_other (A : Type) (k k' : nat) (x : A)
    (l : list A) :
  k <> k' -> nth_error (Heap.replace_nth k x l) k' = nth_error l k'.
Proof.
  revert k k'. induction l as [|y r IH]; intros [|k] [|k'] Hne; simpl;
    try reflexivity; try congruence. apply IH. congruence.
Qed.

Lemma lookup_lt (r : Obj.ref) (o : Obj.t) (s : Heap.t) :
  Heap.lookup r s = Some o -> r < length (Heap.objects s).
Proof.
  unfold Heap.lookup. intros H. apply nth_error_Some. congruence.
Qed.

Lemma lookup_update_same (r : Obj.ref) (o o' : Obj.t) (s : Heap.t) :
  Heap.lookup r s = Some o' -> Heap.lookup r (Heap.update r o s) = Some o.
Proof.
  intros H. apply lookup_lt in H. unfold Heap.lookup, Heap.update. simpl.
  apply nth_error_replace_nth_same. exact H.
Qed.

Lemma lookup_update_other (r r' : Obj.ref) (o : Obj.t) (s : Heap.t) :
  r <> r' -> Heap.lookup r' (Heap.update r o s) = Heap.lookup r' s.
Proof.
  intros H. unfold Heap.lookup, Heap.update. simpl.
  apply nth_error_replace_nth_other. exact H.
Qed.

Lemma lookup_grow_old (r : Obj.ref) (new : list Obj.t) (s : Heap.t) :
  r < length (Heap.objects s) ->
  Heap.lookup r (Heap.grow new s) = Heap.lookup r s.
Proof.
  intros H. unfold Heap.lookup, Heap.grow. simpl.
  apply nth_error_app1. exact H.
Qed.

Lemma lookup_grow_some (r : Obj.ref) (o : Obj.t) (new : list Obj.t)
    (s : Heap.t) :
  Heap.lookup r s = Some o -> Heap.lookup r (Heap.grow new s) = Some o.
Proof.
  intros H. rewrite lookup_grow_old; [exact H|]. exact (lookup_lt _ _ _ H).
Qed.

Lemma lookup_grow_new (k : nat) (new : list Obj.t) (s : Heap.t) :
  Heap.lookup (length (Heap.objects s) + k) (Heap.grow new s)
  = nth_error new k.
Proof.
  unfold Heap.lookup, Heap.grow. simpl.
  rewrite nth_error_app2 by lia. f_equal. lia.
Qed.

Lemma lookup_grow_one (o : Obj.t) (s : Heap.t) :
  Heap.lookup (length (Heap.objects s)) (Heap.grow [o] s) = Some o.
Proof.
  pose proof (lookup_grow_new 0 [o] s) as H.
  rewrite Nat.add_0_r in H. exact H.
Qed.

Lemma length_update (r : Obj.ref) (o : Obj.t) (s : Heap.t) :
  length (Heap.objects (Heap.update r o s)) = length (Heap.objects s).
Proof. unfold Heap.update. simpl. apply length_replace_nth. Qed.

Lemma length_grow (new : list Obj.t) (s : Heap.t) :
  length (Heap.objects (Heap.grow new s))
  = length (Heap.objects s) + length new.
Proof. unfold Heap.grow. simpl. apply length_app. Qed.

(** ** What stays below the mark *)

Lemma keeps_below_refl (n : nat) (s : Heap.t) : keeps_below n s s.
Proof. repeat split; auto. Qed.

Lemma keeps_below_trans (n : nat) (s1 s2 s3 : Heap.t) :
  keeps_below n s1 s2 -> keeps_below n s2 s3 -> keeps_below n s1 s3.
Proof.
  intros (Hc1 & Hl1 & Ho1) (Hc2 & Hl2 & Ho2).
  split; [congruence|]. split; [lia|].
  intros r Hr. rewrite Ho2, Ho1; auto.
Qed.

Lemma keeps_below_update (n : nat) (r : Obj.ref) (o : Obj.t) (s : Heap.t) :
  n <= r -> keeps_below n s (Heap.update r o s).
Proof.
  intros Hr. split; [reflexivity|]. split; [rewrite length_update; lia|].
  intros r' Hr'. apply lookup_update_other. lia.
Qed.

Lemma keeps_below_grow (n : nat) (new : list Obj.t) (s : Heap.t) :
  n <= length (Heap.objects s) -> keeps_below n s (Heap.grow new s).
Proof.
  intros Hn. split; [reflexivity|]. split; [rewrite length_grow; lia|].
  intros r Hr. apply lookup_grow_old. lia.
Qed.

Lemma keeps_below_extends (s s' : Heap.t) :
  keeps_below (length (Heap.objects s)) s s' -> extends s s'.
Proof.
  intros (Hc & _ & Ho). split; [exact Hc|].
  intros r o Hr. rewrite Ho; [exact Hr|]. exact (lookup_lt _ _ _ Hr).
Qed.

Lemma extends_refl (s : Heap.t) : extends s s.
Proof. split; auto. Qed.

Lemma extends_trans (s1 s2 s3 : Heap.t) :
  extends s1 s2 -> extends s2 s3 -> extends s1 s3.
Proof.
  intros (Hc1 & Ho1) (Hc2 & Ho2). split; [congruence|]. auto.
Qed.

Lemma during_keeps (n : nat) (g : Heap.Globals) (cs : c.t) (s s' : Heap.t) :
  during n g cs s -> keeps_below n s s' -> during n g cs s'.
Proof.
  intros (Hc & Hn & (Hp & Hp') & (He & He') & (Hg & Hg') & (Hl & Hl'))
         (Hc' & Hlen & Ho).
  unfold during. rewrite !Ho by assumption.
  repeat split; try assumption; [congruence|lia].
Qed.

(** ** The monad of the store *)

Lemma heap_bind_returns (A B : Type) (h : Heap.M A) (k : A -> Heap.M B)
    (a : A) (s s' : Heap.t) :
  h s = (Ok a, s') -> Heap.bind h k s = k a s'.
Proof. intros H. unfold Heap.bind. rewrite H. reflexivity. Qed.

Lemma heap_bind_raises (A B : Type) (h : Heap.M A) (k : A -> Heap.M B)
    (e : Exception) (s s' : Heap.t) :
  h s = (Err e, s') -> Heap.bind h k s = (Err e, s').
Proof. intros H. unfold Heap.bind. rewrite H. reflexivity. Qed.

(** ** Rules for following a call *)

Section Rules.

Variable n : nat.
Variable g : Heap.Globals.
Variable cs : c.t.

Lemma refines_ret (A B : Type) (P : Heap.t -> Prop) (a : A) (b : B)
    (R : A -> B -> Heap.t -> Prop) :
  (forall s, during n g cs s -> P s -> R a b s) ->
  refines n g cs P (Heap.ret a) (ret b) R.
Proof.
  intros H s Hd HP. split; [apply keeps_below_refl|].
  simpl. exists a. split; [reflexivity|]. apply H; assumption.
Qed.

Lemma refines_raise (A B : Type) (P : Heap.t -> Prop) (e : Exception)
    (R : A -> B -> Heap.t -> Prop) :
  refines n g cs P (Heap.raise e) (raise e) R.
Proof. intros s Hd HP. split; [apply keeps_below_refl|reflexivity]. Qed.

Lemma refines_pre (A B : Type) (P P' : Heap.t -> Prop) (hm : Heap.M A)
    (pm : M B) (R : A -> B -> Heap.t -> Prop) :
  (forall s, during n g cs s -> P s -> P' s) ->
  refines n g cs P' hm pm R ->
  refines n g cs P hm pm R.
Proof. intros HPP H s Hd HP. apply H; auto. Qed.

Lemma refines_post (A B : Type) (P : Heap.t -> Prop) (hm : Heap.M A)
    (pm : M B) (R R' : A -> B -> Heap.t -> Prop) :
  (forall a b s, during n g cs s -> R a b s -> R' a b s) ->
  refines n g cs P hm pm R ->
  refines n g cs P hm pm R'.
Proof.
  intros HRR H s Hd HP. destruct (H s Hd HP) as (Hk & Hres).
  split; [exact Hk|].
  destruct (run pm cs) as [b|e]; [|exact Hres].
  destruct Hres as (a & Ha & HR). exists a. split; [exact Ha|].
  apply HRR; [|exact HR]. exact (during_keeps _ _ _ _ _ Hd Hk).
Qed.

(** a step on the store that the first part does not see *)
Lemma refines_step (A B C : Type) (P : Heap.t -> Prop)
    (P' : A -> Heap.t -> Prop) (h : Heap.M A) (hf : A -> Heap.M B)
    (pm : M C) (R : B -> C -> Heap.t -> Prop) :
  (forall s, during n g cs s -> P s ->
     exists a, fst (h s) = Ok a
               /\ keeps_below n s (snd (h s))
               /\ P' a (snd (h s))) ->
  (forall a, refines n g cs (P' a) (hf a) pm R) ->
  refines n g cs P (Heap.bind h hf) pm R.
Proof.
  intros Hstep Hk s Hd HP.
  destruct (Hstep s Hd HP) as (a & Ha & Hkeep & HP').
  unfold Heap.bind. destruct (h s) as [r s'] eqn:Hhs. simpl in *. subst r.
  destruct (Hk a s' (during_keeps _ _ _ _ _ Hd Hkeep) HP') as (Hkeep' & Hres).
  split; [exact (keeps_below_trans _ _ _ _ Hkeep Hkeep')|exact Hres].
Qed.

(** the last step of a function that returns nothing *)
Lemma refines_last (A B : Type) (P : Heap.t -> Prop) (h : Heap.M A) (b : B)
    (R : A -> B -> Heap.t -> Prop) :
  (forall s, during n g cs s -> P s ->
     exists a, fst (h s) = Ok a
               /\ keeps_below n s (snd (h s))
               /\ R a b (snd (h s))) ->
  refines n g cs P h (ret b) R.
Proof.
  intros Hstep s Hd HP.
  destruct (Hstep s Hd HP) as (a & Ha & Hkeep & HR).
  split; [exact Hkeep|]. simpl. exists a. split; assumption.
Qed.

(** a helper that only reads, against its call in the first part *)
Lemma refines_reads_only (A B C : Type) (P : Heap.t -> Prop) (h : Heap.M A)
    (o : Outcome A) (hf : A -> Heap.M B) (pf : A -> M C)
    (R : B -> C -> Heap.t -> Prop) :
  reads_only h o ->
  (forall a, o = Returns a -> refines n g cs P (hf a) (pf a) R) ->
  refines n g cs P (Heap.bind h hf) (bind (call o) pf) R.
Proof.
  intros Hh Hk s Hd HP.
  assert (Hrun : Heap.bind h hf s
                 = match of_outcome o with
                   | Ok a => hf a s
                   | Err e => (Err e, s)
                   end).
  { unfold Heap.bind. rewrite Hh. reflexivity. }
  rewrite Hrun. destruct o as [a|exc]; simpl of_outcome; cbv iota.
  - change (run (bind (call (Returns a)) pf) cs) with (run (pf a) cs).
    exact (Hk a eq_refl s Hd HP).
  - split; [apply keeps_below_refl|reflexivity].
Qed.

Lemma reads_only_call (A : Type) (o : Outcome A) : reads_only (Heap.call o) o.
Proof. intros s. destruct o; reflexivity. Qed.

(** reading a name of [c] *)
Lemma refines_gets (A B C : Type) (P : Heap.t -> Prop)
    (f : Heap.Globals -> A) (hf : A -> Heap.M B) (pm : M C)
    (R : B -> C -> Heap.t -> Prop) :
  refines n g cs P (hf (f g)) pm R ->
  refines n g cs P (Heap.bind (Heap.gets f) hf) pm R.
Proof.
  intros H s Hd HP. unfold Heap.bind, Heap.gets.
  destruct Hd as (Hc & Hrest). rewrite Hc.
  apply H; [|exact HP]. split; assumption.
Qed.

Lemma refines_pure_gets (A B C : Type) (P : Heap.t -> Prop) (hm : Heap.M A)
    (f : c.t -> B) (pf : B -> M C) (R : A -> C -> Heap.t -> Prop) :
  refines n g cs P hm (pf (f cs)) R ->
  refines n g cs P hm (bind (gets f) pf) R.
Proof. intros H s Hd HP. rewrite run_bind_gets. apply H; assumption. Qed.

(** two functions of which the first refines the first *)
Lemma refines_bind (A A' B B' : Type) (P : Heap.t -> Prop) (hm : Heap.M A)
    (pm : M A') (R1 : A -> A' -> Heap.t -> Prop) (hf : A -> Heap.M B)
    (pf : A' -> M B') (R : B -> B' -> Heap.t -> Prop) :
  stateless pm ->
  refines n g cs P hm pm R1 ->
  (forall a a', refines n g cs (R1 a a') (hf a) (pf a') R) ->
  refines n g cs P (Heap.bind hm hf) (bind pm pf) R.
Proof.
  intros Hst Hm Hk s Hd HP.
  destruct (Hm s Hd HP) as (Hkeep & Hres).
  rewrite run_bind by exact Hst.
  unfold Heap.bind. destruct (hm s) as [r s'] eqn:Hhs. simpl in *.
  destruct (run pm cs) as [a'|e].
  - destruct Hres as (a & -> & HR).
    destruct (Hk a a' s' (during_keeps _ _ _ _ _ Hd Hkeep) HR)
      as (Hkeep' & Hres').
    split; [exact (keeps_below_trans _ _ _ _ Hkeep Hkeep')|exact Hres'].
  - subst r. split; [exact Hkeep|reflexivity].
Qed.

(** the same computation, written otherwise *)
Lemma refines_same (A B : Type) (P : Heap.t -> Prop) (hm hm' : Heap.M A)
    (pm pm' : M B) (R : A -> B -> Heap.t -> Prop) :
  (forall s, during n g cs s -> hm s = hm' s) ->
  run pm cs = run pm' cs ->
  refines n g cs P hm' pm' R ->
  refines n g cs P hm pm R.
Proof.
  intros Hh Hp H s Hd HP. rewrite (Hh s Hd), Hp. apply H; assumption.
Qed.

End Rules.

(** ** Steps on the item *)

Lemma modify_item_run (item : Obj.ref) (f : Obj.Item.t -> Obj.Item.t)
    (i : Obj.Item.t) (s : Heap.t) :
  Heap.lookup item s = Some (Obj.OItem i) ->
  Ref.Item.modify item f s
  = (Ok tt, Heap.update item (Obj.OItem (f i)) s).
Proof.
  intros H. unfold Ref.Item.modify, Heap.bind, Heap.the_item, Heap.put.
  rewrite H. reflexivity.
Qed.

Section Steps.

Variable n : nat.
Variable g : Heap.Globals.
Variable cs : c.t.

Lemma asset_of_update_item (s : Heap.t) (item : Obj.ref) (item_id : string)
    (i i' : Obj.Item.t) (r : Obj.ref) (a : Asset.t) :
  Heap.lookup item s = Some (Obj.OItem i) ->
  asset_of n s item item_id r a ->
  asset_of n (Heap.update item (Obj.OItem i') s) item item_id r a.
Proof.
  intros Hi (Hn & ao & Hr & Hrest). split; [exact Hn|]. exists ao.
  split; [|exact Hrest].
  rewrite lookup_update_other; [exact Hr|]. intros ->. congruence.
Qed.

Lemma new_asset_update_item (s : Heap.t) (item : Obj.ref)
    (i i' : Obj.Item.t) (r : Obj.ref) (a : Asset.t) :
  Heap.lookup item s = Some (Obj.OItem i) ->
  new_asset n s r a ->
  new_asset n (Heap.update item (Obj.OItem i') s) r a.
Proof.
  intros Hi (Hn & ao & Hr & Hrest). split; [exact Hn|]. exists ao.
  split; [|exact Hrest].
  rewrite lookup_update_other; [exact Hr|]. intros ->. congruence.
Qed.

(** an update of the item object that leaves its id, assets and links *)
Lemma stands_for_update (item : Obj.ref) (it it' : Item.t)
    (i i' : Obj.Item.t) (s : Heap.t) :
  stands_for n item it s ->
  Heap.lookup item s = Some (Obj.OItem i) ->
  Obj.Item.id i' = Item.id it' ->
  Obj.Item.geometry i' = Item.geometry it' ->
  Obj.Item.bbox i' = Item.bbox it' ->
  Obj.Item.datetime_ i' = Item.datetime_ it' ->
  Obj.Item.properties i' = Item.properties it' ->
  Obj.Item.stac_extensions i' = Item.stac_extensions it' ->
  Obj.Item.assets i' = Obj.Item.assets i ->
  Obj.Item.links i' = Obj.Item.links i ->
  Item.id it' = Item.id it ->
  Item.assets it' = Item.assets it ->
  Item.links it' = Item.links it ->
  stands_for n item it' (Heap.update item (Obj.OItem i') s).
Proof.
  intros (Hn & i0 & Hi0 & _ & _ & _ & _ & _ & _ & Hassets & Hnodup & Hlinks)
         Hi Hid Hgeo Hbbox Hdt Hprops Hexts Ha Hl Hid' Ha' Hl'.
  rewrite Hi in Hi0. injection Hi0 as <-.
  split; [exact Hn|]. exists i'.
  split; [exact (lookup_update_same _ _ _ _ Hi)|].
  repeat (split; [assumption|]).
  rewrite Ha, Ha', Hl, Hl', Hid'.
  split; [|split; [exact Hnodup|]].
  - eapply Forall2_impl; [|exact Hassets].
    intros kr ka (Hk & Hasset). split; [exact Hk|].
    exact (asset_of_update_item _ _ _ _ _ _ _ Hi Hasset).
  - eapply Forall2_impl; [|exact Hlinks].
    intros r l (Hr & Hlook). split; [exact Hr|].
    rewrite lookup_update_other; [exact Hlook|]. lia.
Qed.

(** assignments to the properties *)
Lemma step_properties (F : dict Value -> dict Value) (item : Obj.ref)
    (it : Item.t) (s : Heap.t) :
  stands_for n item it s ->
  let h :=
    Ref.Item.modify item
      (fun i => Obj.Item.with_properties (F (Obj.Item.properties i)) i) in
  fst (h s) = Ok tt
  /\ keeps_below n s (snd (h s))
  /\ stands_for n item (Item.with_properties (F (Item.properties it)) it)
       (snd (h s)).
Proof.
  intros Hs. pose proof Hs as (Hn & i & Hi & Hid & Hgeo & Hbbox & Hdt & Hprops
                               & Hexts & _).
  cbv zeta. rewrite (modify_item_run _ _ _ _ Hi). simpl fst. simpl snd.
  split; [reflexivity|]. split; [apply keeps_below_update; exact Hn|].
  apply (stands_for_update item it _ i _ s Hs Hi); simpl;
    try assumption; try reflexivity.
  rewrite Hprops. reflexivity.
Qed.

(** [Ext.ext(item, add_if_missing=True)] *)
Lemma step_ext (x : Extension) (item : Obj.ref) (it : Item.t) (s : Heap.t) :
  stands_for n item it s ->
  fst (Ref.Item.ext x item s) = Ok tt
  /\ keeps_below n s (snd (Ref.Item.ext x item s))
  /\ stands_for n item (Item.ext x it) (snd (Ref.Item.ext x item s)).
Proof.
  intros Hs. pose proof Hs as (Hn & i & Hi & Hid & Hgeo & Hbbox & Hdt & Hprops
                               & Hexts & _).
  unfold Ref.Item.ext. rewrite (modify_item_run _ _ _ _ Hi).
  simpl fst. simpl snd.
  split; [reflexivity|]. split; [apply keeps_below_update; exact Hn|].
  apply (stands_for_update item it _ i _ s Hs Hi); simpl;
    try assumption; try reflexivity.
  rewrite Hexts. reflexivity.
Qed.

End Steps.

(** ** Rules for the steps on the item *)

Section ItemRules.

Variable n : nat.
Variable g : Heap.Globals.
Variable cs : c.t.

Lemma refines_unit_end (B : Type) (P : Heap.t -> Prop) (h : Heap.M unit)
    (pm : M B) (R : unit -> B -> Heap.t -> Prop) :
  refines n g cs P (Heap.bind h (fun _ => Heap.ret tt)) pm R ->
  refines n g cs P h pm R.
Proof.
  intros H s Hd HP. specialize (H s Hd HP).
  assert (Heq : Heap.bind h (fun _ => Heap.ret tt) s = h s).
  { unfold Heap.bind, Heap.ret. destruct (h s) as [[[]|e] s']; reflexivity. }
  rewrite Heq in H. exact H.
Qed.

Lemma refines_ext (B C : Type) (x : Extension) (item : Obj.ref) (it : Item.t)
    (hk : Heap.M B) (pm : M C) (R : B -> C -> Heap.t -> Prop) :
  refines n g cs (stands_for n item (Item.ext x it)) hk pm R ->
  refines n g cs (stands_for n item it)
    (Heap.bind (Ref.Item.ext x item) (fun _ => hk)) pm R.
Proof.
  intros H.
  apply (refines_step n g cs _ _ _ _
           (fun _ => stands_for n item (Item.ext x it))); [|intros _; exact H].
  intros s _ Hs. exists tt. exact (step_ext n x item it s Hs).
Qed.

Lemma refines_properties (B C : Type) (F : dict Value -> dict Value)
    (item : Obj.ref) (it : Item.t) (hk : Heap.M B) (pm : M C)
    (R : B -> C -> Heap.t -> Prop) :
  refines n g cs
    (stands_for n item (Item.with_properties (F (Item.properties it)) it))
    hk pm R ->
  refines n g cs (stands_for n item it)
    (Heap.bind
       (Ref.Item.modify item
          (fun i => Obj.Item.with_properties (F (Obj.Item.properties i)) i))
       (fun _ => hk))
    pm R.
Proof.
  intros H.
  apply (refines_step n g cs _ _ _ _
           (fun _ => stands_for n item
                       (Item.with_properties (F (Item.properties it)) it)));
    [|intros _; exact H].
  intros s _ Hs. exists tt. exact (step_properties n F item it s Hs).
Qed.

Lemma refines_set_property (B C : Type) (k : string) (v : option Value)
    (item : Obj.ref) (it : Item.t) (hk : Heap.M B) (pm : M C)
    (R : B -> C -> Heap.t -> Prop) :
  refines n g cs (stands_for n item (Item.set_property k v it)) hk pm R ->
  refines n g cs (stands_for n item it)
    (Heap.bind (Ref.Item.set_property k v item) (fun _ => hk)) pm R.
Proof. exact (refines_properties B C (set_or_pop k v) item it hk pm R). Qed.

Lemma refines_set_item (B C : Type) (k : string) (v : Value)
    (item : Obj.ref) (it : Item.t) (hk : Heap.M B) (pm : M C)
    (R : B -> C -> Heap.t -> Prop) :
  refines n g cs
    (stands_for n item
       (Item.with_properties (dict_set k v (Item.properties it)) it))
    hk pm R ->
  refines n g cs (stands_for n item it)
    (Heap.bind (Ref.Item.set_item k v item) (fun _ => hk)) pm R.
Proof. exact (refines_properties B C (dict_set k v) item it hk pm R). Qed.

Lemma refines_update_properties (B C : Type) (d : dict Value)
    (item : Obj.ref) (it : Item.t) (hk : Heap.M B) (pm : M C)
    (R : B -> C -> Heap.t -> Prop) :
  refines n g cs
    (stands_for n item
       (Item.with_properties (dict_update d (Item.properties it)) it))
    hk pm R ->
  refines n g cs (stands_for n item it)
    (Heap.bind (Ref.Item.update_properties d item) (fun _ => hk)) pm R.
Proof. exact (refines_properties B C (dict_update d) item it hk pm R). Qed.

(** a filler at work on the item *)
Lemma refines_fill (B C : Type) (h : Obj.ref -> Heap.M unit)
    (o : Outcome Writes) (item : Obj.ref) (it : Item.t) (hk : Heap.M B)
    (pk : Writes -> M C) (R : B -> C -> Heap.t -> Prop) :
  fills_item h o ->
  (forall ws, o = Returns ws ->
     refines n g cs (stands_for n item (fill ws it)) hk (pk ws) R) ->
  refines n g cs (stands_for n item it)
    (Heap.bind (h item) (fun _ => hk)) (bind (call o) pk) R.
Proof.
  intros Hfill Hk s Hd Hs.
  pose proof Hs as (Hn & i & Hi & Hid & Hgeo & Hbbox & Hdt & Hprops
                    & Hexts & _).
  specialize (Hfill s item i Hi). unfold Heap.bind.
  destruct o as [ws|exc].
  - rewrite Hfill.
    change (run (bind (call (Returns ws)) pk) cs) with (run (pk ws) cs).
    set (s' := Heap.update item _ s).
    assert (Hkeep : keeps_below n s s') by (apply keeps_below_update; exact Hn).
    assert (Hs' : stands_for n item (fill ws it) s').
    { apply (stands_for_update n item it _ i _ s Hs Hi); simpl;
        try assumption; try reflexivity.
      rewrite Hprops. reflexivity. }
    destruct (Hk ws eq_refl s' (during_keeps _ _ _ _ _ Hd Hkeep) Hs')
      as (Hkeep' & Hres).
    split; [exact (keeps_below_trans _ _ _ _ Hkeep Hkeep')|exact Hres].
  - destruct Hfill as (p & ->). simpl.
    split; [apply keeps_below_update; exact Hn|reflexivity].
Qed.

(** reading the fields of the item *)
Lemma refines_the_item (B C : Type) (item : Obj.ref) (it : Item.t)
    (hk : Obj.Item.t -> Heap.M B) (pm : M C) (R : B -> C -> Heap.t -> Prop) :
  (forall i,
     Obj.Item.geometry i = Item.geometry it ->
     Obj.Item.properties i = Item.properties it ->
     map fst (Obj.Item.assets i) = map fst (Item.assets it) ->
     refines n g cs (stands_for n item it) (hk i) pm R) ->
  refines n g cs (stands_for n item it)
    (Heap.bind (Heap.the_item item) hk) pm R.
Proof.
  intros H s Hd Hs.
  pose proof Hs as (Hn & i & Hi & Hid & Hgeo & Hbbox & Hdt & Hprops
                    & Hexts & Hassets & _).
  unfold Heap.bind, Heap.the_item. rewrite Hi.
  apply H; try assumption.
  clear - Hassets. induction Hassets as [|kr ka l l' (Hk & _) _ IH];
    simpl; [reflexivity|]. rewrite Hk, IH. reflexivity.
Qed.

Lemma refines_projection_bbox (B C : Type) (item : Obj.ref) (it : Item.t)
    (hk : option (list float) -> Heap.M B) (pm : M C)
    (R : B -> C -> Heap.t -> Prop) :
  refines n g cs (stands_for n item it) (hk (projection_bbox it)) pm R ->
  refines n g cs (stands_for n item it)
    (Heap.bind (ByReference.projection_bbox item) hk) pm R.
Proof.
  intros H s Hd Hs.
  pose proof Hs as (Hn & i & Hi & Hid & Hgeo & Hbbox & Hdt & Hprops & _).
  unfold ByReference.projection_bbox.
  unfold Heap.bind, Heap.the_item, Heap.ret.
  rewrite Hi, Hprops. apply H; assumption.
Qed.

(** reading the provider behind [c.SENTINEL_PROVIDER] *)
Lemma refines_the_provider (B C : Type) (P : Heap.t -> Prop)
    (hk : Provider.t -> Heap.M B) (pm : M C) (R : B -> C -> Heap.t -> Prop) :
  refines n g cs P (hk (c.SENTINEL_PROVIDER cs)) pm R ->
  refines n g cs P
    (Heap.bind (Heap.the_provider (Heap.SENTINEL_PROVIDER g)) hk) pm R.
Proof.
  intros H s Hd HP.
  pose proof Hd as (_ & _ & (_ & Hp) & _).
  unfold Heap.bind, Heap.the_provider. rewrite Hp. apply H; assumption.
Qed.

(** [pystac.Item(...)] with a datetime *)
Lemma refines_item_new (P : Heap.t -> Prop) (id_ : string) (geometry_ : Value)
    (bbox_ : list float) (dt : datetime) :
  refines n g cs P
    (Ref.Item.new id_ geometry_ bbox_ (Some dt) [] [])
    (lift (Item.new id_ geometry_ bbox_ (Some dt) [] []))
    (fun r it s => stands_for n r it s).
Proof.
  intros s Hd _. pose proof Hd as (_ & Hn & _).
  unfold Ref.Item.new, Heap.bind, Heap.lift, Heap.alloc. simpl.
  split; [apply keeps_below_grow; exact Hn|].
  eexists. split; [reflexivity|].
  split; [exact Hn|]. eexists. split; [apply lookup_grow_one|].
  simpl. repeat (split; [reflexivity|]).
  split; [constructor|]. split; constructor.
Qed.

End ItemRules.

(** ** The item before its assets (lines 124-183) *)

Section BeforeAssets.

Variable n : nat.
Variable g : Heap.Globals.
Variable cs : c.t.
Variable H : Stateful.Helpers.
Variable E : Externals.
Hypothesis Himpl : implements H E.
Hypothesis Hvalues : same_values g cs.

Variable m : Stateful.SLCMetadataLinks.t.
Variable ml : SLCMetadataLinks.t.
Hypothesis Hm : metalinks_stand_for m ml.

Variable pmh : Stateful.SLCProductMetadata.t.
Variable pm : SLCProductMetadata.t.
Hypothesis Hpm : product_metadata_stands_for pmh pm.

Lemma refines_new_item (P : Heap.t -> Prop) (scene_id : string) :
  refines n g cs P (ByReference.new_item pmh scene_id) (new_item pm scene_id)
    (fun r it s => stands_for n r it s).
Proof.
  destruct Hpm as (_ & Hgeo & Hbbox & Hdt & _).
  unfold ByReference.new_item, new_item. cbv zeta.
  apply refines_reads_only; [exact Hgeo|intros geometry _].
  apply refines_reads_only; [exact Hbbox|intros bbox _].
  apply refines_reads_only; [exact Hdt|intros dt _].
  apply refines_item_new.
Qed.

Lemma refines_add_extensions (rhm : option ReadHrefModifier)
    (kw : dict Value) (item : Obj.ref) (it : Item.t) :
  refines n g cs (stands_for n item it)
    (ByReference.add_extensions H E m pmh rhm kw item)
    (add_extensions E ml pm rhm kw it)
    (fun _ it' s => stands_for n item it' s).
Proof.
  destruct Hpm as (_ & _ & Hbbox & _).
  pose proof Hm as (_ & _ & _ & Hmanifest & _).
  unfold ByReference.add_extensions, add_extensions. cbv zeta.
  rewrite Hmanifest.
  apply refines_ext.
  apply (refines_fill n g cs _ _
           (fun r => Stateful.fill_common_sar_properties H r (SLCMetadataLinks.manifest ml))
           (fill_common_sar_properties E (SLCMetadataLinks.manifest ml)));
    [apply (impl_common_sar Himpl)|intros ws1 _].
  apply refines_ext.
  apply (refines_fill n g cs _ _
           (fun r => Stateful.fill_sat_properties H r (SLCMetadataLinks.manifest ml))
           (fill_sat_properties E (SLCMetadataLinks.manifest ml)));
    [apply (impl_sat Himpl)|intros ws2 _].
  apply refines_ext.
  apply (refines_fill n g cs _ _
           (fun r => Stateful.fill_processing_properties H r (SLCMetadataLinks.manifest ml))
           (fill_processing_properties E (SLCMetadataLinks.manifest ml)));
    [apply (impl_processing Himpl)|intros ws3 _].
  apply refines_ext.
  apply refines_set_property.
  apply refines_reads_only; [exact Hbbox|intros bbox _].
  apply refines_set_property.
  apply refines_reads_only;
    [apply (impl_get_shape Himpl); exact Hm|intros shape _].
  apply refines_set_property.
  apply refines_projection_bbox.
  apply refines_reads_only; [apply reads_only_call|intros transform _].
  apply refines_set_property.
  apply refines_the_item. intros i Hgeo _ _. rewrite Hgeo.
  apply refines_reads_only; [apply reads_only_call|intros [x y] _].
  apply refines_unit_end.
  apply refines_set_property.
  apply refines_ret. intros s _ Hs. exact Hs.
Qed.

Lemma refines_add_common_metadata (item : Obj.ref) (it : Item.t) :
  refines n g cs (stands_for n item it)
    (ByReference.add_common_metadata pmh item)
    (add_common_metadata pm it)
    (fun _ it' s => stands_for n item it' s).
Proof.
  destruct Hpm as (_ & _ & _ & _ & Hplatform & _).
  destruct Hvalues as (Hconstellation & _).
  unfold ByReference.add_common_metadata, add_common_metadata. cbv zeta.
  apply refines_gets. apply refines_pure_gets.
  apply refines_the_provider.
  apply refines_set_property.
  apply refines_reads_only; [exact Hplatform|intros platform _].
  apply refines_set_property.
  apply refines_gets. apply refines_pure_gets. rewrite Hconstellation.
  apply refines_unit_end.
  apply refines_set_property.
  apply refines_ret. intros s _ Hs. exact Hs.
Qed.

Lemma refines_add_s1_properties (scene_id : string) (item : Obj.ref)
    (it : Item.t) :
  refines n g cs (stands_for n item it)
    (ByReference.add_s1_properties E m pmh scene_id item)
    (add_s1_properties E ml pm scene_id it)
    (fun _ it' s => stands_for n item it' s).
Proof.
  destruct Hpm as (_ & _ & _ & _ & _ & Hmd & _).
  pose proof Hm as (_ & _ & _ & Hmanifest & _).
  unfold ByReference.add_s1_properties, add_s1_properties. cbv zeta.
  rewrite Hmanifest.
  apply refines_reads_only; [exact Hmd|intros metadata_dict _].
  apply refines_update_properties.
  apply refines_set_item.
  destruct (truthy _).
  - apply refines_unit_end. apply refines_set_item.
    apply refines_ret. intros s _ Hs. exact Hs.
  - apply refines_ret. intros s _ Hs. exact Hs.
Qed.

End BeforeAssets.

(** ** Adding an asset *)

Lemma Forall2_dict_set (A B : Type) (R : string * A -> string * B -> Prop)
    (k : string) (v : A) (w : B) (d : dict A) (d' : dict B) :
  (forall x y, R x y -> fst x = fst y) ->
  Forall2 R d d' ->
  R (k, v) (k, w) ->
  Forall2 R (dict_set k v d) (dict_set k w d').
Proof.
  intros Hkey HF HR.
  induction HF as [|[k1 v1] [k2 v2] l l' Hxy Hrest IH]; simpl.
  - constructor; [exact HR|constructor].
  - pose proof (Hkey _ _ Hxy) as Heq. simpl in Heq. subst k2.
    destruct (String.eqb k k1).
    + constructor; assumption.
    + constructor; assumption.
Qed.

Lemma Forall2_weaken_in (A B : Type) (R R' : A -> B -> Prop) (l : list A)
    (l' : list B) :
  (forall x y, In x l -> In y l' -> R x y -> R' x y) ->
  Forall2 R l l' -> Forall2 R' l l'.
Proof.
  intros H HF. induction HF as [|x y r r' Hxy _ IH]; constructor.
  - apply H; [left; reflexivity|left; reflexivity|exact Hxy].
  - apply IH. intros x' y' Hx Hy. apply H; right; assumption.
Qed.

Lemma in_values_dict_set (A : Type) (k : string) (v x : A) (d : dict A) :
  In x (map snd (dict_set k v d)) -> x = v \/ In x (map snd d).
Proof.
  induction d as [|[k1 v1] r IH]; simpl.
  - intros [H|[]]. left. congruence.
  - destruct (String.eqb k k1); simpl.
    + intros [H|H]; [left; congruence|right; right; exact H].
    + intros [H|H]; [right; left; exact H|].
      destruct (IH H) as [H'|H']; [left; exact H'|right; right; exact H'].
Qed.

Lemma NoDup_values_dict_set (A : Type) (k : string) (v : A) (d : dict A) :
  NoDup (map snd d) -> ~ In v (map snd d) ->
  NoDup (map snd (dict_set k v d)).
Proof.
  induction d as [|[k1 v1] r IH]; simpl; intros Hnd Hin.
  - constructor; [intros []|constructor].
  - inversion Hnd as [|? ? Hnotin Hnd']; subst.
    destruct (String.eqb k k1); simpl.
    + constructor; [|exact Hnd']. intros H. apply Hin. right. exact H.
    + constructor.
      * intros H. apply in_values_dict_set in H.
        destruct H as [->|H]; [apply Hin; left; reflexivity|contradiction].
      * apply IH; [exact Hnd'|]. intros H. apply Hin. right. exact H.
Qed.

Section Assets.

Variable n : nat.
Variable g : Heap.Globals.
Variable cs : c.t.

Lemma stands_for_asset_lt (item : Obj.ref) (it : Item.t) (s : Heap.t)
    (i : Obj.Item.t) (r : Obj.ref) :
  stands_for n item it s ->
  Heap.lookup item s = Some (Obj.OItem i) ->
  In r (map snd (Obj.Item.assets i)) ->
  exists ao, Heap.lookup r s = Some (Obj.OAsset ao).
Proof.
  intros (_ & i0 & Hi0 & _ & _ & _ & _ & _ & _ & Hassets & _) Hi Hin.
  rewrite Hi in Hi0. injection Hi0 as <-.
  induction Hassets as [|kr ka l l' (_ & _ & ao & Hao & _) _ IH].
  - destruct Hin.
  - destruct Hin as [<-|Hin]; [exists ao; exact Hao|exact (IH Hin)].
Qed.

(** objects that come after the ones of the store do not disturb the
    item *)
Lemma stands_for_grow (item : Obj.ref) (it : Item.t) (new : list Obj.t)
    (s : Heap.t) :
  stands_for n item it s -> stands_for n item it (Heap.grow new s).
Proof.
  intros (Hn & i & Hi & Hid & Hgeo & Hbbox & Hdt & Hprops & Hexts & Hassets
          & Hnodup & Hlinks).
  split; [exact Hn|]. exists i.
  split; [exact (lookup_grow_some _ _ _ _ Hi)|].
  repeat (split; [assumption|]).
  split; [|split; [exact Hnodup|]].
  - eapply Forall2_impl; [|exact Hassets].
    intros kr ka (Hk & Hr & ao & Hao & Hrest). split; [exact Hk|].
    split; [exact Hr|]. exists ao.
    split; [exact (lookup_grow_some _ _ _ _ Hao)|exact Hrest].
  - eapply Forall2_impl; [|exact Hlinks].
    intros r l (Hr & Hl). split; [exact Hr|].
    exact (lookup_grow_some _ _ _ _ Hl).
Qed.

(** [item.add_asset(key, asset)] for an asset that is new *)
Lemma step_add_asset (key : string) (asset item : Obj.ref) (a : Asset.t)
    (it : Item.t) (s : Heap.t) :
  stands_for n item it s ->
  new_asset n s asset a ->
  unused s item asset ->
  let s' := snd (Ref.Item.add_asset key asset item s) in
  fst (Ref.Item.add_asset key asset item s) = Ok tt
  /\ keeps_below n s s'
  /\ stands_for n item (Item.add_asset key a it) s'
  /\ (forall r, r <> asset -> r <> item ->
        Heap.lookup r s' = Heap.lookup r s)
  /\ (forall i i', Heap.lookup item s = Some (Obj.OItem i) ->
        Heap.lookup item s' = Some (Obj.OItem i') ->
        i' = Obj.Item.with_assets (dict_set key asset (Obj.Item.assets i)) i)
  /\ (forall ao, Heap.lookup asset s = Some (Obj.OAsset ao) ->
        Heap.lookup asset s'
        = Some (Obj.OAsset (Obj.Asset.set_owner item ao))).
Proof.
  intros Hs (Hna & ao & Hao & Hdesc) Hunused.
  pose proof Hs as (Hn & i & Hi & Hid & Hgeo & Hbbox & Hdt & Hprops & Hexts
                    & Hassets & Hnodup & Hlinks).
  assert (Hne : asset <> item) by (intros ->; congruence).
  set (s1 := Heap.update asset (Obj.OAsset (Obj.Asset.set_owner item ao)) s).
  assert (Hi1 : Heap.lookup item s1 = Some (Obj.OItem i)).
  { unfold s1. rewrite lookup_update_other; [exact Hi|exact Hne]. }
  set (i' := Obj.Item.with_assets (dict_set key asset (Obj.Item.assets i)) i).
  assert (Hrun : Ref.Item.add_asset key asset item s
                 = (Ok tt, Heap.update item (Obj.OItem i') s1)).
  { unfold Ref.Item.add_asset.
    unfold Heap.bind at 1. unfold Heap.the_asset. rewrite Hao.
    unfold Heap.bind at 1. unfold Heap.put at 1. fold s1.
    rewrite (modify_item_run _ _ _ _ Hi1). reflexivity. }
  cbv zeta. rewrite Hrun. simpl fst. simpl snd.
  assert (Hother : forall r, r <> asset -> r <> item ->
            Heap.lookup r (Heap.update item (Obj.OItem i') s1)
            = Heap.lookup r s).
  { intros r Hr1 Hr2. rewrite lookup_update_other by congruence.
    unfold s1. apply lookup_update_other. congruence. }
  split; [reflexivity|].
  split.
  { apply (keeps_below_trans _ _ s1);
      [apply keeps_below_update; exact Hna|apply keeps_below_update; exact Hn]. }
  split.
  { split; [exact Hn|]. exists i'.
    split; [exact (lookup_update_same _ _ _ _ Hi1)|].
    unfold i'. simpl. repeat (split; [assumption|]).
    split; [|split].
    - unfold Item.add_asset. simpl.
      apply Forall2_dict_set.
      + intros x y (Hk & _). exact Hk.
      + eapply Forall2_weaken_in; [|exact Hassets].
        intros kr ka Hinr _ (Hk & Hr & ao' & Hao' & Hrest).
        split; [exact Hk|]. split; [exact Hr|]. exists ao'.
        split; [|exact Hrest].
        rewrite Hother; [exact Hao'| |intros Heq; rewrite Heq in Hao'; congruence].
        intros Heq. apply (Hunused i Hi). rewrite <- Heq.
        apply in_map. exact Hinr.
      + simpl. split; [reflexivity|]. split; [exact Hna|].
        exists (Obj.Asset.set_owner item ao).
        split.
        { rewrite lookup_update_other by congruence.
          unfold s1. exact (lookup_update_same _ _ _ _ Hao). }
        split; [exact Hdesc|]. split; [reflexivity|reflexivity].
    - apply NoDup_values_dict_set; [exact Hnodup|exact (Hunused i Hi)].
    - unfold Item.add_asset. simpl.
      eapply Forall2_impl; [|exact Hlinks].
      intros r l (Hr & Hl). split; [exact Hr|].
      rewrite Hother; [exact Hl|lia|lia]. }
  split; [exact Hother|]. split.
  - intros i0 i0' Hi0 Hi0'. rewrite Hi in Hi0. injection Hi0 as <-.
    rewrite (lookup_update_same _ _ _ _ Hi1) in Hi0'. injection Hi0' as <-.
    reflexivity.
  - intros ao0 Hao0. rewrite Hao in Hao0. injection Hao0 as <-.
    rewrite lookup_update_other by congruence.
    unfold s1. exact (lookup_update_same _ _ _ _ Hao).
Qed.

End Assets.

(** ** The metadata assets and the thumbnail (lines 185-221) *)

Section MetadataAssets.

Variable n : nat.
Variable g : Heap.Globals.
Variable cs : c.t.

Lemma pending_after_add (key : string) (asset item : Obj.ref) (a : Asset.t)
    (it : Item.t) (refs : list Obj.ref) (rest : list Asset.t) (s : Heap.t) :
  stands_for n item it s ->
  pending n s item (asset :: refs) (a :: rest) ->
  pending n (snd (Ref.Item.add_asset key asset item s)) item refs rest.
Proof.
  intros Hs (Hnew & Hnodup & Hunused).
  inversion Hnew as [|? ? ? ? Hasset Hrest]; subst.
  inversion Hnodup as [|? ? Hnotin Hnodup']; subst.
  pose proof Hs as (_ & i & Hi & _).
  destruct (step_add_asset n key asset item a it s Hs Hasset
              (Hunused asset (or_introl eq_refl)))
    as (_ & _ & Hs' & Hother & Hassets & _).
  cbv zeta in *.
  assert (Hne : forall r, In r refs -> r <> asset /\ r <> item).
  { intros r Hr. split; [intros ->; contradiction|].
    intros ->. clear - Hrest Hr Hi.
    induction Hrest as [|r0 a0 l l' (_ & ao & Hao & _) _ IH];
      [destruct Hr|].
    destruct Hr as [->|Hr]; [congruence|exact (IH Hr)]. }
  split; [|split; [exact Hnodup'|]].
  - eapply Forall2_weaken_in; [|exact Hrest].
    intros r a0 Hr _ (Hnr & ao & Hao & Hdesc).
    destruct (Hne r Hr) as (Hr1 & Hr2).
    split; [exact Hnr|]. exists ao. split; [|exact Hdesc].
    rewrite Hother; assumption.
  - intros r Hr i' Hi' Hin.
    rewrite (Hassets i i' Hi Hi') in Hin. simpl in Hin.
    apply in_values_dict_set in Hin.
    destruct (Hne r Hr) as (Hr1 & _).
    destruct Hin as [->|Hin]; [congruence|].
    exact (Hunused r (or_intror Hr) i Hi Hin).
Qed.

(** the loop [for asset_obj in ...: item.add_asset(...)] *)
Lemma step_add_assets (item : Obj.ref) (refs : list (string * Obj.ref)) :
  forall (assets : list (string * Asset.t)) (it : Item.t) (s : Heap.t),
    stands_for n item it s ->
    map fst refs = map fst assets ->
    pending n s item (map snd refs) (map snd assets) ->
    fst (ByReference.add_assets refs item s) = Ok tt
    /\ keeps_below n s (snd (ByReference.add_assets refs item s))
    /\ stands_for n item (add_assets assets it)
         (snd (ByReference.add_assets refs item s)).
Proof.
  induction refs as [|[key r] refs IH]; intros [|[key' a] assets] it s Hs Hkeys
    Hpending; try discriminate Hkeys.
  - simpl. split; [reflexivity|]. split; [apply keeps_below_refl|exact Hs].
  - simpl in Hkeys. injection Hkeys as <- Hkeys. simpl in Hpending.
    pose proof Hpending as (Hnew & _ & Hunused).
    inversion Hnew as [|? ? ? ? Hasset _]; subst.
    destruct (step_add_asset n key r item a it s Hs Hasset
                (Hunused r (or_introl eq_refl)))
      as (Hok & Hkeep & Hs' & _).
    pose proof (pending_after_add key r item a it _ _ s Hs Hpending)
      as Hpending'.
    cbv zeta in *.
    unfold ByReference.add_assets in *. simpl HeapOps.for_each.
    unfold Heap.bind at 1 2 3. simpl fst at 1. simpl snd at 1.
    destruct (Ref.Item.add_asset key r item s) as [res s'] eqn:Hrun.
    simpl in Hok, Hkeep, Hs', Hpending'. subst res.
    destruct (IH assets (Item.add_asset key a it) s' Hs' Hkeys Hpending')
      as (Hok' & Hkeep' & Hs'').
    split; [exact Hok'|].
    split; [exact (keeps_below_trans _ _ _ _ Hkeep Hkeep')|exact Hs''].
Qed.

Lemma new_assets_grown (aos : list Obj.Asset.t) (assets : list Asset.t) :
  Forall2 describes aos assets ->
  forall (c_ : Heap.Globals) (pre : list Obj.t),
    n <= length pre ->
    Forall2 (new_asset n (Heap.mk c_ (pre ++ map Obj.OAsset aos)))
      (seq (length pre) (length aos)) assets.
Proof.
  intros HF. induction HF as [|ao a aos' assets' Hdesc _ IH];
    intros c_ pre Hn; simpl; constructor.
  - split; [exact Hn|]. exists ao. split; [|exact Hdesc].
    unfold Heap.lookup. simpl.
    rewrite nth_error_app2 by lia. rewrite Nat.sub_diag. reflexivity.
  - specialize (IH c_ (pre ++ [Obj.OAsset ao])).
    rewrite length_app in IH. simpl in IH.
    rewrite Nat.add_1_r in IH. rewrite <- app_assoc in IH. simpl in IH.
    apply IH. lia.
Qed.

Lemma pending_grown (item : Obj.ref) (it : Item.t) (aos : list Obj.Asset.t)
    (assets : list Asset.t) (s : Heap.t) :
  during n g cs s ->
  stands_for n item it s ->
  Forall2 describes aos assets ->
  pending n (Heap.grow (map Obj.OAsset aos) s) item
    (seq (length (Heap.objects s)) (length aos)) assets.
Proof.
  intros (_ & Hn & _) Hs Hdesc.
  split; [|split; [apply seq_NoDup|]].
  - destruct s as [c_ objects]. unfold Heap.grow. simpl in *.
    apply new_assets_grown; assumption.
  - intros r Hr i Hi Hin. apply in_seq in Hr.
    pose proof Hs as (_ & i0 & Hi0 & _).
    rewrite (lookup_grow_some _ _ _ _ Hi0) in Hi. injection Hi as <-.
    destruct (stands_for_asset_lt n item it s i0 r Hs Hi0 Hin) as (ao & Hao).
    apply lookup_lt in Hao. lia.
Qed.

Lemma map_fst_combine (A B : Type) (l : list A) (l' : list B) :
  length l = length l' -> map fst (combine l l') = l.
Proof.
  revert l'. induction l as [|x r IH]; intros [|y r'] Hlen; simpl in *;
    try discriminate; [reflexivity|]. rewrite IH by lia. reflexivity.
Qed.

Lemma map_snd_combine (A B : Type) (l : list A) (l' : list B) :
  length l = length l' -> map snd (combine l l') = l'.
Proof.
  revert l'. induction l as [|x r IH]; intros [|y r'] Hlen; simpl in *;
    try discriminate; [reflexivity|]. rewrite IH by lia. reflexivity.
Qed.

(** a helper makes assets, and the loop adds them to the item *)
Lemma refines_add_batch (B C : Type) (h : Heap.M (list (string * Obj.ref)))
    (o : Outcome (list (string * Asset.t))) (item : Obj.ref) (it : Item.t)
    (hk : Heap.M B) (pk : list (string * Asset.t) -> M C)
    (R : B -> C -> Heap.t -> Prop) :
  creates_assets h o ->
  (forall assets, o = Returns assets ->
     refines n g cs (stands_for n item (add_assets assets it)) hk (pk assets)
       R) ->
  refines n g cs (stands_for n item it)
    (Heap.bind h
       (fun assets =>
          Heap.bind (ByReference.add_assets assets item) (fun _ => hk)))
    (bind (call o) pk) R.
Proof.
  intros Hh Hk s Hd Hs. specialize (Hh s).
  destruct o as [assets|exc].
  - destruct Hh as (aos & Hdesc & Hhs).
    change (run (bind (call (Returns assets)) pk) cs) with (run (pk assets) cs).
    set (s1 := Heap.grow (map Obj.OAsset aos) s).
    set (refs := combine (map fst assets)
                   (seq (length (Heap.objects s)) (length assets))).
    assert (Hlen : length aos = length assets).
    { apply Forall2_length in Hdesc. rewrite length_map in Hdesc. exact Hdesc. }
    assert (Hkeep1 : keeps_below n s s1).
    { apply keeps_below_grow. destruct Hd as (_ & Hn & _). exact Hn. }
    assert (Hlens : length (map fst assets)
                    = length (seq (length (Heap.objects s)) (length assets)))
      by (rewrite length_map, length_seq; reflexivity).
    destruct (step_add_assets item refs assets it s1
                (stands_for_grow n item it _ s Hs))
      as (Hok & Hkeep2 & Hs2).
    { unfold refs. apply map_fst_combine. exact Hlens. }
    { unfold refs, Obj.ref.
      rewrite (map_snd_combine _ _ _ _ Hlens), <- Hlen.
      apply (pending_grown item it); assumption. }
    destruct (ByReference.add_assets refs item s1) as [res s2] eqn:Hrun.
    simpl in Hok, Hkeep2, Hs2. subst res.
    assert (Heq : Heap.bind h
                    (fun assets =>
                       Heap.bind (ByReference.add_assets assets item)
                         (fun _ => hk)) s
                  = hk s2).
    { rewrite (heap_bind_returns _ _ _ _ _ _ _ Hhs).
      exact (heap_bind_returns _ _ _ _ _ _ _ Hrun). }
    rewrite Heq.
    assert (Hkeep : keeps_below n s s2)
      by exact (keeps_below_trans _ _ _ _ Hkeep1 Hkeep2).
    destruct (Hk assets eq_refl s2 (during_keeps _ _ _ _ _ Hd Hkeep) Hs2)
      as (Hkeep' & Hres).
    split; [exact (keeps_below_trans _ _ _ _ Hkeep Hkeep')|exact Hres].
  - rewrite (heap_bind_raises _ _ _ _ _ _ _ Hh). simpl.
    split; [apply keeps_below_refl|reflexivity].
Qed.

(** a helper makes one asset, and it is added to the item *)
Lemma refines_add_created (B C : Type) (h : Heap.M (string * Obj.ref))
    (o : Outcome (string * Asset.t)) (item : Obj.ref) (it : Item.t)
    (hk : Heap.M B) (pk : string -> Asset.t -> M C)
    (R : B -> C -> Heap.t -> Prop) :
  creates_asset h o ->
  (forall key a, o = Returns (key, a) ->
     refines n g cs (stands_for n item (Item.add_asset key a it)) hk
       (pk key a) R) ->
  refines n g cs (stands_for n item it)
    (Heap.bind h
       (fun x =>
          match x with
          | (key, asset) =>
              Heap.bind (Ref.Item.add_asset key asset item) (fun _ => hk)
          end))
    (bind (call o) (fun x => match x with (key, a) => pk key a end)) R.
Proof.
  intros Hh Hk s Hd Hs. specialize (Hh s). unfold creates_asset_from in Hh.
  destruct o as [[key a]|exc].
  - destruct Hh as (ao & Hdesc & Hhs).
    change (run (bind (call (Returns (key, a)))
                   (fun x => match x with (key, a) => pk key a end)) cs)
      with (run (pk key a) cs).
    set (s1 := Heap.grow [Obj.OAsset ao] s).
    assert (Hkeep1 : keeps_below n s s1).
    { apply keeps_below_grow. destruct Hd as (_ & Hn & _). exact Hn. }
    pose proof (pending_grown item it [ao] [a] s Hd Hs
                  (Forall2_cons _ _ Hdesc (Forall2_nil _))) as Hpending.
    simpl in Hpending. fold s1 in Hpending.
    destruct Hpending as (Hnew & _ & Hunused).
    inversion Hnew as [|? ? ? ? Hasset _]; subst.
    destruct (step_add_asset n key (length (Heap.objects s)) item a it s1
                (stands_for_grow n item it _ s Hs) Hasset
                (Hunused _ (or_introl eq_refl)))
      as (Hok & Hkeep2 & Hs2 & _).
    cbv zeta in *.
    destruct (Ref.Item.add_asset key (length (Heap.objects s)) item s1)
      as [res s2] eqn:Hrun.
    simpl in Hok, Hkeep2, Hs2. subst res.
    assert (Heq : Heap.bind h
                    (fun x =>
                       match x with
                       | (key, asset) =>
                           Heap.bind (Ref.Item.add_asset key asset item)
                             (fun _ => hk)
                       end) s
                  = hk s2).
    { rewrite (heap_bind_returns _ _ _ _ _ _ _ Hhs).
      exact (heap_bind_returns _ _ _ _ _ _ _ Hrun). }
    rewrite Heq.
    assert (Hkeep : keeps_below n s s2)
      by exact (keeps_below_trans _ _ _ _ Hkeep1 Hkeep2).
    destruct (Hk key a eq_refl s2 (during_keeps _ _ _ _ _ Hd Hkeep) Hs2)
      as (Hkeep' & Hres).
    split; [exact (keeps_below_trans _ _ _ _ Hkeep Hkeep')|exact Hres].
  - rewrite (heap_bind_raises _ _ _ _ _ _ _ Hh). simpl.
    split; [apply keeps_below_refl|reflexivity].
Qed.

End MetadataAssets.

Section BuildItem.

Variable n : nat.
Variable g : Heap.Globals.
Variable cs : c.t.
Variable H : Stateful.Helpers.
Variable E : Externals.
Hypothesis Himpl : implements H E.
Hypothesis Hvalues : same_values g cs.

Variable m : Stateful.SLCMetadataLinks.t.
Variable ml : SLCMetadataLinks.t.
Hypothesis Hm : metalinks_stand_for m ml.

Variable pmh : Stateful.SLCProductMetadata.t.
Variable pm : SLCProductMetadata.t.
Hypothesis Hpm : product_metadata_stands_for pmh pm.

Lemma refines_then_ret (A B : Type) (P : Heap.t -> Prop) (hm : Heap.M unit)
    (x : A) (pc : M B) (R : unit -> B -> Heap.t -> Prop)
    (R' : A -> B -> Heap.t -> Prop) :
  refines n g cs P hm pc R ->
  (forall b s, R tt b s -> R' x b s) ->
  refines n g cs P (Heap.bind hm (fun _ => Heap.ret x)) pc R'.
Proof.
  intros Hm' HR s Hd HP. destruct (Hm' s Hd HP) as (Hkeep & Hres).
  unfold Heap.bind, Heap.ret. destruct (hm s) as [[[]|e] s']; simpl in *.
  - split; [exact Hkeep|]. destruct (run pc cs) as [b|e].
    + destruct Hres as (a & _ & HRa). destruct a. exists x.
      split; [reflexivity|]. apply HR. exact HRa.
    + discriminate Hres.
  - split; [exact Hkeep|]. destruct (run pc cs) as [b|e'].
    + destruct Hres as (a & Ha & _). discriminate Ha.
    + injection Hres as ->. reflexivity.
Qed.

(** the thumbnail: a new asset object, added under ['thumbnail'] *)
Lemma refines_thumbnail (href : string) (item : Obj.ref) (it : Item.t) :
  refines n g cs (stands_for n item it)
    (Heap.bind
       (Ref.Asset.new href (Some "Preview Image")
          (Some constants.thumbnail_description) (Some MediaType.PNG)
          (Some ["thumbnail"]))
       (fun asset => Ref.Item.add_asset "thumbnail" asset item))
    (ret (Item.add_asset "thumbnail" (thumbnail_asset href) it))
    (fun _ it' s => stands_for n item it' s).
Proof.
  apply refines_last. intros s Hd Hs.
  set (ao := Obj.Asset.mk href (Some "Preview Image")
               (Some constants.thumbnail_description) (Some MediaType.PNG)
               (Some ["thumbnail"]) [] None).
  set (s1 := Heap.grow [Obj.OAsset ao] s).
  assert (Hdesc : describes ao (thumbnail_asset href))
    by (repeat split).
  pose proof (pending_grown n g cs item it [ao] [thumbnail_asset href] s Hd Hs
                (Forall2_cons _ _ Hdesc (Forall2_nil _))) as Hpending.
  simpl in Hpending. fold s1 in Hpending.
  destruct Hpending as (Hnew & _ & Hunused).
  inversion Hnew as [|? ? ? ? Hasset _]; subst.
  destruct (step_add_asset n "thumbnail" (length (Heap.objects s)) item
              (thumbnail_asset href) it s1
              (stands_for_grow n item it _ s Hs) Hasset
              (Hunused _ (or_introl eq_refl)))
    as (Hok & Hkeep2 & Hs2 & _).
  cbv zeta in *.
  assert (Heq : Heap.bind
                  (Ref.Asset.new href (Some "Preview Image")
                     (Some constants.thumbnail_description)
                     (Some MediaType.PNG) (Some ["thumbnail"]))
                  (fun asset => Ref.Item.add_asset "thumbnail" asset item) s
                = Ref.Item.add_asset "thumbnail" (length (Heap.objects s))
                    item s1)
    by reflexivity.
  rewrite Heq. exists tt. split; [|split].
  - destruct (Ref.Item.add_asset _ _ _ s1) as [[[]|e] s2];
      [reflexivity|discriminate Hok].
  - apply (keeps_below_trans _ _ s1); [|exact Hkeep2].
    apply keeps_below_grow. destruct Hd as (_ & Hn & _). exact Hn.
  - exact Hs2.
Qed.

Lemma refines_add_metadata_assets (item : Obj.ref) (it : Item.t) :
  refines n g cs (stands_for n item it)
    (ByReference.add_metadata_assets m item)
    (add_metadata_assets ml it)
    (fun _ it' s => stands_for n item it' s).
Proof.
  destruct Hm as (_ & _ & _ & _ & Hthumb & Hmanifest & Hproduct & Hcal & Hnoise).
  unfold ByReference.add_metadata_assets, add_metadata_assets. cbv zeta.
  rewrite Hthumb.
  apply (refines_add_created n g cs _ _ _ _ item it _
           (fun key asset =>
              bind (call (SLCMetadataLinks.create_product_asset ml)) _));
    [exact Hmanifest|intros key a _].
  apply refines_add_batch; [exact Hproduct|intros assets1 _].
  apply refines_add_batch; [exact Hcal|intros assets2 _].
  apply refines_add_batch; [exact Hnoise|intros assets3 _].
  destruct (SLCMetadataLinks.thumbnail_href ml) as [href|].
  - apply refines_thumbnail.
  - apply refines_ret. intros s _ Hs. exact Hs.
Qed.

Lemma refines_build_item (P : Heap.t -> Prop)
    (rhm : option ReadHrefModifier) (kw : dict Value) :
  refines n g cs P
    (ByReference.build_item H E m pmh rhm kw)
    (build_item E ml pm rhm kw)
    (fun item it s => stands_for n item it s).
Proof.
  pose proof Hpm as (Hscene & _).
  unfold ByReference.build_item, build_item.
  apply refines_reads_only; [exact Hscene|intros scene_id _].
  apply (refines_bind n g cs _ _ _ _ P _ _
           (fun item it s => stands_for n item it s)).
  { unfold new_item. stateless_tac. }
  { apply (refines_new_item n g cs pmh pm Hpm). }
  intros item it.
  apply (refines_bind n g cs _ _ _ _ _ _ _
           (fun _ it' s => stands_for n item it' s)).
  { unfold add_extensions. stateless_tac. }
  { apply (refines_add_extensions n g cs H E Himpl m ml Hm pmh pm Hpm). }
  intros _ it1.
  apply (refines_bind n g cs _ _ _ _ _ _ _
           (fun _ it' s => stands_for n item it' s)).
  { unfold add_common_metadata. stateless_tac. }
  { apply (refines_add_common_metadata n g cs Hvalues pmh pm Hpm). }
  intros _ it2.
  apply (refines_bind n g cs _ _ _ _ _ _ _
           (fun _ it' s => stands_for n item it' s)).
  { unfold add_s1_properties. stateless_tac. }
  { apply (refines_add_s1_properties n g cs E m ml Hm pmh pm Hpm). }
  intros _ it3.
  apply (refines_then_ret _ _ _ _ _ _
           (fun _ it' s => stands_for n item it' s)).
  - apply refines_add_metadata_assets.
  - intros b s Hs. exact Hs.
Qed.

End BuildItem.

(** ** The image assets (lines 229-239) *)

Section ImageAssets.

Variable n : nat.
Variable g : Heap.Globals.
Variable cs : c.t.
Variable H : Stateful.Helpers.
Variable E : Externals.
Hypothesis Himpl : implements H E.

(** the item object read back is the item it stands for *)
Lemma reify_item_of_stands_for (item : Obj.ref) (it : Item.t) (s : Heap.t) :
  stands_for n item it s -> Reify.item s item = Some it.
Proof.
  intros (Hn & i & Hi & Hid & Hgeo & Hbbox & Hdt & Hprops & Hexts & Hassets
          & Hnodup & Hlinks).
  unfold Reify.item. rewrite Hi.
  assert (Ha : Reify.traverse (Reify.entry (Reify.asset s)) (Obj.Item.assets i)
               = Some (Item.assets it)).
  { clear Hnodup. induction Hassets as [|[k r] [k' a] l l' Hxy _ IH];
      [reflexivity|].
    simpl in Hxy. destruct Hxy as (<- & _ & ao & Hao & Hdesc & Howner & Ha).
    simpl. rewrite IH. unfold Reify.entry, Reify.asset. simpl.
    rewrite Hao, Howner. simpl. rewrite Hi.
    destruct Hdesc as (-> & -> & -> & -> & -> & ->). rewrite Hid, <- Ha.
    destruct a. reflexivity. }
  assert (Hl : Reify.traverse (Reify.link s) (Obj.Item.links i)
               = Some (Item.links it)).
  { induction Hlinks as [|r l rs ls (_ & Hr) _ IH]; [reflexivity|].
    simpl. rewrite IH. unfold Reify.link. rewrite Hr. reflexivity. }
  rewrite Ha, Hl, Hid, Hgeo, Hbbox, Hdt, Hprops, Hexts.
  destruct it. reflexivity.
Qed.

Lemma pending_grow (item : Obj.ref) (refs : list Obj.ref)
    (assets : list Asset.t) (new : list Obj.t) (s : Heap.t) (i : Obj.Item.t) :
  Heap.lookup item s = Some (Obj.OItem i) ->
  pending n s item refs assets ->
  pending n (Heap.grow new s) item refs assets.
Proof.
  intros Hi (Hnew & Hnodup & Hunused).
  split; [|split; [exact Hnodup|]].
  - eapply Forall2_impl; [|exact Hnew].
    intros r a (Hr & ao & Hao & Hdesc). split; [exact Hr|]. exists ao.
    split; [exact (lookup_grow_some _ _ _ _ Hao)|exact Hdesc].
  - intros r Hr i' Hi'.
    rewrite (lookup_grow_some _ _ _ _ Hi) in Hi'. injection Hi' as <-.
    exact (Hunused r Hr i Hi).
Qed.

Lemma pending_lt (item : Obj.ref) (refs : list Obj.ref)
    (assets : list Asset.t) (s : Heap.t) (r : Obj.ref) :
  pending n s item refs assets -> In r refs -> r < length (Heap.objects s).
Proof.
  intros (Hnew & _) Hin.
  induction Hnew as [|r0 a0 l l' (_ & ao & Hao & _) _ IH]; [destruct Hin|].
  destruct Hin as [<-|Hin]; [exact (lookup_lt _ _ _ Hao)|exact (IH Hin)].
Qed.

Lemma pending_app (item : Obj.ref) (refs refs' : list Obj.ref)
    (assets assets' : list Asset.t) (s : Heap.t) :
  pending n s item refs assets ->
  pending n s item refs' assets' ->
  (forall r, In r refs -> In r refs' -> False) ->
  pending n s item (refs ++ refs') (assets ++ assets').
Proof.
  intros (Hnew & Hnodup & Hunused) (Hnew' & Hnodup' & Hunused') Hdisj.
  split; [apply Forall2_app; assumption|]. split.
  - clear - Hnodup Hnodup' Hdisj.
    induction refs as [|r rs IH]; [exact Hnodup'|].
    inversion Hnodup as [|? ? Hnotin Hnd]; subst. simpl. constructor.
    + intros Hin. apply in_app_or in Hin. destruct Hin as [Hin|Hin];
        [contradiction|]. exact (Hdisj r (or_introl eq_refl) Hin).
    + apply IH; [exact Hnd|]. intros r' Hr1 Hr2.
      exact (Hdisj r' (or_intror Hr1) Hr2).
  - intros r Hr. apply in_app_or in Hr.
    destruct Hr as [Hr|Hr]; [exact (Hunused r Hr)|exact (Hunused' r Hr)].
Qed.

Lemma run_comprehension_cons (A B : Type) (f : A -> Outcome B) (x : A)
    (xs : list A) (s : c.t) :
  run (comprehension (fun x => call (f x)) (x :: xs)) s
  = match f x with
    | Returns y =>
        match run (comprehension (fun x => call (f x)) xs) s with
        | Ok ys => Ok (y :: ys)
        | Err e => Err e
        end
    | Raises exc => Err (Raised exc)
    end.
Proof.
  simpl. rewrite run_bind by apply stateless_call.
  destruct (f x) as [y|exc]; [|reflexivity].
  rewrite run_call_returns.
  rewrite run_bind
    by (apply stateless_comprehension; intros; apply stateless_call).
  destruct (run _ s); reflexivity.
Qed.

(** the comprehension over the image paths; [done] are the pairs of the
    paths before *)
Lemma refines_image_pairs (granule : string) (item : Obj.ref) (it : Item.t)
    (media_type : option MediaType.t) (paths : list string) :
  forall (done : list (string * Obj.ref))
         (done' : list (string * Asset.t)),
    refines n g cs
      (fun s =>
         stands_for n item it s
         /\ map fst done = map fst done'
         /\ pending n s item (map snd done) (map snd done'))
      (HeapOps.comprehension
         (fun image_path =>
            Stateful.image_asset_from_href H
              (os_path_join granule image_path) item media_type true)
         paths)
      (comprehension
         (fun image_path =>
            call (image_asset_from_href E (os_path_join granule image_path)
                    it media_type true))
         paths)
      (fun pairs pairs' s =>
         stands_for n item it s
         /\ map fst (done ++ pairs) = map fst (done' ++ pairs')
         /\ pending n s item (map snd (done ++ pairs))
              (map snd (done' ++ pairs'))).
Proof.
  induction paths as [|path paths IH]; intros done done'.
  - simpl. apply refines_ret. intros s _ HP. rewrite !app_nil_r. exact HP.
  - intros s Hd (Hs & Hkeys & Hpending).
    pose proof (@impl_image_asset _ _ Himpl (os_path_join granule path) item
                  media_type true s it (reify_item_of_stands_for _ _ _ Hs))
      as Hcall.
    unfold creates_asset_from in Hcall.
    rewrite (run_comprehension_cons _ _
               (fun image_path =>
                  image_asset_from_href E (os_path_join granule image_path)
                    it media_type true)).
    simpl HeapOps.comprehension.
    destruct (image_asset_from_href E (os_path_join granule path) it
                media_type true) as [[key a]|exc].
    + destruct Hcall as (ao & Hdesc & Hrun).
      rewrite (heap_bind_returns _ _ _ _ _ _ _ Hrun).
      set (s1 := Heap.grow [Obj.OAsset ao] s).
      set (r := length (Heap.objects s)).
      pose proof Hs as (_ & i & Hi & _).
      assert (Hkeep1 : keeps_below n s s1).
      { apply keeps_below_grow. destruct Hd as (_ & Hn & _). exact Hn. }
      assert (Hs1 : stands_for n item it s1) by (apply stands_for_grow; exact Hs).
      assert (Hone : pending n s1 item [r] [a]).
      { exact (pending_grown n g cs item it [ao] [a] s Hd Hs
                 (Forall2_cons _ _ Hdesc (Forall2_nil _))). }
      assert (Hpending1 : pending n s1 item
                            (map snd (done ++ [(key, r)]))
                            (map snd (done' ++ [(key, a)]))).
      { rewrite !map_app. simpl. apply pending_app.
        - exact (pending_grow item _ _ _ s i Hi Hpending).
        - exact Hone.
        - intros r' Hr' [<-|[]].
          pose proof (pending_lt item _ _ s r Hpending Hr'). unfold r in *. lia. }
      assert (Hkeys1 : map fst (done ++ [(key, r)])
                       = map fst (done' ++ [(key, a)])).
      { rewrite !map_app, Hkeys. reflexivity. }
      destruct (IH (done ++ [(key, r)]) (done' ++ [(key, a)]) s1
                  (during_keeps _ _ _ _ _ Hd Hkeep1)
                  (conj Hs1 (conj Hkeys1 Hpending1)))
        as (Hkeep2 & Hres).
      unfold Heap.bind, Heap.ret.
      destruct (HeapOps.comprehension _ paths s1) as [res s2].
      simpl fst in *. simpl snd in *.
      destruct (run (comprehension _ paths) cs) as [pairs'|e].
      * destruct Hres as (pairs & -> & Hs2 & Hkeys2 & Hpending2).
        simpl. split; [exact (keeps_below_trans _ _ _ _ Hkeep1 Hkeep2)|].
        eexists. split; [reflexivity|].
        rewrite <- !app_assoc in Hkeys2, Hpending2. simpl in Hkeys2, Hpending2.
        split; [exact Hs2|]. split; assumption.
      * subst res. simpl.
        split; [exact (keeps_below_trans _ _ _ _ Hkeep1 Hkeep2)|reflexivity].
    + rewrite (heap_bind_raises _ _ _ _ _ _ _ Hcall). simpl.
      split; [apply keeps_below_refl|reflexivity].
Qed.

End ImageAssets.

(** ** The loop over the image assets (lines 241-248) *)

Lemma dict_contains_keys (A B : Type) (k : string) (d : dict A) (d' : dict B) :
  map fst d = map fst d' -> dict_contains k d = dict_contains k d'.
Proof.
  unfold dict_contains. revert d'.
  induction d as [|[k1 v1] r IH]; intros [|[k2 v2] r'] Hkeys;
    try discriminate Hkeys; [reflexivity|].
  simpl in Hkeys. injection Hkeys as <- Hkeys. simpl.
  destruct (String.eqb k k1); [reflexivity|]. apply IH. exact Hkeys.
Qed.

(** the entry under [key], found by its value, is set anew *)
Lemma Forall2_set_first (A B : Type) (R R' : string * A -> string * B -> Prop)
    (key : string) (r : A) (w : B) (dh : dict A) (dp : dict B) :
  (forall x y, R x y -> fst x = fst y) ->
  Forall2 R dh dp ->
  dict_get key dh = Some r ->
  NoDup (map snd dh) ->
  (forall x y, In x dh -> R x y -> snd x <> r -> R' x y) ->
  (forall x y, In x dh -> R x y -> snd x = r -> R' x (fst y, w)) ->
  Forall2 R' dh (dict_set key w dp).
Proof.
  intros Hkey HF. induction HF as [|[k1 r1] [k2 a2] tl tl' Hxy Htl IH];
    intros Hget Hnodup Hother Hthis; [discriminate Hget|].
  pose proof (Hkey _ _ Hxy) as Heq. simpl in Heq. subst k2.
  inversion Hnodup as [|? ? Hnotin Hnodup']; subst.
  simpl in Hget |- *. destruct (String.eqb_spec key k1) as [->|Hne].
  - injection Hget as Hrr. subst r1. constructor.
    + exact (Hthis _ _ (or_introl eq_refl) Hxy eq_refl).
    + eapply Forall2_weaken_in; [|exact Htl].
      intros x y Hx _ HR. apply Hother; [right; exact Hx|exact HR|].
      intros Hr. apply Hnotin. rewrite <- Hr. apply in_map. exact Hx.
  - constructor.
    + apply Hother; [left; reflexivity|exact Hxy|].
      simpl. intros ->. apply Hnotin.
      apply dict_get_in in Hget. exact (in_map snd _ _ Hget).
    + apply IH; [exact Hget|exact Hnodup'| |].
      * intros x y Hx. apply Hother. right. exact Hx.
      * intros x y Hx. apply Hthis. right. exact Hx.
Qed.

Section ImageLoop.

Variable n : nat.
Variable g : Heap.Globals.
Variable cs : c.t.
Variable H : Stateful.Helpers.
Variable E : Externals.
Hypothesis Himpl : implements H E.

Lemma stands_for_asset_ge (item : Obj.ref) (it : Item.t) (s : Heap.t)
    (i : Obj.Item.t) (r : Obj.ref) :
  stands_for n item it s ->
  Heap.lookup item s = Some (Obj.OItem i) ->
  In r (map snd (Obj.Item.assets i)) ->
  n <= r.
Proof.
  intros (_ & i0 & Hi0 & _ & _ & _ & _ & _ & _ & Hassets & _) Hi Hin.
  rewrite Hi in Hi0. injection Hi0 as <-.
  induction Hassets as [|kr ka l l' (_ & Hr & _) _ IH]; [destruct Hin|].
  destruct Hin as [<-|Hin]; [exact Hr|exact (IH Hin)].
Qed.

(** the extra fields of an asset of the item are written *)
Lemma step_fill_asset (key : string) (r item : Obj.ref) (it : Item.t)
    (i : Obj.Item.t) (ao : Obj.Asset.t) (F : dict Value) (s : Heap.t) :
  stands_for n item it s ->
  Heap.lookup item s = Some (Obj.OItem i) ->
  dict_get key (Obj.Item.assets i) = Some r ->
  Heap.lookup r s = Some (Obj.OAsset ao) ->
  stands_for n item
    (Item.with_assets
       (dict_set key
          (Asset.mk (Obj.Asset.href ao) (Obj.Asset.title ao)
             (Obj.Asset.description ao) (Obj.Asset.media_type ao)
             (Obj.Asset.roles ao) F (Some (Item.id it)))
          (Item.assets it))
       it)
    (Heap.update r (Obj.OAsset (Obj.Asset.set_extra_fields F ao)) s).
Proof.
  intros Hs Hi Hget Hao.
  pose proof Hs as (Hn & i0 & Hi0 & Hid & Hgeo & Hbbox & Hdt & Hprops & Hexts
                    & Hassets & Hnodup & Hlinks).
  rewrite Hi in Hi0. injection Hi0 as <-.
  assert (Hne : r <> item) by (intros ->; congruence).
  split; [exact Hn|]. exists i.
  split; [rewrite lookup_update_other by exact Hne; exact Hi|].
  simpl. repeat (split; [assumption|]).
  split; [|split; [exact Hnodup|]].
  - apply (Forall2_set_first _ _ _ _ key r _ _ _
             (fun x y (HR : fst x = fst y /\ _) => proj1 HR) Hassets Hget Hnodup).
    + intros x y _ (Hk & Hr & ao' & Hao' & Hrest) Hxr.
      split; [exact Hk|]. split; [exact Hr|]. exists ao'.
      split; [|exact Hrest].
      rewrite lookup_update_other; [exact Hao'|congruence].
    + intros x y _ (Hk & Hr & ao' & Hao' & Hdesc & Howner & _) Hxr.
      rewrite Hxr in *. rewrite Hao in Hao'. injection Hao' as <-.
      simpl. split; [exact Hk|]. split; [exact Hr|].
      exists (Obj.Asset.set_extra_fields F ao).
      split; [exact (lookup_update_same _ _ _ _ Hao)|].
      split; [repeat split|]. split; [exact Howner|reflexivity].
  - eapply Forall2_impl; [|exact Hlinks].
    intros l_r l (Hl & Hlook). split; [exact Hl|].
    rewrite lookup_update_other; [exact Hlook|].
    assert (Hnr : n <= r).
    { apply (stands_for_asset_ge item it s i r Hs Hi).
      apply dict_get_in in Hget. exact (in_map snd _ _ Hget). }
    lia.
Qed.

(** objects to come stay as they are when the item is updated *)
Lemma pending_update_item (item : Obj.ref) (i i' : Obj.Item.t)
    (refs : list Obj.ref) (assets : list Asset.t) (s : Heap.t) :
  Heap.lookup item s = Some (Obj.OItem i) ->
  Obj.Item.assets i' = Obj.Item.assets i ->
  pending n s item refs assets ->
  pending n (Heap.update item (Obj.OItem i') s) item refs assets.
Proof.
  intros Hi Hassets (Hnew & Hnodup & Hunused).
  split; [|split; [exact Hnodup|]].
  - eapply Forall2_impl; [|exact Hnew].
    intros r a. apply (new_asset_update_item n s item i i' r a Hi).
  - intros r Hr i0 Hi0.
    rewrite (lookup_update_same _ _ _ _ Hi) in Hi0. injection Hi0 as <-.
    rewrite Hassets. exact (Hunused r Hr i Hi).
Qed.

(** and when another asset is updated *)
Lemma pending_update_asset (item r : Obj.ref) (ao ao' : Obj.Asset.t)
    (refs : list Obj.ref) (assets : list Asset.t) (s : Heap.t) :
  Heap.lookup r s = Some (Obj.OAsset ao) ->
  ~ In r refs ->
  pending n s item refs assets ->
  pending n (Heap.update r (Obj.OAsset ao') s) item refs assets.
Proof.
  intros Hr Hnotin (Hnew & Hnodup & Hunused).
  split; [|split; [exact Hnodup|]].
  - eapply Forall2_weaken_in; [|exact Hnew].
    intros r' a Hin _ (Hn & ao0 & Hao0 & Hdesc). split; [exact Hn|].
    exists ao0. split; [|exact Hdesc].
    rewrite lookup_update_other; [exact Hao0|]. intros ->. contradiction.
  - intros r' Hr' i Hi. apply (Hunused r' Hr' i).
    rewrite lookup_update_other in Hi; [exact Hi|]. intros ->.
    rewrite (lookup_update_same _ _ _ _ Hr) in Hi. discriminate Hi.
Qed.

End ImageLoop.

Lemma NoDup_append (A : Type) (l l' : list A) :
  NoDup l -> NoDup l' -> (forall x, In x l -> In x l' -> False) ->
  NoDup (l ++ l').
Proof.
  intros Hl Hl' Hdisj. induction l as [|x r IH]; [exact Hl'|].
  inversion Hl as [|? ? Hnotin Hr]; subst. simpl. constructor.
  - intros Hin. apply in_app_or in Hin.
    destruct Hin as [Hin|Hin]; [contradiction|].
    exact (Hdisj x (or_introl eq_refl) Hin).
  - apply IH; [exact Hr|]. intros y Hy Hy'.
    exact (Hdisj y (or_intror Hy) Hy').
Qed.

Lemma Forall2_dict_update (A B : Type) (R : string * A -> string * B -> Prop)
    (hp : list (string * A)) (pp : list (string * B)) :
  (forall x y, R x y -> fst x = fst y) ->
  Forall2 R hp pp ->
  forall d d', Forall2 R d d' -> Forall2 R (dict_update hp d) (dict_update pp d').
Proof.
  intros Hkey HF. unfold dict_update.
  induction HF as [|[k v] [k' w] tl tl' Hxy _ IH]; intros d d' Hd;
    [exact Hd|].
  simpl. apply IH. pose proof (Hkey _ _ Hxy) as Heq. simpl in Heq. subst k'.
  apply Forall2_dict_set; assumption.
Qed.

Lemma in_values_dict_update (A : Type) (x : A) (hp : list (string * A)) :
  forall d, In x (map snd (dict_update hp d)) ->
            In x (map snd d) \/ In x (map snd hp).
Proof.
  unfold dict_update. induction hp as [|[k v] tl IH]; intros d Hin;
    [left; exact Hin|].
  simpl in Hin. apply IH in Hin. destruct Hin as [Hin|Hin].
  - apply in_values_dict_set in Hin.
    destruct Hin as [->|Hin]; [right; left; reflexivity|left; exact Hin].
  - right. right. exact Hin.
Qed.

Lemma NoDup_values_dict_update (A : Type) (hp : list (string * A)) :
  forall d, NoDup (map snd d ++ map snd hp) ->
            NoDup (map snd (dict_update hp d)).
Proof.
  unfold dict_update. induction hp as [|[k v] tl IH]; intros d Hnd.
  - simpl in *. rewrite app_nil_r in Hnd. exact Hnd.
  - simpl in *. apply IH.
    pose proof (NoDup_remove_1 _ _ _ Hnd) as Hnd1.
    pose proof (NoDup_remove_2 _ _ _ Hnd) as Hnotin.
    apply NoDup_append.
    + apply NoDup_values_dict_set.
      * clear - Hnd1. induction (map snd d) as [|y r IH']; [constructor|].
        inversion Hnd1 as [|? ? Hn Hr]; subst. constructor.
        -- intros Hin. apply Hn. apply in_or_app. left. exact Hin.
        -- exact (IH' Hr).
      * intros Hin. apply Hnotin. apply in_or_app. left. exact Hin.
    + clear - Hnd1. induction (map snd d) as [|y r IH']; [exact Hnd1|].
      inversion Hnd1; subst. auto.
    + intros x Hx Hx'. apply in_values_dict_set in Hx.
      destruct Hx as [->|Hx].
      * apply Hnotin. apply in_or_app. right. exact Hx'.
      * clear - Hnd1 Hx Hx'. induction (map snd d) as [|y r IH'];
          [destruct Hx|].
        inversion Hnd1 as [|? ? Hn Hr]; subst.
        destruct Hx as [->|Hx].
        -- apply Hn. apply in_or_app. right. exact Hx'.
        -- exact (IH' Hr Hx).
Qed.

Lemma Forall2_pairs (A B : Type) (R : A -> B -> Prop) (hp : list (string * A))
    (pp : list (string * B)) :
  map fst hp = map fst pp ->
  Forall2 R (map snd hp) (map snd pp) ->
  Forall2 (fun x y => fst x = fst y /\ R (snd x) (snd y)) hp pp.
Proof.
  revert pp. induction hp as [|[k v] tl IH]; intros [|[k' w] tl'] Hkeys HF;
    try discriminate Hkeys; [constructor|].
  simpl in *. injection Hkeys as <- Hkeys.
  inversion HF; subst. constructor; [split; [reflexivity|assumption]|].
  apply IH; assumption.
Qed.

Lemma Forall2_values (A B : Type) (R : A -> B -> Prop) (hp : list (string * A))
    (pp : list (string * B)) :
  Forall2 (fun x y => fst x = fst y /\ R (snd x) (snd y)) hp pp ->
  Forall2 R (map snd hp) (map snd pp).
Proof.
  intros HF. induction HF as [|x y tl tl' (_ & HR) _ IH]; simpl;
    constructor; assumption.
Qed.

Section ImageLoopBody.

Variable n : nat.
Variable g : Heap.Globals.
Variable cs : c.t.
Variable H : Stateful.Helpers.
Variable E : Externals.
Hypothesis Himpl : implements H E.

(** [dict(...)] of the pairs keeps objects to come *)
Lemma pending_dict_of_pairs (item : Obj.ref) (hp : list (string * Obj.ref))
    (pp : list (string * Asset.t)) (s : Heap.t) :
  map fst hp = map fst pp ->
  pending n s item (map snd hp) (map snd pp) ->
  pending n s item (dict_values (dict_of_pairs hp))
    (dict_values (dict_of_pairs pp)).
Proof.
  intros Hkeys (Hnew & Hnodup & Hunused). unfold dict_values, dict_of_pairs.
  split; [|split].
  - apply Forall2_values.
    apply Forall2_dict_update;
      [intros x y (Hk & _); exact Hk| |constructor].
    apply Forall2_pairs; assumption.
  - apply NoDup_values_dict_update. exact Hnodup.
  - intros r Hr. apply in_values_dict_update in Hr.
    destruct Hr as [[]|Hr]. exact (Hunused r Hr).
Qed.

Lemma refines_image_assets (granule : string) (item : Obj.ref) (it : Item.t)
    (media_type : option MediaType.t) (paths : list string) :
  refines n g cs (stands_for n item it)
    (ByReference.image_assets H granule item media_type paths)
    (image_assets E granule it media_type paths)
    (fun refs assets s =>
       stands_for n item it s
       /\ pending n s item (dict_values refs) (dict_values assets)).
Proof.
  unfold ByReference.image_assets, image_assets.
  apply (refines_bind n g cs _ _ _ _ _ _ _
           (fun pairs pairs' s =>
              stands_for n item it s
              /\ map fst pairs = map fst pairs'
              /\ pending n s item (map snd pairs) (map snd pairs'))).
  { apply stateless_comprehension. intros. apply stateless_call. }
  { apply (refines_pre n g cs _ _ _
             (fun s =>
                stands_for n item it s
                /\ map fst (@nil (string * Obj.ref))
                   = map fst (@nil (string * Asset.t))
                /\ pending n s item (map snd (@nil (string * Obj.ref)))
                     (map snd (@nil (string * Asset.t))))).
    - intros s _ Hs. split; [exact Hs|]. split; [reflexivity|].
      split; [constructor|]. split; [constructor|]. intros r [].
    - exact (refines_image_pairs n g cs H E Himpl granule item it media_type
               paths [] []). }
  intros pairs pairs'. apply refines_ret.
  intros s _ (Hs & Hkeys & Hpending). split; [exact Hs|].
  apply pending_dict_of_pairs; assumption.
Qed.

(** the body of the loop, for the image asset [r] with the ones in [rs]
    still to come *)
Lemma refines_add_image_asset (item r : Obj.ref) (a : Asset.t)
    (rs : list Obj.ref) (rest : list Asset.t) (it : Item.t) :
  refines n g cs
    (fun s => stands_for n item it s /\ pending n s item (r :: rs) (a :: rest))
    (ByReference.add_image_asset H item r)
    (add_image_asset E a it)
    (fun _ it' s => stands_for n item it' s /\ pending n s item rs rest).
Proof.
  intros s Hd (Hs & Hpending).
  pose proof Hpending as (Hnew & Hnodup & Hunused).
  inversion Hnew as [|? ? ? ? Hasset Hrest]; subst.
  inversion Hnodup as [|? ? Hnotin Hnodup']; subst.
  pose proof Hasset as (Hnr & ao & Hao & Hdesc).
  pose proof Hs as (Hn & i & Hi & Hid & Hgeo & Hbbox & Hdt & Hprops & Hexts
                    & Hassets & Hnd & Hlinks).
  assert (Hne : r <> item) by (intros ->; congruence).
  unfold ByReference.add_image_asset, add_image_asset.
  assert (Hthe : Heap.the_asset r s = (Ok ao, s))
    by (unfold Heap.the_asset; rewrite Hao; reflexivity).
  rewrite (heap_bind_returns _ _ _ _ _ _ _ Hthe).
  pose proof Hdesc as (Hhref & _). rewrite Hhref.
  pose proof (impl_extract Himpl (Asset.href a) ["polarisation"; "swath"] s)
    as Hex.
  rewrite run_bind by apply stateless_call.
  destruct (extract_properties E (Asset.href a) ["polarisation"; "swath"])
    as [props|exc]; simpl of_outcome in Hex;
    [|rewrite (heap_bind_raises _ _ _ _ _ _ _ Hex); simpl;
      split; [apply keeps_below_refl|reflexivity]].
  rewrite (heap_bind_returns _ _ _ _ _ _ _ Hex), run_call_returns.
  destruct props as [|pol [|sw [|x xs]]];
    try (split; [apply keeps_below_refl|reflexivity]).
  cbv zeta. set (key := (sw ++ "-" ++ pol)%string).
  assert (Hitem : Heap.the_item item s = (Ok i, s))
    by (unfold Heap.the_item; rewrite Hi; reflexivity).
  rewrite (heap_bind_returns _ _ _ _ _ _ _ Hitem).
  assert (Hkeys : map fst (Obj.Item.assets i) = map fst (Item.assets it)).
  { clear - Hassets. induction Hassets as [|kr ka l l' (Hk & _) _ IH];
      simpl; [reflexivity|]. rewrite Hk, IH. reflexivity. }
  rewrite (dict_contains_keys _ _ key _ _ Hkeys).
  destruct (dict_contains key (Item.assets it));
    [split; [apply keeps_below_refl|reflexivity]|].
  (* item.add_asset(key, asset) *)
  destruct (step_add_asset n key r item a it s Hs Hasset
              (Hunused r (or_introl eq_refl)))
    as (Hok1 & Hkeep1 & Hs1 & Hother1 & Hassets1 & Howner1).
  pose proof (pending_after_add n key r item a it rs rest s Hs Hpending)
    as Hp1.
  cbv zeta in *.
  destruct (Ref.Item.add_asset key r item s) as [res1 s1] eqn:Hrun1.
  simpl in Hok1, Hkeep1, Hs1, Hother1, Hassets1, Howner1, Hp1. subst res1.
  rewrite (heap_bind_returns _ _ _ _ _ _ _ Hrun1).
  (* AssetSarExtension.ext(asset, add_if_missing=True) *)
  pose proof (Howner1 ao Hao) as Hao1.
  pose proof Hs1 as (_ & i1 & Hi1 & _).
  pose proof (Hassets1 i i1 Hi Hi1) as Hi1eq.
  set (i2 := Obj.Item.with_stac_extensions
               (add_if_missing AssetSarExtension (Obj.Item.stac_extensions i1))
               i1).
  set (s2 := Heap.update item (Obj.OItem i2) s1).
  assert (Hrun2 : Ref.Asset.ext AssetSarExtension r s1 = (Ok tt, s2)).
  { unfold Ref.Asset.ext.
    assert (Hthe1 : Heap.the_asset r s1
                    = (Ok (Obj.Asset.set_owner item ao), s1))
      by (unfold Heap.the_asset; rewrite Hao1; reflexivity).
    rewrite (heap_bind_returns _ _ _ _ _ _ _ Hthe1). simpl.
    unfold Ref.Item.ext. exact (modify_item_run _ _ _ _ Hi1). }
  rewrite (heap_bind_returns _ _ _ _ _ _ _ Hrun2).
  pose proof (step_ext n AssetSarExtension item _ s1 Hs1) as (_ & _ & Hs2).
  unfold Ref.Item.ext in Hs2. rewrite (modify_item_run _ _ _ _ Hi1) in Hs2.
  simpl snd in Hs2. fold i2 in Hs2. fold s2 in Hs2.
  assert (Hkeep2 : keeps_below n s1 s2) by (apply keeps_below_update; exact Hn).
  assert (Hp2 : pending n s2 item rs rest).
  { apply (pending_update_item n item i1 i2 rs rest s1 Hi1); [reflexivity|].
    exact Hp1. }
  assert (Hi2 : Heap.lookup item s2 = Some (Obj.OItem i2))
    by exact (lookup_update_same _ _ _ _ Hi1).
  assert (Hao2 : Heap.lookup r s2
                 = Some (Obj.OAsset (Obj.Asset.set_owner item ao))).
  { unfold s2. rewrite lookup_update_other by congruence. exact Hao1. }
  assert (Hget2 : dict_get key (Obj.Item.assets i2) = Some r).
  { unfold i2. simpl. rewrite Hi1eq. simpl.
    rewrite dict_get_set, String.eqb_refl. reflexivity. }
  (* fill_swath_sar_properties(asset_sar, ...) *)
  pose proof (impl_swath_sar Himpl (upper sw) (upper pol)) as Hfill.
  specialize (Hfill s2 r _ Hao2). cbv beta in Hfill.
  rewrite run_bind by apply stateless_call.
  destruct (fill_swath_sar_properties E (upper sw) (upper pol)) as [ws|exc].
  - rewrite Hfill, run_call_returns. simpl fst. simpl snd.
    split.
    { apply (keeps_below_trans _ _ s1); [exact Hkeep1|].
      apply (keeps_below_trans _ _ s2); [exact Hkeep2|].
      apply keeps_below_update. exact Hnr. }
    exists tt. split; [reflexivity|]. split.
    + pose proof (step_fill_asset n key r item _ i2 _
                    (apply_writes ws
                       (Obj.Asset.extra_fields (Obj.Asset.set_owner item ao)))
                    s2 Hs2 Hi2 Hget2 Hao2) as Hs3.
      destruct Hdesc as (h1 & h2 & h3 & h4 & h5 & h6).
      simpl in Hs3. rewrite h1, h2, h3, h4, h5, h6 in Hs3.
      rewrite h6. exact Hs3.
    + apply (pending_update_asset n item r _ _ rs rest s2 Hao2 Hnotin Hp2).
  - destruct Hfill as (f & ->). simpl.
    split; [|reflexivity].
    apply (keeps_below_trans _ _ s1); [exact Hkeep1|].
    apply (keeps_below_trans _ _ s2); [exact Hkeep2|].
    apply keeps_below_update. exact Hnr.
Qed.

(** the loop *)
Lemma refines_image_loop (item : Obj.ref) (rs : list Obj.ref) :
  forall (assets : list Asset.t) (it : Item.t),
    refines n g cs
      (fun s => stands_for n item it s /\ pending n s item rs assets)
      (HeapOps.for_each (ByReference.add_image_asset H item) rs)
      (for_each (add_image_asset E) assets it)
      (fun _ it' s => stands_for n item it' s).
Proof.
  induction rs as [|r rs IH]; intros [|a rest] it.
  - simpl. apply refines_ret. intros s _ (Hs & _). exact Hs.
  - intros s _ (_ & (HF & _)). inversion HF.
  - intros s _ (_ & (HF & _)). inversion HF.
  - simpl.
    apply (refines_bind n g cs _ _ _ _ _ _ _
             (fun _ it' s =>
                stands_for n item it' s /\ pending n s item rs rest)).
    + apply stateless_add_image_asset.
    + apply refines_add_image_asset.
    + intros _ it'. apply IH.
Qed.

End ImageLoopBody.

(** ** [create_item] *)

Section CreateItem.

Variable n : nat.
Variable g : Heap.Globals.
Variable cs : c.t.
Variable H : Stateful.Helpers.
Variable E : Externals.
Hypothesis Himpl : implements H E.
Hypothesis Hvalues : same_values g cs.

(** a constructor of the package *)
Lemma refines_constructs (X Y B C : Type) (stands : X -> Y -> Prop)
    (P : Heap.t -> Prop) (h : Heap.M X) (o : Outcome Y)
    (hf : X -> Heap.M B) (pf : Y -> M C) (R : B -> C -> Heap.t -> Prop) :
  constructs stands h o ->
  (forall x y, stands x y -> refines n g cs P (hf x) (pf y) R) ->
  refines n g cs P (Heap.bind h hf) (bind (call o) pf) R.
Proof.
  intros Hh Hk s Hd HP. specialize (Hh s).
  rewrite run_bind by apply stateless_call.
  destruct o as [y|exc].
  - destruct Hh as (x & Hxy & Hrun).
    rewrite (heap_bind_returns _ _ _ _ _ _ _ Hrun), run_call_returns.
    exact (Hk x y Hxy s Hd HP).
  - rewrite (heap_bind_raises _ _ _ _ _ _ _ Hh). simpl.
    split; [apply keeps_below_refl|reflexivity].
Qed.

(** [item.links.append(link)] for a link object of the module *)
Lemma refines_append_link (B C : Type) (link : Obj.ref) (l : Link.t)
    (item : Obj.ref) (it : Item.t) (hk : Heap.M B) (pc : M C)
    (R : B -> C -> Heap.t -> Prop) :
  (forall s, during n g cs s ->
     link < n /\ Heap.lookup link s = Some (Obj.OLink l)) ->
  refines n g cs
    (stands_for n item (Item.with_links (Item.links it ++ [l]) it)) hk pc R ->
  refines n g cs (stands_for n item it)
    (Heap.bind (Ref.Item.append_link link item) (fun _ => hk)) pc R.
Proof.
  intros Hlink Hk.
  apply (refines_step n g cs _ _ _ _
           (fun _ => stands_for n item
                       (Item.with_links (Item.links it ++ [l]) it)));
    [|intros _; exact Hk].
  intros s Hd Hs. destruct (Hlink s Hd) as (Hlt & Hl).
  pose proof Hs as (Hn & i & Hi & Hid & Hgeo & Hbbox & Hdt & Hprops & Hexts
                    & Hassets & Hnodup & Hlinks).
  unfold Ref.Item.append_link. rewrite (modify_item_run _ _ _ _ Hi).
  simpl fst. simpl snd. exists tt.
  split; [reflexivity|]. split; [apply keeps_below_update; exact Hn|].
  split; [exact Hn|]. eexists.
  split; [exact (lookup_update_same _ _ _ _ Hi)|].
  simpl. repeat (split; [assumption|]).
  split; [|split; [exact Hnodup|]].
  - eapply Forall2_impl; [|exact Hassets].
    intros kr ka (Hk' & Hasset). split; [exact Hk'|].
    exact (asset_of_update_item n s item _ i _ _ _ Hi Hasset).
  - apply Forall2_app.
    + eapply Forall2_impl; [|exact Hlinks].
      intros r l' (Hr & Hlook). split; [exact Hr|].
      rewrite lookup_update_other; [exact Hlook|]. lia.
    + constructor; [|constructor]. split; [exact Hlt|].
      rewrite lookup_update_other; [exact Hl|]. lia.
Qed.

Lemma refines_create_item (granule : string) (rhm : option ReadHrefModifier)
    (fmt : Format.t) (kw : dict Value) :
  refines n g cs (fun _ => True)
    (ByReference.create_item H E granule rhm fmt kw)
    (create_item E granule rhm fmt kw)
    (fun item it s => stands_for n item it s).
Proof.
  unfold ByReference.create_item, create_item. cbv zeta.
  apply (refines_constructs _ _ _ _ metalinks_stand_for);
    [apply (impl_metalinks Himpl)|intros m ml Hm].
  pose proof Hm as (-> & -> & -> & -> & _).
  apply (refines_constructs _ _ _ _ product_metadata_stands_for);
    [apply (impl_product_metadata Himpl)|intros pmh pm Hpm].
  apply (refines_bind n g cs _ _ _ _ _ _ _
           (fun item it s => stands_for n item it s)).
  { apply stateless_build_item. }
  { apply (refines_build_item n g cs H E Himpl Hvalues m ml Hm pmh pm Hpm). }
  intros item it.
  pose proof Hpm as (_ & _ & _ & _ & _ & _ & Hpaths).
  apply refines_reads_only; [exact Hpaths|intros paths _].
  apply (refines_bind n g cs _ _ _ _ _ _ _
           (fun refs assets s =>
              stands_for n item it s
              /\ pending n s item (dict_values refs) (dict_values assets))).
  { apply stateless_image_assets. }
  { apply (refines_image_assets n g cs H E Himpl). }
  intros refs assets.
  apply (refines_bind n g cs _ _ _ _ _ _ _
           (fun _ it' s => stands_for n item it' s)).
  { apply stateless_for_each. intros. apply stateless_add_image_asset. }
  { apply (refines_image_loop n g cs H E Himpl). }
  intros _ it'.
  apply refines_gets. apply refines_pure_gets.
  apply (refines_append_link _ _ _ (c.SENTINEL_SLC_LICENSE cs)).
  { intros s (_ & _ & _ & _ & _ & Hl). exact Hl. }
  apply refines_gets. apply refines_pure_gets.
  apply (refines_append_link _ _ _ (c.SENTINEL_SLC_TECHNICAL_GUIDE cs)).
  { intros s (_ & _ & _ & _ & Hl & _). exact Hl. }
  apply refines_ret. intros s _ Hs. exact Hs.
Qed.

End CreateItem.

(** ** [create_collection] *)

Section CreateCollection.

Variable n : nat.
Variable g : Heap.Globals.
Variable cs : c.t.
Hypothesis Hvalues : same_values g cs.

Lemma traverse_provider_update (collection : Obj.ref) (o : Obj.t)
    (s : Heap.t) (l : list Obj.ref) :
  (forall r, In r l -> r <> collection) ->
  Reify.traverse (Reify.provider (Heap.update collection o s)) l
  = Reify.traverse (Reify.provider s) l.
Proof.
  induction l as [|r rs IH]; intros Hne; [reflexivity|].
  simpl. rewrite IH by (intros r' Hr'; apply Hne; right; exact Hr').
  unfold Reify.provider at 1 3.
  rewrite lookup_update_other; [reflexivity|].
  intros Heq. exact (Hne r (or_introl eq_refl) (eq_sym Heq)).
Qed.

(** an update of the collection object does not touch what it refers to *)
Lemma collection_fields_update (collection : Obj.ref)
    (x : Obj.Collection.t) (co : Collection.t) (o : Obj.t) (s : Heap.t) :
  collection_fields collection x co s ->
  collection_fields collection x co (Heap.update collection o s).
Proof.
  intros (Hid & Hdesc & (Hene & Hextent) & Htitle & Hexts & Hkw
          & (Hpne & Hprov) & Hsum & Hlinks & Hextra).
  unfold collection_fields. repeat (split; [assumption|]).
  split; [split; [exact Hene|]|].
  { unfold Reify.extent in *. rewrite lookup_update_other; [exact Hextent|].
    congruence. }
  repeat (split; [assumption|]).
  split; [split; [exact Hpne|]|].
  { unfold Reify.providers in *.
    destruct (Obj.Collection.providers x) as [l|]; [|exact Hprov].
    rewrite traverse_provider_update; [exact Hprov|].
    intros r Hr. exact (Hpne l r eq_refl Hr). }
  split; [assumption|]. split; [|exact Hextra].
  eapply Forall2_impl; [|exact Hlinks].
  intros r l (Hr & Hl). split; [exact Hr|].
  rewrite lookup_update_other; [exact Hl|congruence].
Qed.

(** a step on the collection object *)
Lemma refines_collection_modify (B C : Type)
    (f : Obj.Collection.t -> Obj.Collection.t) (collection : Obj.ref)
    (co co' : Collection.t) (hk : Heap.M B) (pc : M C)
    (R : B -> C -> Heap.t -> Prop) :
  (forall x s, during n g cs s -> n <= collection ->
     collection_fields collection x co s ->
     collection_fields collection (f x) co' s) ->
  refines n g cs (collection_stands_for n collection co') hk pc R ->
  refines n g cs (collection_stands_for n collection co)
    (Heap.bind (Ref.Collection.modify collection f) (fun _ => hk)) pc R.
Proof.
  intros Hf Hk.
  apply (refines_step n g cs _ _ _ _
           (fun _ => collection_stands_for n collection co'));
    [|intros _; exact Hk].
  intros s Hd (Hn & x & Hx & Hfields). exists tt.
  unfold Ref.Collection.modify.
  assert (Hthe : Heap.the_collection collection s = (Ok x, s))
    by (unfold Heap.the_collection; rewrite Hx; reflexivity).
  rewrite (heap_bind_returns _ _ _ _ _ _ _ Hthe). unfold Heap.put.
  simpl fst. simpl snd.
  split; [reflexivity|]. split; [apply keeps_below_update; exact Hn|].
  split; [exact Hn|]. exists (f x).
  split; [exact (lookup_update_same _ _ _ _ Hx)|].
  apply collection_fields_update. apply Hf; assumption.
Qed.

Lemma refines_collection_ext (B C : Type) (x : Extension)
    (collection : Obj.ref) (co : Collection.t) (hk : Heap.M B) (pc : M C)
    (R : B -> C -> Heap.t -> Prop) :
  refines n g cs (collection_stands_for n collection (Collection.ext x co))
    hk pc R ->
  refines n g cs (collection_stands_for n collection co)
    (Heap.bind (Ref.Collection.ext x collection) (fun _ => hk)) pc R.
Proof.
  apply refines_collection_modify.
  intros x0 s _ _ (Hid & Hdesc & Hextent & Htitle & Hexts & Hkw & Hprov
                   & Hsum & Hlinks & Hextra).
  unfold collection_fields. simpl. rewrite Hexts.
  repeat (split; [assumption|]). split; [reflexivity|].
  repeat (split; [assumption|]). assumption.
Qed.

Lemma refines_collection_append_link (B C : Type) (link : Obj.ref)
    (l : Link.t) (collection : Obj.ref) (co : Collection.t) (hk : Heap.M B)
    (pc : M C) (R : B -> C -> Heap.t -> Prop) :
  (forall s, during n g cs s ->
     link < n /\ Heap.lookup link s = Some (Obj.OLink l)) ->
  refines n g cs
    (collection_stands_for n collection (Collection.append_link l co))
    hk pc R ->
  refines n g cs (collection_stands_for n collection co)
    (Heap.bind (Ref.Collection.append_link link collection) (fun _ => hk))
    pc R.
Proof.
  intros Hlink. apply refines_collection_modify.
  intros x0 s Hd Hn (Hid & Hdesc & Hextent & Htitle & Hexts & Hkw & Hprov
                     & Hsum & Hlinks & Hextra).
  destruct (Hlink s Hd) as (Hlt & Hl).
  unfold collection_fields. simpl.
  repeat (split; [assumption|]). split; [|exact Hextra].
  apply Forall2_app; [exact Hlinks|].
  constructor; [|constructor]. split; [lia|exact Hl].
Qed.

Lemma refines_summarize (B C : Type)
    (table : Heap.Globals -> dict (list Value))
    (table' : c.t -> dict (list Value)) (key prop : string)
    (collection : Obj.ref) (co : Collection.t) (hk : Heap.M B)
    (pk : Collection.t -> M C) (R : B -> C -> Heap.t -> Prop) :
  table g = table' cs ->
  (forall v,
     refines n g cs
       (collection_stands_for n collection (Collection.set_summary prop v co))
       hk (pk (Collection.set_summary prop v co)) R) ->
  refines n g cs (collection_stands_for n collection co)
    (Heap.bind (ByReference.summarize table key prop collection)
       (fun _ => hk))
    (bind (summarize table' key prop co) pk) R.
Proof.
  intros Htable Hk.
  assert (Hpure : run (bind (summarize table' key prop co) pk) cs
                  = match dict_get key (table' cs) with
                    | Some v => run (pk (Collection.set_summary prop v co)) cs
                    | None => Err (KeyError key)
                    end).
  { unfold summarize.
    rewrite run_bind_assoc, run_bind_gets, run_bind_assoc.
    unfold getitem. destruct (dict_get key (table' cs)) as [v|].
    - rewrite run_bind_ret, run_bind_ret. reflexivity.
    - reflexivity. }
  assert (Hheap : forall s, during n g cs s ->
            Heap.bind (ByReference.summarize table key prop collection)
              (fun _ => hk) s
            = match dict_get key (table' cs) with
              | Some v =>
                  Heap.bind (Ref.Collection.set_summary prop v collection)
                    (fun _ => hk) s
              | None => (Err (KeyError key), s)
              end).
  { intros s (Hc & _).
    unfold ByReference.summarize, Heap.bind at 1 2 3, Heap.gets.
    rewrite Hc, Htable. unfold HeapOps.getitem.
    destruct (dict_get key (table' cs)); reflexivity. }
  destruct (dict_get key (table' cs)) as [v|].
  - apply (refines_same n g cs _ _ _ _
             (Heap.bind (Ref.Collection.set_summary prop v collection)
                (fun _ => hk))
             _ (pk (Collection.set_summary prop v co)) _ Hheap Hpure).
    apply (refines_collection_modify _ _ _ collection co
             (Collection.set_summary prop v co)); [|apply Hk].
    intros x0 s _ _ (Hid & Hdesc & Hextent & Htitle & Hexts & Hkw & Hprov
                     & Hsum & Hlinks & Hextra).
    unfold collection_fields. simpl. rewrite Hsum.
    repeat (split; [assumption|]). split; [reflexivity|].
    split; assumption.
  - intros s Hd _. rewrite (Hheap s Hd), Hpure. simpl.
    split; [apply keeps_below_refl|reflexivity].
Qed.

(** [pystac.Collection(...)] with the extent and the provider of the
    module *)
Lemma refines_collection_new (B C : Type) (P : Heap.t -> Prop)
    (id_ description_ : string) (title_ : option string) (href_ : string)
    (stac_extensions_ : list string) (keywords_ : option (list string))
    (summaries_ : dict (list Value)) (hk : Obj.ref -> Heap.M B) (pc : M C)
    (R : B -> C -> Heap.t -> Prop) :
  (forall collection,
     refines n g cs
       (collection_stands_for n collection
          (Collection.new id_ description_ (c.SENTINEL_SLC_EXTENT cs) title_
             href_ stac_extensions_ keywords_
             (Some [c.SENTINEL_PROVIDER cs]) summaries_))
       (hk collection) pc R) ->
  refines n g cs P
    (Heap.bind
       (Ref.Collection.new id_ description_ (Heap.SENTINEL_SLC_EXTENT g)
          title_ href_ stac_extensions_ keywords_
          (Some [Heap.SENTINEL_PROVIDER g]) summaries_)
       hk)
    pc R.
Proof.
  intros Hk.
  apply (refines_step n g cs _ _ _ _
           (fun collection =>
              collection_stands_for n collection
                (Collection.new id_ description_ (c.SENTINEL_SLC_EXTENT cs)
                   title_ href_ stac_extensions_ keywords_
                   (Some [c.SENTINEL_PROVIDER cs]) summaries_)));
    [|exact Hk].
  intros s Hd _.
  pose proof Hd as (_ & Hn & (Hplt & Hp) & (Helt & He) & _).
  set (len := length (Heap.objects s)).
  set (x := Obj.Collection.mk id_ description_ (Heap.SENTINEL_SLC_EXTENT g)
              title_ stac_extensions_ keywords_
              (Some [Heap.SENTINEL_PROVIDER g]) summaries_
              [len; S len] []).
  set (new := [Obj.OLink Link.root; Obj.OLink (Link.self_href href_);
               Obj.OCollection x]).
  assert (Hrun : Ref.Collection.new id_ description_
                   (Heap.SENTINEL_SLC_EXTENT g) title_ href_ stac_extensions_
                   keywords_ (Some [Heap.SENTINEL_PROVIDER g]) summaries_ s
                 = (Ok (S (S len)), Heap.grow new s)).
  { unfold Ref.Collection.new, Heap.bind, Heap.alloc, Heap.grow. simpl.
    rewrite !length_app. simpl. rewrite !Nat.add_1_r.
    rewrite <- !app_assoc. reflexivity. }
  rewrite Hrun. simpl fst. simpl snd. exists (S (S len)).
  split; [reflexivity|]. split; [apply keeps_below_grow; exact Hn|].
  assert (Hnew : forall k, Heap.lookup (len + k) (Heap.grow new s)
                           = nth_error new k)
    by (intros k; apply lookup_grow_new).
  split; [unfold len; lia|]. exists x.
  split.
  { pose proof (Hnew 2) as H2.
    replace (len + 2) with (S (S len)) in H2 by lia. exact H2. }
  unfold collection_fields, x. simpl.
  repeat (split; [reflexivity|]).
  split; [split; [unfold len; lia|]|].
  { unfold Reify.extent. rewrite (lookup_grow_some _ _ _ _ He). reflexivity. }
  repeat (split; [reflexivity|]).
  split; [split|].
  { intros l r Hl Hin. injection Hl as <-. destruct Hin as [<-|[]].
    unfold len. lia. }
  { unfold Reify.provider. rewrite (lookup_grow_some _ _ _ _ Hp). reflexivity. }
  split; [reflexivity|]. split; [|reflexivity].
  constructor; [|constructor; [|constructor]].
  - split; [unfold len; lia|]. pose proof (Hnew 0) as H0.
    rewrite Nat.add_0_r in H0. exact H0.
  - split; [unfold len; lia|]. pose proof (Hnew 1) as H1.
    rewrite Nat.add_1_r in H1. exact H1.
Qed.

Lemma refines_create_collection (json_path : string) :
  refines n g cs (fun _ => True)
    (ByReference.create_collection json_path)
    (create_collection json_path)
    (fun collection co s => collection_stands_for n collection co s).
Proof.
  destruct Hvalues as (Hconstellation & Hplatforms & Hdescription & _ & Hkeywords
                       & Hsat & Hsar & Hassets).
  unfold ByReference.create_collection, create_collection. cbv zeta.
  do 6 (apply refines_gets; apply refines_pure_gets).
  rewrite Hconstellation, Hplatforms, Hdescription, Hkeywords.
  apply refines_collection_new. intros collection.
  apply refines_gets. apply refines_pure_gets.
  apply (refines_collection_append_link _ _ _ (c.SENTINEL_SLC_LICENSE cs)).
  { intros s (_ & _ & _ & _ & _ & Hl). exact Hl. }
  apply refines_gets. apply refines_pure_gets.
  apply (refines_collection_append_link _ _ _
           (c.SENTINEL_SLC_TECHNICAL_GUIDE cs)).
  { intros s (_ & _ & _ & _ & Hl & _). exact Hl. }
  apply refines_collection_ext.
  do 13 (apply refines_summarize; [exact Hsar|intros ?]).
  apply refines_collection_ext.
  apply refines_summarize; [exact Hsat|intros ?].
  apply refines_collection_ext.
  apply refines_gets. apply refines_pure_gets. rewrite Hassets.
  match goal with
  | |- refines _ _ _ (collection_stands_for _ _ ?co) _ (ret ?co') _ =>
      apply (refines_collection_modify _ _ _ collection co co')
  end.
  - intros x0 s _ _ (Hid & Hdesc & Hextent & Htitle & Hexts & Hkw & Hprov
                     & Hsum & Hlinks & Hextra).
    unfold collection_fields. simpl. rewrite Hextra.
    repeat (split; [assumption|]). reflexivity.
  - apply refines_ret. intros s _ Hs. exact Hs.
Qed.

End CreateCollection.

(** ** Reading the objects back *)

Lemma traverse_mono (A B : Type) (f f' : A -> option B) (l : list A)
    (ys : list B) :
  (forall x y, f x = Some y -> f' x = Some y) ->
  Reify.traverse f l = Some ys -> Reify.traverse f' l = Some ys.
Proof.
  intros Hf. revert ys. induction l as [|x r IH]; intros ys H; [exact H|].
  simpl in *. destruct (f x) as [y|] eqn:Hx; [|discriminate H].
  destruct (Reify.traverse f r) as [ys'|]; [|discriminate H].
  rewrite (Hf x y Hx), (IH ys' eq_refl). exact H.
Qed.

Section Extends.

Variables s s' : Heap.t.
Hypothesis Hext : extends s s'.

Lemma link_extends (r : Obj.ref) (l : Link.t) :
  Reify.link s r = Some l -> Reify.link s' r = Some l.
Proof.
  unfold Reify.link. destruct (Heap.lookup r s) as [o|] eqn:Hr;
    [|discriminate]. rewrite (proj2 Hext r o Hr). auto.
Qed.

Lemma provider_extends (r : Obj.ref) (p : Provider.t) :
  Reify.provider s r = Some p -> Reify.provider s' r = Some p.
Proof.
  unfold Reify.provider. destruct (Heap.lookup r s) as [o|] eqn:Hr;
    [|discriminate]. rewrite (proj2 Hext r o Hr). auto.
Qed.

Lemma extent_extends (r : Obj.ref) (e : Extent.t) :
  Reify.extent s r = Some e -> Reify.extent s' r = Some e.
Proof.
  unfold Reify.extent. destruct (Heap.lookup r s) as [o|] eqn:Hr;
    [|discriminate]. rewrite (proj2 Hext r o Hr). auto.
Qed.

Lemma asset_extends (r : Obj.ref) (a : Asset.t) :
  Reify.asset s r = Some a -> Reify.asset s' r = Some a.
Proof.
  unfold Reify.asset. destruct (Heap.lookup r s) as [o|] eqn:Hr;
    [|discriminate]. rewrite (proj2 Hext r o Hr).
  destruct o; auto. unfold Reify.owner_id.
  destruct (Obj.Asset.owner a0) as [ow|]; [|auto].
  destruct (Heap.lookup ow s) as [o'|] eqn:How; [|discriminate].
  rewrite (proj2 Hext ow o' How). auto.
Qed.

Lemma item_extends (r : Obj.ref) (it : Item.t) :
  Reify.item s r = Some it -> Reify.item s' r = Some it.
Proof.
  unfold Reify.item. destruct (Heap.lookup r s) as [o|] eqn:Hr;
    [|discriminate]. rewrite (proj2 Hext r o Hr).
  destruct o; auto.
  destruct (Reify.traverse (Reify.entry (Reify.asset s)) _) as [assets|] eqn:Ha;
    [|discriminate].
  destruct (Reify.traverse (Reify.link s) _) as [links|] eqn:Hl;
    [|discriminate].
  assert (Hentry : forall x y,
            Reify.entry (Reify.asset s) x = Some y ->
            Reify.entry (Reify.asset s') x = Some y).
  { intros [k x] y. unfold Reify.entry. simpl.
    destruct (Reify.asset s x) as [a|] eqn:Hx; [|discriminate].
    rewrite (asset_extends x a Hx). auto. }
  rewrite (traverse_mono _ _ _ (Reify.entry (Reify.asset s')) _ _ Hentry Ha),
          (traverse_mono _ _ _ (Reify.link s') _ _ link_extends Hl).
  auto.
Qed.

Lemma collection_extends (r : Obj.ref) (co : Collection.t) :
  Reify.collection s r = Some co -> Reify.collection s' r = Some co.
Proof.
  unfold Reify.collection. destruct (Heap.lookup r s) as [o|] eqn:Hr;
    [|discriminate]. rewrite (proj2 Hext r o Hr).
  destruct o; auto.
  destruct (Reify.extent s _) as [e|] eqn:He; [|discriminate].
  rewrite (extent_extends _ _ He).
  destruct (Reify.providers s _) as [ps|] eqn:Hp; [|discriminate].
  assert (Hp' : Reify.providers s' (Obj.Collection.providers c) = Some ps).
  { unfold Reify.providers in *.
    destruct (Obj.Collection.providers c) as [l|]; [|exact Hp].
    destruct (Reify.traverse (Reify.provider s) l) as [pl|] eqn:Hl;
      [|discriminate].
    rewrite (traverse_mono _ _ _ (Reify.provider s') _ _ provider_extends Hl).
    exact Hp. }
  rewrite Hp'.
  destruct (Reify.traverse (Reify.link s) _) as [links|] eqn:Hl;
    [|discriminate].
  rewrite (traverse_mono _ _ _ (Reify.link s') _ _ link_extends Hl). auto.
Qed.

Lemma module_extends (cs : c.t) :
  Reify.module s = Some cs -> Reify.module s' = Some cs.
Proof.
  unfold Reify.module. rewrite (proj1 Hext).
  destruct (Reify.provider s _) as [p|] eqn:Hp; [|discriminate].
  destruct (Reify.extent s _) as [e|] eqn:He; [|discriminate].
  destruct (Reify.link s (Heap.SENTINEL_SLC_TECHNICAL_GUIDE _)) as [gd|] eqn:Hg;
    [|discriminate].
  destruct (Reify.link s (Heap.SENTINEL_SLC_LICENSE _)) as [li|] eqn:Hl;
    [|discriminate].
  rewrite (provider_extends _ _ Hp), (extent_extends _ _ He),
          (link_extends _ _ Hg), (link_extends _ _ Hl). auto.
Qed.

Lemma yields_extends (call : Call) (r : Result Obj.ref)
    (d : Result Document) :
  yields s call r d -> yields s' call r d.
Proof.
  unfold yields. destruct d as [d|e]; [|auto].
  intros (ref & Hr & Hd). exists ref. split; [exact Hr|].
  unfold document in *. destruct call.
  - destruct (Reify.item s ref) as [it|] eqn:Hit; [|discriminate].
    rewrite (item_extends _ _ Hit). exact Hd.
  - destruct (Reify.collection s ref) as [co|] eqn:Hco; [|discriminate].
    rewrite (collection_extends _ _ Hco). exact Hd.
Qed.

End Extends.

Lemma reify_collection_of_stands_for (n : nat) (collection : Obj.ref)
    (co : Collection.t) (s : Heap.t) :
  collection_stands_for n collection co s ->
  Reify.collection s collection = Some co.
Proof.
  intros (_ & x & Hx & Hid & Hdesc & (_ & Hextent) & Htitle & Hexts & Hkw
          & (_ & Hprov) & Hsum & Hlinks & Hextra).
  unfold Reify.collection. rewrite Hx, Hextent, Hprov.
  assert (Hl : Reify.traverse (Reify.link s) (Obj.Collection.links x)
               = Some (Collection.links co)).
  { induction Hlinks as [|r l rs ls (_ & Hr) _ IH]; [reflexivity|].
    simpl. rewrite IH. unfold Reify.link. rewrite Hr. reflexivity. }
  rewrite Hl, Hid, Hdesc, Htitle, Hexts, Hkw, Hsum, Hextra.
  destruct co. reflexivity.
Qed.

(** a store in which the module reads as [cs] is one a call can start
    on *)
Lemma module_during (s : Heap.t) (cs : c.t) :
  Reify.module s = Some cs ->
  during (length (Heap.objects s)) (Heap.c_ s) cs s
  /\ same_values (Heap.c_ s) cs.
Proof.
  unfold Reify.module, Reify.provider, Reify.extent, Reify.link.
  destruct (Heap.lookup (Heap.SENTINEL_PROVIDER _) s) as [[]|] eqn:Hp;
    try discriminate.
  destruct (Heap.lookup (Heap.SENTINEL_SLC_EXTENT _) s) as [[]|] eqn:He;
    try discriminate.
  destruct (Heap.lookup (Heap.SENTINEL_SLC_TECHNICAL_GUIDE _) s) as [[]|] eqn:Hg;
    try discriminate.
  destruct (Heap.lookup (Heap.SENTINEL_SLC_LICENSE _) s) as [[]|] eqn:Hl;
    try discriminate.
  intros Hcs. injection Hcs as <-.
  split; [|unfold same_values; simpl; repeat split; reflexivity].
  unfold during. simpl.
  split; [reflexivity|]. split; [lia|].
  split; [split; [exact (lookup_lt _ _ _ Hp)|exact Hp]|].
  split; [split; [exact (lookup_lt _ _ _ He)|exact He]|].
  split; [split; [exact (lookup_lt _ _ _ Hg)|exact Hg]|].
  split; [exact (lookup_lt _ _ _ Hl)|exact Hl].
Qed.

(** one call *)
Lemma perform_refines (H : Stateful.Helpers) (E : Externals) (call : Call)
    (s : Heap.t) (cs : c.t) :
  implements H E ->
  Reify.module s = Some cs ->
  extends s (snd (perform H E call s))
  /\ yields (snd (perform H E call s)) call (fst (perform H E call s))
       (computed E call cs).
Proof.
  intros Himpl Hcs. destruct (module_during s cs Hcs) as (Hd & Hvalues).
  destruct call as [granule rhm fmt kw|json_path]; simpl perform.
  - destruct (refines_create_item _ _ _ H E Himpl Hvalues granule rhm fmt kw
                s Hd I) as (Hkeep & Hres).
    split; [exact (keeps_below_extends _ _ Hkeep)|].
    unfold computed, yields.
    destruct (run (create_item E granule rhm fmt kw) cs) as [it|e];
      [|exact Hres].
    destruct Hres as (item & Hitem & Hs). exists item.
    split; [exact Hitem|]. unfold document.
    rewrite (reify_item_of_stands_for _ _ _ _ Hs). reflexivity.
  - destruct (refines_create_collection _ _ _ Hvalues json_path s Hd I)
      as (Hkeep & Hres).
    split; [exact (keeps_below_extends _ _ Hkeep)|].
    unfold computed, yields.
    destruct (run (create_collection json_path) cs) as [co|e];
      [|exact Hres].
    destruct Hres as (collection & Hcollection & Hs). exists collection.
    split; [exact Hcollection|]. unfold document.
    rewrite (reify_collection_of_stands_for _ _ _ _ Hs). reflexivity.
Qed.

(** ** Helpers that do what is asked *)

Lemma update_same (r : Obj.ref) (o : Obj.t) (s : Heap.t) :
  Heap.lookup r s = Some o -> Heap.update r o s = s.
Proof.
  destruct s as [c_ objects]. unfold Heap.lookup, Heap.update. simpl.
  intros H. f_equal. revert r H.
  induction objects as [|x rest IH]; intros [|r] H; simpl in *;
    try discriminate; [congruence|]. rewrite (IH r H). reflexivity.
Qed.

Lemma make_asset_creates (o : Outcome (string * Asset.t)) :
  creates_asset (Plain.make_asset o) o.
Proof.
  intros s. destruct o as [[key a]|exc]; simpl; [|reflexivity].
  exists (Plain.asset_object a). split; [repeat split|reflexivity].
Qed.

Lemma make_assets_run (l : list (string * Asset.t)) :
  forall s,
    HeapOps.comprehension (fun ka => Plain.make_asset (Returns ka)) l s
    = (Ok (combine (map fst l) (seq (length (Heap.objects s)) (length l))),
       Heap.grow
         (map Obj.OAsset (map Plain.asset_object (map snd l))) s).
Proof.
  induction l as [|[key a] l IH]; intros s.
  - simpl. unfold Heap.ret, Heap.grow. rewrite app_nil_r.
    destruct s. reflexivity.
  - simpl HeapOps.comprehension.
    assert (Hone : Plain.make_asset (Returns (key, a)) s
                   = (Ok (key, length (Heap.objects s)),
                      Heap.grow [Obj.OAsset (Plain.asset_object a)] s))
      by reflexivity.
    rewrite (heap_bind_returns _ _ _ _ _ _ _ Hone).
    rewrite (heap_bind_returns _ _ _ _ _ _ _ (IH _)).
    unfold Heap.ret, Heap.grow. simpl.
    rewrite length_app. simpl. rewrite Nat.add_1_r.
    rewrite <- app_assoc. reflexivity.
Qed.

Lemma make_assets_creates (o : Outcome (list (string * Asset.t))) :
  creates_assets (Plain.make_assets o) o.
Proof.
  intros s. destruct o as [l|exc]; simpl; [|reflexivity].
  exists (map Plain.asset_object (map snd l)). split.
  - induction (map snd l) as [|a r IH]; simpl; constructor;
      [repeat split|exact IH].
  - apply make_assets_run.
Qed.

Lemma fill_item_fills (o : Outcome Writes) :
  fills_item (Plain.fill_item o) o.
Proof.
  intros s item i Hi. unfold Plain.fill_item. destruct o as [ws|exc].
  - unfold Heap.bind at 1. simpl. exact (modify_item_run _ _ _ _ Hi).
  - exists (Obj.Item.properties i). unfold Heap.bind. simpl.
    rewrite update_same; [reflexivity|]. rewrite Hi. destruct i. reflexivity.
Qed.

Lemma fill_asset_fills (o : Outcome Writes) :
  fills_asset (Plain.fill_asset o) o.
Proof.
  intros s asset a Ha. unfold Plain.fill_asset. destruct o as [ws|exc].
  - unfold Heap.bind, Heap.the_asset, Heap.put. simpl. rewrite Ha.
    reflexivity.
  - exists (Obj.Asset.extra_fields a). unfold Heap.bind. simpl.
    rewrite update_same; [reflexivity|]. rewrite Ha. destruct a. reflexivity.
Qed.

Lemma plain_metalinks_stand_for (ml : SLCMetadataLinks.t) :
  metalinks_stand_for (Plain.metalinks ml) ml.
Proof.
  unfold metalinks_stand_for. simpl. repeat (split; [reflexivity|]).
  split; [apply make_asset_creates|].
  split; [apply make_assets_creates|].
  split; apply make_assets_creates.
Qed.

Lemma plain_product_metadata_stands_for (pm : SLCProductMetadata.t) :
  product_metadata_stands_for (Plain.product_metadata pm) pm.
Proof.
  unfold product_metadata_stands_for. simpl.
  repeat split; apply reads_only_call.
Qed.

(** The requirements on the helpers can be met, whatever the helpers of
    the first part are, as long as [get_shape] reads of the metadata links
    only what the object has. *)
Lemma plain_helpers_implement (E : Externals)
    (get_shape_ :
       Stateful.SLCMetadataLinks.t -> option ReadHrefModifier -> dict Value ->
       Outcome (list Z)) :
  (forall m ml rhm kw,
     metalinks_stand_for m ml ->
     get_shape_ m rhm kw = get_shape E ml rhm kw) ->
  implements (Plain.helpers E get_shape_) E.
Proof.
  intros Hshape. constructor; simpl.
  - intros granule rhm fmt kw s.
    destruct (new_SLCMetadataLinks E granule rhm fmt kw) as [ml|exc]; simpl;
      [|reflexivity].
    exists (Plain.metalinks ml).
    split; [apply plain_metalinks_stand_for|reflexivity].
  - intros href grouped map_filename manifest s.
    destruct (new_SLCProductMetadata E href grouped map_filename manifest)
      as [pm|exc]; simpl; [|reflexivity].
    exists (Plain.product_metadata pm).
    split; [apply plain_product_metadata_stands_for|reflexivity].
  - intros manifest. apply fill_item_fills.
  - intros manifest. apply fill_item_fills.
  - intros manifest. apply fill_item_fills.
  - intros swath polarisation. apply fill_asset_fills.
  - intros m ml rhm kw Hm. rewrite (Hshape m ml rhm kw Hm).
    apply reads_only_call.
  - intros href item_ref media_type slc_swaths s item Hitem.
    unfold creates_asset_from. rewrite Hitem.
    apply make_asset_creates.
  - intros href names. apply reads_only_call.
Qed.

(* ================================================================== *)
(** * The calls leave what they find *)
(* ================================================================== *)

(** C3.  The two functions run on a store of objects, where the helpers
    of the package are computations that may write anything: when these
    extract their data without a trace, make new objects for the assets
    and write to the object they are handed only ([implements]), then in
    any sequence of calls of [create_item] and [create_collection] no call
    changes an object or a binding of the module [c] that was there
    before, and every call returns (a reference to) the very document that
    the call computes from its arguments and the module as it was at the
    start, or raises the same exception: equal calls give equal documents
    wherever they stand in the sequence, and the documents of earlier
    calls still read the same after all later ones. *)
Theorem calls_write_only_to_new_objects (H : Stateful.Helpers)
    (E : Externals) (calls : list Call) (s : Heap.t) (cs : c.t) :
  implements H E ->
  Reify.module s = Some cs ->
  extends s (snd (perform_all H E calls s))
  /\ Reify.module (snd (perform_all H E calls s)) = Some cs
  /\ Forall2
       (fun call r =>
          yields (snd (perform_all H E calls s)) call r (computed E call cs))
       calls (fst (perform_all H E calls s)).
Proof.
  intros Himpl. revert s. induction calls as [|call rest IH]; intros s Hcs.
  - simpl. split; [apply extends_refl|]. split; [exact Hcs|constructor].
  - simpl perform_all.
    destruct (perform_refines H E call s cs Himpl Hcs) as (Hext1 & Hyields).
    destruct (perform H E call s) as [r s1]. simpl fst in *. simpl snd in *.
    destruct (IH s1 (module_extends s s1 Hext1 cs Hcs))
      as (Hext2 & Hcs2 & Hrest).
    destruct (perform_all H E rest s1) as [rs s2].
    simpl fst in *. simpl snd in *.
    split; [exact (extends_trans _ _ _ Hext1 Hext2)|].
    split; [exact Hcs2|].
    constructor; [|exact Hrest].
    exact (yields_extends s1 s2 Hext2 call r _ Hyields).
Qed.

Lemma calls_write_only_to_new_objects_witness :
  Reify.module StoreFixture.store = Some Fixture.store
  /\ fst (perform_all StoreFixture.helpers Fixture.externals
            StoreFixture.calls StoreFixture.store)
     = [Ok 4; Ok 15; Ok 16; Err (Raised "FileNotFoundError")]
  /\ Reify.item
       (snd (perform_all StoreFixture.helpers Fixture.externals
               StoreFixture.calls StoreFixture.store)) 4
     = Some Fixture.item_A
  /\ Reify.item
       (snd (perform_all StoreFixture.helpers Fixture.externals
               StoreFixture.calls StoreFixture.store)) 16
     = Some Fixture.item_A
  /\ Reify.collection
       (snd (perform_all StoreFixture.helpers Fixture.externals
               StoreFixture.calls StoreFixture.store)) 15
     = Some Fixture.collection_1
  /\ extends StoreFixture.store
       (snd (perform_all StoreFixture.helpers Fixture.externals
               StoreFixture.calls StoreFixture.store))
  /\ Forall2
       (fun call r =>
          yields
            (snd (perform_all StoreFixture.helpers Fixture.externals
                    StoreFixture.calls StoreFixture.store))
            call r (computed Fixture.externals call Fixture.store))
       StoreFixture.calls
       (fst (perform_all StoreFixture.helpers Fixture.externals
               StoreFixture.calls StoreFixture.store)).
Proof.
  split; [vm_compute; reflexivity|].
  split; [vm_compute; reflexivity|].
  split; [vm_compute; reflexivity|].
  split; [vm_compute; reflexivity|].
  split; [vm_compute; reflexivity|].
  destruct (calls_write_only_to_new_objects StoreFixture.helpers
              Fixture.externals StoreFixture.calls StoreFixture.store
              Fixture.store)
    as (Hext & _ & Hyields).
  - apply plain_helpers_implement. reflexivity.
  - vm_compute. reflexivity.
  - split; [exact Hext|exact Hyields].
Defined.
